(** * mac-recorder engine: recognition orchestration

    A shallow embedding of [mac_recorder_engine/asr/engine.py],
    [mac_recorder_engine/asr/language.py],
    [mac_recorder_engine/transcriber.py], [mac_recorder_engine/protocol.py]
    and [mac_recorder_engine/main.py], and the properties of the recognition
    pipeline and of the command loop proved over it.

    Conventions of the embedding.
    - A Python [str] is the list of its Unicode code points.
    - A Python [float] holding audio data is a binary64 primitive float; the
      timestamps of a segment are finite floats and are kept as the rational
      numbers they denote, compared by value.
    - [onnx_asr], [soundfile] and the recognisers they return are outside the
      repository: they are a [Library] of oracles.  An oracle of [onnx_asr]
      answers from the history of the calls made so far, so that a library
      with effects is covered, and it returns or raises; of an exception it
      raises the engine reads the rendered message only.
    - [numpy] is outside the repository too: [np.linspace], [np.interp],
      [np.stack] and the conversion to single precision are modelled on
      binary64 floats after numpy's implementation.
    - Every operation of the engine runs in a state-and-exception monad in
      which the state survives a raised exception, as it does in Python.
    - [logger.warning] records are kept in the state; the records of
      [logger.info] and [logger.exception] are not, but for the division by
      the sample rate that the arguments of one of them evaluate.
    - [json.loads] is an oracle that returns a JSON value or raises.  The
      serialisation of an event and its write to the standard output are an
      oracle too, which returns or raises; the output of [main] is the
      sequence of the events for which [send_event] returned.  The input of
      [main] is the lines read and the way the read ends.  Exceptions that
      are no [Exception] of Python, such as an interrupt, are left out. *)

From Stdlib Require Import Ascii String.
From Stdlib Require Import ZArith NArith QArith Qround List Bool Lia.
From Stdlib Require Import Floats Permutation Sorted DecimalString.
Import ListNotations.

(* ===================================================================== *)
(** ** Python strings, dictionaries and sets *)
(* ===================================================================== *)

Module Py.

(** A code point, and a string as the sequence of its code points. *)
Definition char := N.
Definition str := list char.

(** The literal of an ASCII string. *)
Definition lit (s : string) : str :=
  List.map N_of_ascii (list_ascii_of_string s).

Fixpoint eqb (a b : str) : bool :=
  match a, b with
  | [], [] => true
  | x :: a', y :: b' => N.eqb x y && eqb a' b'
  | _, _ => false
  end.

(** [a < b] on strings: lexicographic on code points. *)
Fixpoint ltb (a b : str) : bool :=
  match a, b with
  | _, [] => false
  | [], _ :: _ => true
  | x :: a', y :: b' =>
      if N.ltb x y then true
      else if N.eqb x y then ltb a' b' else false
  end.

Fixpoint startswith (prefix s : str) : bool :=
  match prefix, s with
  | [], _ => true
  | _ :: _, [] => false
  | x :: p', y :: s' => N.eqb x y && startswith p' s'
  end.

(** [needle in hay]. *)
Fixpoint contains (needle hay : str) : bool :=
  startswith needle hay ||
  match hay with
  | [] => false
  | _ :: hay' => contains needle hay'
  end.

(** [c.isspace()]: the code points CPython's [_PyUnicode_IsWhitespace]
    accepts. *)
Definition isspace (c : char) : bool :=
  ((9 <=? c) && (c <=? 13) || (28 <=? c) && (c <=? 32)
   || (c =? 133) || (c =? 160) || (c =? 5760)
   || (8192 <=? c) && (c <=? 8202)
   || (c =? 8232) || (c =? 8233) || (c =? 8239) || (c =? 8287)
   || (c =? 12288))%N.

Fixpoint lstrip (s : str) : str :=
  match s with
  | [] => []
  | c :: s' => if isspace c then lstrip s' else s
  end.

Definition rstrip (s : str) : str := rev (lstrip (rev s)).

(** [s.strip()]. *)
Definition strip (s : str) : str := rstrip (lstrip s).

(** [sep.join(parts)]. *)
Fixpoint join (sep : str) (parts : list str) : str :=
  match parts with
  | [] => []
  | [p] => p
  | p :: rest => p ++ sep ++ join sep rest
  end.

(** [x or y] on an optional string: [None] and [""] are falsy. *)
Definition or_else (x : option str) (y : str) : str :=
  match x with
  | None | Some [] => y
  | Some s => s
  end.

(** [l[:k]] on a sequence. *)
Definition slice_to {A} (l : list A) (k : Z) : list A :=
  if (k <? 0)%Z
  then firstn (Z.to_nat (Z.of_nat (length l) + k)) l
  else firstn (Z.to_nat k) l.

(** A [dict] with string keys: insertion ordered, one entry per key. *)
Definition dict (V : Type) := list (str * V).

Fixpoint get {V} (d : dict V) (k : str) : option V :=
  match d with
  | [] => None
  | (k', v) :: d' => if eqb k k' then Some v else get d' k
  end.

(** [d[k] = v]: an existing key keeps its place, a new one goes last. *)
Fixpoint set {V} (d : dict V) (k : str) (v : V) : dict V :=
  match d with
  | [] => [(k, v)]
  | (k', v') :: d' =>
      if eqb k k' then (k', v) :: d' else (k', v') :: set d' k v
  end.

(** [k in d]. *)
Definition has {V} (d : dict V) (k : str) : bool :=
  match get d k with Some _ => true | None => false end.

(** A [set] of strings. *)
Definition strset := list str.

Fixpoint mem (k : str) (s : strset) : bool :=
  match s with
  | [] => false
  | k' :: s' => eqb k k' || mem k s'
  end.

Definition add (k : str) (s : strset) : strset :=
  if mem k s then s else s ++ [k].

Fixpoint discard (k : str) (s : strset) : strset :=
  match s with
  | [] => []
  | k' :: s' => if eqb k k' then discard k s' else k' :: discard k s'
  end.

End Py.

Definition str := Py.str.

(* ===================================================================== *)
(** ** Exceptions *)
(* ===================================================================== *)

(** The exceptions of the pipeline.  The two [ValueError]s the engine raises
    itself are kept apart from what the Python runtime and the libraries
    raise, of which only the rendered message is observed. *)
Inductive Exception :=
| NoModelLoaded (lang : str)     (* ValueError(f"No model loaded for language: {lang}") *)
| UnknownLanguage (lang : str)   (* ValueError(f"Unknown language: {lang}") *)
| KeyError (key : str)
| ZeroDivisionError
| Raised (message : str).        (* raised by a library *)

(** [str(error)]. *)
Definition str_of_exception (e : Exception) : str :=
  match e with
  | NoModelLoaded lang => Py.lit "No model loaded for language: " ++ lang
  | UnknownLanguage lang => Py.lit "Unknown language: " ++ lang
  | KeyError key => Py.lit "'" ++ key ++ Py.lit "'"
  | ZeroDivisionError => Py.lit "division by zero"
  | Raised message => message
  end.

Inductive result (A : Type) :=
| Ok (a : A)
| Err (e : Exception).

Arguments Ok {A} a.
Arguments Err {A} e.

(* ===================================================================== *)
(** ** numpy *)
(* ===================================================================== *)

Module Np.

Open Scope Z_scope.

(** Conversion of a Python [int] to a [float] (round to nearest even). *)
Definition float_of_int (z : Z) : float :=
  SF2Prim (binary_normalize prec emax z 0 false).

(** [int(x)]: truncation toward zero; fails on an infinity or a NaN. *)
Definition int_of_float (x : float) : option Z :=
  match Prim2SF x with
  | S754_zero _ => Some 0
  | S754_finite s m e =>
      let a := match e with
               | Zneg p => Z.shiftr (Zpos m) (Zpos p)
               | _ => Z.shiftl (Zpos m) e
               end in
      Some (if s then - a else a)
  | _ => None
  end.

(** [x.astype(np.float32)] on one value: rounding to binary32. *)
Definition float32 (x : float) : float :=
  match Prim2SF x with
  | S754_finite s m e => SF2Prim (binary_round 24 128 s m e)
  | _ => x
  end.

(** An array of one or two dimensions; [Arr2 c rows] has shape
    [(length rows, c)]. *)
Inductive ndarray :=
| Arr1 (data : list float)
| Arr2 (ncols : nat) (rows : list (list float)).

(** [a.astype(np.float32)]. *)
Definition astype_float32 (a : ndarray) : ndarray :=
  match a with
  | Arr1 data => Arr1 (List.map float32 data)
  | Arr2 ncols rows => Arr2 ncols (List.map (List.map float32) rows)
  end.

(** [len(a)]. *)
Definition len (a : ndarray) : nat :=
  match a with
  | Arr1 data => length data
  | Arr2 _ rows => length rows
  end.

(** [a[:, c]]. *)
Definition column (c : nat) (rows : list (list float)) : list float :=
  List.map (fun r => nth c r zero) rows.

(** [np.arange(n)], as the floats [np.interp] reads. *)
Definition arange (n : nat) : list float :=
  List.map (fun i => float_of_int (Z.of_nat i)) (seq 0 n).

Fixpoint set_last (l : list float) (v : float) : list float :=
  match l with
  | [] => []
  | [_] => [v]
  | x :: l' => x :: set_last l' v
  end.

(** [np.linspace(start, stop, num)] with the end point included. *)
Definition linspace (start stop : float) (num : Z) : result (list float) :=
  if num <? 0
  then Err (Raised (Py.lit "Number of samples, %s, must be non-negative."))
  else
    let div := num - 1 in
    let delta := (stop - start)%float in
    let y := arange (Z.to_nat num) in
    let y :=
      if 0 <? div then
        let step := (delta / float_of_int div)%float in
        if (step =? 0)%float
        then List.map (fun v => (v / float_of_int div * delta)%float) y
        else List.map (fun v => (v * step)%float) y
      else List.map (fun v => (v * delta)%float) y in
    let y := List.map (fun v => (v + start)%float) y in
    Ok (if 1 <? num then set_last y stop else y).

(** One value of [np.interp] between the sample points: the segment
    [xp[j] <= x < xp[j+1]] is found, the last point answers [fp[-1]]. *)
Fixpoint interp_walk (x : float) (xp fp : list float) : float :=
  match xp, fp with
  | x0 :: ((x1 :: _) as xp'), y0 :: ((y1 :: _) as fp') =>
      if (x <? x1)%float then
        if (x0 =? x)%float then y0
        else
          let slope := ((y1 - y0) / (x1 - x0))%float in
          let r := (slope * (x - x0) + y0)%float in
          if is_nan r then
            let r' := (slope * (x - x1) + y1)%float in
            if is_nan r' && (y0 =? y1)%float then y0 else r'
          else r
      else interp_walk x xp' fp'
  | _, y0 :: _ => y0
  | _, [] => nan
  end.

Definition interp_one (xp fp : list float) (x : float) : float :=
  if is_nan x then x
  else if (x <? hd zero xp)%float then hd zero fp
  else if (last xp zero <? x)%float then last fp zero
  else interp_walk x xp fp.

(** [np.interp(x, xp, fp)]. *)
Definition interp (x xp fp : list float) : result (list float) :=
  match xp with
  | [] => Err (Raised (Py.lit "array of sample points is empty"))
  | _ :: _ =>
      if Nat.eqb (length fp) (length xp)
      then Ok (List.map (interp_one xp fp) x)
      else Err (Raised (Py.lit "fp and xp are not of the same length."))
  end.

(** [np.stack(channels, axis=1)] of one-dimensional arrays of one length. *)
Definition stack (channels : list (list float)) : result ndarray :=
  match channels with
  | [] => Err (Raised (Py.lit "need at least one array to stack"))
  | ch0 :: _ =>
      Ok (Arr2 (length channels)
            (List.map (fun i => List.map (fun ch => nth i ch zero) channels)
               (seq 0 (length ch0))))
  end.

(** [a[:, c]] with the bound check of the index. *)
Definition take_column (c : nat) (a : ndarray) : result (list float) :=
  match a with
  | Arr1 _ => Err (Raised (Py.lit "too many indices for array"))
  | Arr2 ncols rows =>
      if Nat.ltb c ncols then Ok (column c rows)
      else Err (Raised (Py.lit "index is out of bounds for axis 1"))
  end.

End Np.

(* ===================================================================== *)
(** ** The libraries outside the repository *)
(* ===================================================================== *)

(** What [onnx_asr.load_vad] and [onnx_asr.load_model] return: opaque
    objects, told apart by identity. *)
Definition VadObject := nat.
Definition ModelObject := nat.

(** What [model.with_vad(vad)] returns: the recogniser composed with the
    voice-activity detector it was given ([None] when the engine holds none). *)
Record Model := with_vad {
  model_object : ModelObject;
  model_vad : option VadObject }.

(** One item of what [model.recognize] yields. *)
Record RawSegment := {
  raw_text : option str;      (* [seg.text], when [hasattr(seg, "text")] *)
  raw_str : str;              (* [str(seg)] *)
  raw_start : option Q;       (* [seg.start], when present *)
  raw_end : option Q }.       (* [seg.end], when present *)

(** What a call into a library does: it returns, or it raises an exception,
    of which the engine reads the rendered message only. *)
Inductive answer (A : Type) :=
| Returns (a : A)
| Raises (message : str).

Arguments Returns {A} a.
Arguments Raises {A} message.

Definition outcome {A} (a : answer A) : result A :=
  match a with
  | Returns x => Ok x
  | Raises message => Err (Raised message)
  end.

(** A call into [onnx_asr], with its arguments. *)
Inductive Call :=
| LoadVad (name : str)
| LoadModel (model_name : str) (providers : option (list str))
| Recognize (model : Model) (audio : list float) (sample_rate : Z).

(** The libraries: each answer may depend on the calls made before. *)
Record Library := {
  load_vad : list Call -> str -> answer VadObject;
  load_model : list Call -> str -> option (list str) -> answer ModelObject;
  model_recognize :
    list Call -> Model -> list float -> Z -> answer (list RawSegment);
  sf_read : str -> answer (Np.ndarray * Z) }.

(* ===================================================================== *)
(** ** State and the monad of the engine *)
(* ===================================================================== *)

(** [ASREngine]'s attributes. *)
Record ASREngine := {
  _russian_model_name : str;
  _english_model_name : str;
  _language : str;
  _vad : option VadObject;
  _models : Py.dict Model;
  _cpu_only_languages : Py.strset }.

(** An argument of a log record. *)
Inductive LogArg :=
| ArgStr (s : str)
| ArgInt (n : Z)
| ArgExc (e : Exception).

(** A [logger.warning] record: the format and its arguments. *)
Record Warning := {
  warning_format : str;
  warning_args : list LogArg }.

Record State := {
  engine : ASREngine;         (* the engine object *)
  history : list Call;        (* the library calls made, oldest first *)
  log : list Warning }.       (* the warnings logged, oldest first *)

Definition M (A : Type) := State -> result A * State.

Definition ret {A} (a : A) : M A := fun st => (Ok a, st).

Definition bind {A B} (m : M A) (k : A -> M B) : M B :=
  fun st =>
    match m st with
    | (Ok a, st') => k a st'
    | (Err e, st') => (Err e, st')
    end.

Definition raise {A} (e : Exception) : M A := fun st => (Err e, st).

(** [try: body  except Exception as error: handler(error)]. *)
Definition try_except {A} (body : M A) (handler : Exception -> M A) : M A :=
  fun st =>
    match body st with
    | (Ok a, st') => (Ok a, st')
    | (Err e, st') => handler e st'
    end.

(** [try: x = body  except Exception as error: handler(error)
     else: orelse(x)]. *)
Definition try_except_else {A B}
    (body : M A) (handler : Exception -> M B) (orelse : A -> M B) : M B :=
  fun st =>
    match body st with
    | (Ok a, st') => orelse a st'
    | (Err e, st') => handler e st'
    end.

Definition lift {A} (r : result A) : M A := fun st => (r, st).

Declare Scope engine_scope.
Delimit Scope engine_scope with engine.
Notation "x <- c ;; k" := (bind c (fun x => k))
  (at level 61, c at next level, right associativity) : engine_scope.
Notation "' p <- c ;; k" := (bind c (fun x => match x with p => k end))
  (at level 61, p pattern, c at next level, right associativity) : engine_scope.
Notation "c ;; k" := (bind c (fun _ => k))
  (at level 61, right associativity) : engine_scope.
Open Scope engine_scope.

Definition get_engine : M ASREngine := fun st => (Ok (engine st), st).

Definition set_engine (e : ASREngine) : M unit :=
  fun st => (Ok tt, {| engine := e; history := history st; log := log st |}).

Definition modify_engine (f : ASREngine -> ASREngine) : M unit :=
  self <- get_engine ;; set_engine (f self).

(** [logger.warning(format, *args)]. *)
Definition logger_warning (format : str) (args : list LogArg) : M unit :=
  fun st =>
    (Ok tt,
     {| engine := engine st; history := history st;
        log := log st ++ [{| warning_format := format; warning_args := args |}] |}).

(** [for x in xs: acc = body(x, acc)]. *)
Fixpoint for_each {A B} (xs : list A) (body : A -> B -> M B) (acc : B) : M B :=
  match xs with
  | [] => ret acc
  | x :: xs' => acc' <- body x acc ;; for_each xs' body acc'
  end.

(** Attribute updates of the engine. *)
Definition with_language (l : str) (self : ASREngine) : ASREngine :=
  {| _russian_model_name := _russian_model_name self;
     _english_model_name := _english_model_name self;
     _language := l;
     _vad := _vad self;
     _models := _models self;
     _cpu_only_languages := _cpu_only_languages self |}.

Definition with_vad_attr (v : option VadObject) (self : ASREngine) : ASREngine :=
  {| _russian_model_name := _russian_model_name self;
     _english_model_name := _english_model_name self;
     _language := _language self;
     _vad := v;
     _models := _models self;
     _cpu_only_languages := _cpu_only_languages self |}.

Definition with_models (d : Py.dict Model) (self : ASREngine) : ASREngine :=
  {| _russian_model_name := _russian_model_name self;
     _english_model_name := _english_model_name self;
     _language := _language self;
     _vad := _vad self;
     _models := d;
     _cpu_only_languages := _cpu_only_languages self |}.

Definition with_cpu_only (s : Py.strset) (self : ASREngine) : ASREngine :=
  {| _russian_model_name := _russian_model_name self;
     _english_model_name := _english_model_name self;
     _language := _language self;
     _vad := _vad self;
     _models := _models self;
     _cpu_only_languages := s |}.

(* ===================================================================== *)
(** ** asr/engine.py *)
(* ===================================================================== *)

Definition _MODEL_PATH_EMPTY : str := Py.lit "model_path must not be empty".
Definition _INITIALIZER_SIGNATURE : str := Py.lit "Initializer::Initializer".
Definition _COREML_PROVIDER : str := Py.lit "CoreMLExecutionProvider".
Definition _COREML_RUNTIME_ERROR : str :=
  Py.lit "Unable to compute the prediction using a neural network model".

Definition CPUExecutionProvider : str := Py.lit "CPUExecutionProvider".

(** Retry with CPU when CoreML/ORT fails to initialize models with external
    data. *)
Definition _should_retry_with_cpu (error : Exception) : bool :=
  let message := str_of_exception error in
  Py.contains _MODEL_PATH_EMPTY message
  && Py.contains _INITIALIZER_SIGNATURE message.

(** Detect CoreML execution failures that should trigger a CPU fallback. *)
Definition _is_coreml_runtime_failure (error : Exception) : bool :=
  let message := str_of_exception error in
  Py.contains _COREML_PROVIDER message
  && Py.contains _COREML_RUNTIME_ERROR message.

(** [ASREngine.__init__]. *)
Definition ASREngine_init (russian_model english_model language : str)
  : ASREngine :=
  {| _russian_model_name := russian_model;
     _english_model_name := english_model;
     _language := language;
     _vad := None;
     _models := [];
     _cpu_only_languages := [] |}.

(** A segment of the transcript: the dictionary with the keys "start",
    "end", "text", "language" and, once tagged, "source". *)
Record Segment := {
  start : Q;
  end_ : Q;
  text : str;
  language : str;
  source : option str }.

Definition WARN_LOAD_RETRY : str :=
  Py.lit "Model %s failed with default providers (%s). Retrying with CPUExecutionProvider only.".
Definition WARN_INFERENCE_RETRY : str :=
  Py.lit "Model %s failed during inference with CoreML (%s). Retrying with CPUExecutionProvider only.".

Section Engine.

Variable lib : Library.

(** The calls into [onnx_asr]: the library answers from the history, and
    the call is recorded. *)
Definition record_call (c : Call) (st : State) : State :=
  {| engine := engine st; history := history st ++ [c]; log := log st |}.

Definition onnx_asr_load_vad (name : str) : M VadObject :=
  fun st =>
    (outcome (load_vad lib (history st) name), record_call (LoadVad name) st).

Definition onnx_asr_load_model (model_name : str)
    (providers : option (list str)) : M ModelObject :=
  fun st =>
    (outcome (load_model lib (history st) model_name providers),
     record_call (LoadModel model_name providers) st).

Definition call_recognize (model : Model) (audio : list float)
    (sample_rate : Z) : M (list RawSegment) :=
  fun st =>
    (outcome (model_recognize lib (history st) model audio sample_rate),
     record_call (Recognize model audio sample_rate) st).

Definition _load_model (lang model_name : str) (force_cpu : bool) : M unit :=
  let load_kwargs :=
    if force_cpu then Some [CPUExecutionProvider] else None in
  model <-
    try_except_else
      (onnx_asr_load_model model_name load_kwargs)
      (fun error =>
         if force_cpu || negb (_should_retry_with_cpu error)
         then raise error
         else
           logger_warning WARN_LOAD_RETRY
             [ArgStr model_name; ArgExc error] ;;
           model <- onnx_asr_load_model model_name
                      (Some [CPUExecutionProvider]) ;;
           modify_engine (fun self =>
             with_cpu_only (Py.add lang (_cpu_only_languages self)) self) ;;
           ret model)
      (fun model =>
         (if force_cpu
          then modify_engine (fun self =>
                 with_cpu_only (Py.add lang (_cpu_only_languages self)) self)
          else modify_engine (fun self =>
                 with_cpu_only
                   (Py.discard lang (_cpu_only_languages self)) self)) ;;
         ret model) ;;
  self <- get_engine ;;
  let model := with_vad model (_vad self) in
  set_engine (with_models (Py.set (_models self) lang model) self).

(** Load VAD and ASR models. Returns list of loaded model names. *)
Definition initialize : M (list str) :=
  vad <- onnx_asr_load_vad (Py.lit "silero") ;;
  modify_engine (with_vad_attr (Some vad)) ;;
  self <- get_engine ;;
  let loaded := [] in
  loaded <-
    (if Py.eqb (_language self) (Py.lit "ru")
        || Py.eqb (_language self) (Py.lit "auto")
     then _load_model (Py.lit "ru") (_russian_model_name self) false ;;
          ret (loaded ++ [_russian_model_name self])
     else ret loaded) ;;
  loaded <-
    (if Py.eqb (_language self) (Py.lit "en")
        || Py.eqb (_language self) (Py.lit "auto")
     then _load_model (Py.lit "en") (_english_model_name self) false ;;
          ret (loaded ++ [_english_model_name self])
     else ret loaded) ;;
  ret loaded.

(** [seg.text if hasattr(seg, "text") else str(seg)]. *)
Definition segment_text (seg : RawSegment) : str :=
  match raw_text seg with
  | Some t => t
  | None => raw_str seg
  end.

(** [getattr(seg, name, 0.0)]. *)
Definition getattr_or_zero (attr : option Q) : Q :=
  match attr with
  | Some v => v
  | None => 0
  end.

Definition _run_recognition (model : Model) (audio : list float)
    (sample_rate : Z) (lang : str) : M (list Segment) :=
  raw <- call_recognize model audio sample_rate ;;
  ret (fold_left
         (fun segments seg =>
            let text := segment_text seg in
            match Py.strip text with
            | [] => segments
            | _ :: _ =>
                segments ++
                [{| start := getattr_or_zero (raw_start seg);
                    end_ := getattr_or_zero (raw_end seg);
                    text := Py.strip text;
                    language := lang;
                    source := None |}]
            end)
         raw []).

(** The body of the loop of [_detect_language] over [self._models.items()]:
    one model is tried on the sample, and whatever it raises is swallowed. *)
Definition detect_step (sample : list float) (sample_rate : Z)
    (item : str * Model) (best : str * nat) : M (str * nat) :=
  let '(lang, model) := item in
  let '(best_lang, best_len) := best in
  try_except
    (raw <- call_recognize model sample sample_rate ;;
     let text := fold_left (fun text seg => text ++ segment_text seg) raw [] in
     if Nat.ltb best_len (length (Py.strip text))
     then ret (lang, length (Py.strip text))
     else ret (best_lang, best_len))
    (fun _ => ret (best_lang, best_len)).

(** Try both models on a short sample, pick whichever produces more text. *)
Definition _detect_language (audio : list float) (sample_rate : Z) : M str :=
  let sample_frames := Z.min (Z.of_nat (length audio)) (sample_rate * 5) in
  let sample := Py.slice_to audio sample_frames in
  self <- get_engine ;;
  best <- for_each (_models self) (detect_step sample sample_rate)
            (Py.lit "en", 0%nat) ;;
  ret (fst best).

Definition _model_name_for_language (lang : str) : M str :=
  self <- get_engine ;;
  if Py.eqb lang (Py.lit "ru") then ret (_russian_model_name self)
  else if Py.eqb lang (Py.lit "en") then ret (_english_model_name self)
  else raise (UnknownLanguage lang).

(** The [except] clause of [recognize]: what follows an inference that
    raised [error] for the language [lang]. *)
Definition recognize_except (audio : list float) (sample_rate : Z)
    (lang : str) (error : Exception) : M (list Segment) :=
  self <- get_engine ;;
  if Py.mem lang (_cpu_only_languages self)
     || negb (_is_coreml_runtime_failure error)
  then raise error
  else
    model_name <- _model_name_for_language lang ;;
    logger_warning WARN_INFERENCE_RETRY [ArgStr model_name; ArgExc error] ;;
    _load_model lang model_name true ;;
    self <- get_engine ;;
    match Py.get (_models self) lang with
    | Some model' => _run_recognition model' audio sample_rate lang
    | None => raise (KeyError lang)
    end.

(** Recognize speech in audio array. *)
Definition recognize (audio : list float) (sample_rate : Z)
    (language : option str) : M (list Segment) :=
  self <- get_engine ;;
  let lang := Py.or_else language (_language self) in
  lang <-
    (if Py.eqb lang (Py.lit "auto")
     then _detect_language audio sample_rate
     else ret lang) ;;
  self <- get_engine ;;
  match Py.get (_models self) lang with
  | None => raise (NoModelLoaded lang)
  | Some model =>
      try_except
        (_run_recognition model audio sample_rate lang)
        (recognize_except audio sample_rate lang)
  end.

(** Change the active language. Loads model if not yet loaded. *)
Definition set_language (language : str) : M unit :=
  modify_engine (with_language language) ;;
  self <- get_engine ;;
  if Py.eqb language (Py.lit "ru") && negb (Py.has (_models self) (Py.lit "ru"))
  then _load_model (Py.lit "ru") (_russian_model_name self) false
  else if Py.eqb language (Py.lit "en")
          && negb (Py.has (_models self) (Py.lit "en"))
  then _load_model (Py.lit "en") (_english_model_name self) false
  else if Py.eqb language (Py.lit "auto")
  then
    (if negb (Py.has (_models self) (Py.lit "ru"))
     then _load_model (Py.lit "ru") (_russian_model_name self) false
     else ret tt) ;;
    self <- get_engine ;;
    (if negb (Py.has (_models self) (Py.lit "en"))
     then _load_model (Py.lit "en") (_english_model_name self) false
     else ret tt)
  else ret tt.

End Engine.

(* ===================================================================== *)
(** ** transcriber.py *)
(* ===================================================================== *)

Definition MIC_SOURCE : str := Py.lit "mic/speak".
Definition SPEAKER_SOURCE : str := Py.lit "speaker/speak".

Definition WARN_CHANNELS : str :=
  Py.lit "Audio has %d channels; only first two will be used".

(** The exception monad of the code that touches no state. *)
Definition rbind {A B} (r : result A) (k : A -> result B) : result B :=
  match r with
  | Ok a => k a
  | Err e => Err e
  end.

(** [[f(x) for x in xs]] when [f] may raise. *)
Fixpoint comprehension {A B} (f : A -> result B) (xs : list A)
  : result (list B) :=
  match xs with
  | [] => Ok []
  | x :: xs' =>
      rbind (f x) (fun y =>
      rbind (comprehension f xs') (fun ys => Ok (y :: ys)))
  end.

Definition _resample_to_16k (audio : Np.ndarray) (sample_rate : Z)
  : result (Np.ndarray * Z) :=
  if (sample_rate =? 16000)%Z then Ok (audio, sample_rate)
  else if (sample_rate =? 0)%Z then Err ZeroDivisionError
  else
    let ratio :=
      (Np.float_of_int 16000 / Np.float_of_int sample_rate)%float in
    match Np.int_of_float
            (Np.float_of_int (Z.of_nat (Np.len audio)) * ratio)%float with
    | None => Err (Raised (Py.lit "cannot convert float to integer"))
    | Some new_length =>
        rbind (Np.linspace (Np.float_of_int 0)
                 (Np.float_of_int (Z.of_nat (Np.len audio) - 1)) new_length)
          (fun indices =>
        let old_indices := Np.arange (Np.len audio) in
        match audio with
        | Np.Arr1 data =>
            rbind (Np.interp indices old_indices data) (fun resampled =>
            Ok (Np.astype_float32 (Np.Arr1 resampled), 16000%Z))
        | Np.Arr2 ncols rows =>
            rbind (comprehension
                     (fun channel_index =>
                        Np.interp indices old_indices
                          (Np.column channel_index rows))
                     (seq 0 ncols)) (fun channels =>
            rbind (Np.stack channels) (fun resampled =>
            Ok (Np.astype_float32 resampled, 16000%Z)))
        end)
    end.

Definition _with_source (segments : list Segment) (source : str)
  : list Segment :=
  fold_left
    (fun tagged_segments segment =>
       tagged_segments ++
       [{| start := start segment; end_ := end_ segment;
           text := text segment; language := language segment;
           source := Some source |}])
    segments [].

(** The sort key [(seg.get("start", 0.0), seg.get("end", 0.0),
    seg.get("source", ""))]. *)
Definition sort_key (seg : Segment) : Q * Q * str :=
  (start seg, end_ seg,
   match source seg with Some s => s | None => [] end).

Definition Qltb (a b : Q) : bool := negb (Qle_bool b a).

(** [k1 < k2] on two keys, as Python compares tuples: the first pair of
    unequal components decides. *)
Definition key_ltb (k1 k2 : Q * Q * str) : bool :=
  let '(s1, e1, src1) := k1 in
  let '(s2, e2, src2) := k2 in
  if negb (Qeq_bool s1 s2) then Qltb s1 s2
  else if negb (Qeq_bool e1 e2) then Qltb e1 e2
  else if negb (Py.eqb src1 src2) then Py.ltb src1 src2
  else false.

(** [sorted(xs, key=key)]: a stable sort that only asks [<] of the keys. *)
Section Sorted.
Variables (A K : Type) (key : A -> K) (ltb : K -> K -> bool).

Fixpoint insert_sorted (x : A) (l : list A) : list A :=
  match l with
  | [] => [x]
  | y :: l' =>
      if ltb (key y) (key x) then y :: insert_sorted x l'
      else x :: l
  end.

Definition sorted (l : list A) : list A :=
  fold_right insert_sorted [] l.
End Sorted.

Arguments insert_sorted {A K} key ltb x l.
Arguments sorted {A K} key ltb l.

Section Transcriber.

Variable lib : Library.

(** Transcribe a WAV file. *)
Definition transcribe (audio_path language russian_model english_model : str)
  : M (list Segment * str) :=
  '(audio, sample_rate) <- lift (outcome (sf_read lib audio_path)) ;;
  (* the record of the loaded audio divides [len(audio)] by [sample_rate] *)
  (if (sample_rate =? 0)%Z then raise ZeroDivisionError else ret tt) ;;
  '(audio, sample_rate) <- lift (_resample_to_16k audio sample_rate) ;;
  set_engine (ASREngine_init russian_model english_model language) ;;
  initialize lib ;;
  segments <-
    match audio with
    | Np.Arr1 data => recognize lib data sample_rate None
    | Np.Arr2 ncols rows =>
        if Nat.eqb ncols 1
        then recognize lib (Np.column 0 rows) sample_rate None
        else
          (if Nat.ltb 2 ncols
           then logger_warning WARN_CHANNELS [ArgInt (Z.of_nat ncols)]
           else ret tt) ;;
          mic_audio <- lift (Np.take_column 0 audio) ;;
          speaker_audio <- lift (Np.take_column 1 audio) ;;
          mic <- recognize lib mic_audio sample_rate None ;;
          let mic_segments := _with_source mic MIC_SOURCE in
          speaker <- recognize lib speaker_audio sample_rate None ;;
          let speaker_segments := _with_source speaker SPEAKER_SOURCE in
          ret (sorted sort_key key_ltb (mic_segments ++ speaker_segments))
    end ;;
  let full_text := Py.join (Py.lit " ") (List.map text segments) in
  ret (segments, full_text).

End Transcriber.

(* ===================================================================== *)
(** ** asr/language.py *)
(* ===================================================================== *)

(** Tracks current language setting. *)
Record LanguageState := { current : str }.

(** The default of the dataclass. *)
Definition LanguageState_default : LanguageState :=
  {| current := Py.lit "auto" |}.

(** Return the language to pass to ASR, or [None] for auto-detection. *)
Definition effective_language (self : LanguageState) : option str :=
  if Py.eqb (current self) (Py.lit "auto") then None else Some (current self).

(* ===================================================================== *)
(** ** protocol.py *)
(* ===================================================================== *)

Module Protocol.

(** A value [json.loads] returns: [None], a [bool], an [int], a [float], a
    [str], a [list] or a [dict] with string keys. *)
#[warnings="-register-all"]
Inductive Value :=
| VNone
| VBool (b : bool)
| VInt (n : Z)
| VFloat (x : float)
| VStr (s : str)
| VList (items : list Value)
| VDict (items : list (str * Value)).

(** What the Python runtime does outside the repository: [json.loads], which
    returns or raises; the [repr] of a float, a list or a dict; and
    [transcribe] called with an argument that is not a string, a case the
    embedding of [transcribe] does not cover and that is left open here. *)
Record Runtime := {
  json_loads : str -> answer Value;
  repr : Value -> str;
  transcribe_untyped :
    Value -> Value -> Value -> Value -> M (list Segment * str) }.

(** [type(value).__name__]. *)
Definition type_name (v : Value) : str :=
  match v with
  | VNone => Py.lit "NoneType"
  | VBool _ => Py.lit "bool"
  | VInt _ => Py.lit "int"
  | VFloat _ => Py.lit "float"
  | VStr _ => Py.lit "str"
  | VList _ => Py.lit "list"
  | VDict _ => Py.lit "dict"
  end.

(** [str(value)], as an f-string renders it. *)
Definition str_of_value (rt : Runtime) (v : Value) : str :=
  match v with
  | VNone => Py.lit "None"
  | VBool true => Py.lit "True"
  | VBool false => Py.lit "False"
  | VInt n => Py.lit (NilZero.string_of_int (Z.to_int n))
  | VStr s => s
  | _ => repr rt v
  end.

(** The exceptions of [parse_command]. *)
Inductive CommandError :=
| JSONDecodeError (message : str)     (* raised by [json.loads] *)
| AttributeError (data : Value)       (* [data.get] on what is no dict *)
| UnknownCommandType (cmd_type : Value).
                       (* ValueError(f"Unknown command type: {cmd_type}") *)

(** [str(error)]. *)
Definition str_of_error (rt : Runtime) (e : CommandError) : str :=
  match e with
  | JSONDecodeError message => message
  | AttributeError data =>
      Py.lit "'" ++ type_name data
      ++ Py.lit "' object has no attribute 'get'"
  | UnknownCommandType cmd_type =>
      Py.lit "Unknown command type: " ++ str_of_value rt cmd_type
  end.

(** The dataclass of the one command.  Its fields hold whatever the
    payload held. *)
Record TranscribeCommand := {
  type : str;
  audio_path : Value;
  language : Value;
  russian_model : Value;
  english_model : Value }.

(** [data.get(key)] and [data.get(key, default)]. *)
Definition dict_get (d : list (str * Value)) (key : str) (default : Value)
  : Value :=
  match Py.get d key with
  | Some v => v
  | None => default
  end.

(** [cmd_type == "transcribe"]. *)
Definition is_transcribe (cmd_type : Value) : bool :=
  match cmd_type with
  | VStr s => Py.eqb s (Py.lit "transcribe")
  | _ => false
  end.

Definition parse_command (rt : Runtime) (raw : str)
  : TranscribeCommand + CommandError :=
  match json_loads rt raw with
  | Raises message => inr (JSONDecodeError message)
  | Returns (VDict data) =>
      let cmd_type := dict_get data (Py.lit "type") VNone in
      if is_transcribe cmd_type
      then inl {| type := Py.lit "transcribe";
                  audio_path :=
                    dict_get data (Py.lit "audio_path") (VStr (Py.lit ""));
                  language :=
                    dict_get data (Py.lit "language") (VStr (Py.lit "auto"));
                  russian_model :=
                    dict_get data (Py.lit "russian_model")
                      (VStr (Py.lit "gigaam-v3-rnnt"));
                  english_model :=
                    dict_get data (Py.lit "english_model")
                      (VStr (Py.lit "whisper-base")) |}
      else inr (UnknownCommandType cmd_type)
  | Returns data => inr (AttributeError data)
  end.

(** The events, one constructor for each dataclass; the [type] field of an
    event is its constructor. *)
Inductive Event :=
| StatusEvent (state message : str)
| TranscribingEvent (message : str)
| TranscriptCompleteEvent (segments : list Segment) (full_text : str)
| ErrorEvent (message : str).

(** What [json.dumps] and the write to the standard output do with an event,
    after the events already written: they return, or one of them raises,
    as the encoding of a lone surrogate or a closed pipe does. *)
Record Stdout := {
  write_line : list Event -> Event -> answer unit }.

(** Send a JSON event to stdout.  The events written are those for which
    [send_event] returned. *)
Definition send_event (out : Stdout) (event : Event) (written : list Event)
  : answer unit * list Event :=
  match write_line out written event with
  | Returns _ => (Returns tt, written ++ [event])
  | Raises message => (Raises message, written)
  end.

End Protocol.

(* ===================================================================== *)
(** ** main.py *)
(* ===================================================================== *)

Section Main.

Variable lib : Library.
Variable rt : Protocol.Runtime.
Variable out : Protocol.Stdout.

(** The call of [transcribe] with the fields of a command. *)
Definition transcribe_command (command : Protocol.TranscribeCommand)
  : M (list Segment * str) :=
  match Protocol.audio_path command, Protocol.language command,
        Protocol.russian_model command, Protocol.english_model command with
  | Protocol.VStr path, Protocol.VStr language,
    Protocol.VStr russian_model, Protocol.VStr english_model =>
      transcribe lib path language russian_model english_model
  | path, language, russian_model, english_model =>
      Protocol.transcribe_untyped rt path language russian_model english_model
  end.

(** A call of [send_event] in [main]: it returns or raises, with the events
    written and the state. *)
Definition send (event : Protocol.Event)
    (written : list Protocol.Event * State)
  : answer unit * (list Protocol.Event * State) :=
  let '(events, st) := written in
  let '(answered, events') := Protocol.send_event out event events in
  (answered, (events', st)).

(** The handler of the [try] around a transcription: the error event is
    sent, and what this [send_event] raises no handler catches. *)
Definition send_failure (e : Exception)
    (written : list Protocol.Event * State)
  : answer unit * (list Protocol.Event * State) :=
  send (Protocol.ErrorEvent
          (Py.lit "Transcription failed: " ++ str_of_exception e)) written.

(** The body of the loop of [main] for one line of the standard input.  It
    returns, and the loop goes on, or it raises, and [main] ends. *)
Definition handle_line (line : str) (written : list Protocol.Event * State)
  : answer unit * (list Protocol.Event * State) :=
  match Py.strip line with
  | [] => (Returns tt, written)
  | _ :: _ =>
      match Protocol.parse_command rt (Py.strip line) with
      | inr e =>
          send (Protocol.ErrorEvent
                  (Py.lit "Invalid command: " ++ Protocol.str_of_error rt e))
            written
      | inl command =>
          match
            send (Protocol.TranscribingEvent (Py.lit "Transcribing..."))
              written
          with
          | (Raises message, written1) =>
              send_failure (Raised message) written1
          | (Returns _, (events1, st)) =>
              match transcribe_command command st with
              | (Err e, st') => send_failure e (events1, st')
              | (Ok (segments, full_text), st') =>
                  match
                    send (Protocol.TranscriptCompleteEvent segments full_text)
                      (events1, st')
                  with
                  | (Raises message, written2) =>
                      send_failure (Raised message) written2
                  | (Returns _, written2) => (Returns tt, written2)
                  end
              end
          end
      end
  end.

(** The loop [for line in sys.stdin], over the lines read. *)
Fixpoint serve (stdin : list str) (written : list Protocol.Event * State)
  : answer unit * (list Protocol.Event * State) :=
  match stdin with
  | [] => (Returns tt, written)
  | line :: rest =>
      match handle_line line written with
      | (Returns _, written') => serve rest written'
      | (Raises message, written') => (Raises message, written')
      end
  end.

(** [main], for the lines [stdin] read from the standard input and the way
    the input ends after them: at its end, or with an exception that the
    read raises.  It returns, or it ends with an exception that nothing
    catches; either way it leaves the events written and the state, with
    the engine of the last transcription. *)
Definition main (stdin : list str) (ending : answer unit) (st : State)
  : answer unit * (list Protocol.Event * State) :=
  match
    send (Protocol.StatusEvent (Py.lit "ready") (Py.lit "Engine ready"))
      ([], st)
  with
  | (Raises message, written) => (Raises message, written)
  | (Returns _, written) =>
      match serve stdin written with
      | (Raises message, written') => (Raises message, written')
      | (Returns _, written') =>
          match ending with
          | Raises message => (Raises message, written')
          | Returns _ =>
              send (Protocol.StatusEvent (Py.lit "exiting")
                      (Py.lit "Engine shutting down")) written'
          end
      end
  end.

End Main.

(* ===================================================================== *)
(** ** Vocabulary of the properties *)
(* ===================================================================== *)

(** The language is marked CPU-only. *)
Definition cpu_only (st : State) (lang : str) : bool :=
  Py.mem lang (_cpu_only_languages (engine st)).

(** The model stored for a language. *)
Definition stored_model (st : State) (lang : str) : option Model :=
  Py.get (_models (engine st)) lang.

(** The providers argument of a CPU-only load. *)
Definition cpu_providers : option (list str) := Some [CPUExecutionProvider].

(** The pure part of [_run_recognition]: the segments kept from what the
    model yields, in order. *)
Definition kept (seg : RawSegment) : bool :=
  match Py.strip (segment_text seg) with
  | [] => false
  | _ :: _ => true
  end.

Definition to_segment (lang : str) (seg : RawSegment) : Segment :=
  {| start := getattr_or_zero (raw_start seg);
     end_ := getattr_or_zero (raw_end seg);
     text := Py.strip (segment_text seg);
     language := lang;
     source := None |}.

Definition segments_of (lang : str) (raw : list RawSegment) : list Segment :=
  List.map (to_segment lang) (List.filter kept raw).

Definition rmap {A B} (f : A -> B) (r : result A) : result B :=
  match r with
  | Ok a => Ok (f a)
  | Err e => Err e
  end.

(** The language a [recognize] request resolves to, with the state the
    resolution leaves: the detection runs when the request is "auto". *)
Definition resolve_language (lib : Library) (audio : list float)
    (sample_rate : Z) (language : option str) (st : State) : str * State :=
  let lang := Py.or_else language (_language (engine st)) in
  if Py.eqb lang (Py.lit "auto")
  then match _detect_language lib audio sample_rate st with
       | (Ok detected, st1) => (detected, st1)
       | (Err _, st1) => (lang, st1)
       end
  else (lang, st).

(** The two languages the engine has a model name for. *)
Definition supported (lang : str) : Prop :=
  lang = Py.lit "ru" \/ lang = Py.lit "en".

(** The model name the engine holds for a supported language. *)
Definition model_name_of (self : ASREngine) (lang : str) : str :=
  if Py.eqb lang (Py.lit "ru") then _russian_model_name self
  else _english_model_name self.

(** Invariant of the engine: models are stored for supported languages
    only, and a language marked CPU-only has a stored model. *)
Definition engine_inv (self : ASREngine) : Prop :=
  (forall lang, Py.has (_models self) lang = true -> supported lang)
  /\ (forall lang, Py.mem lang (_cpu_only_languages self) = true ->
        Py.has (_models self) lang = true).

(** ** Scripted libraries, in the manner of the test suite's mocks *)

Module Fixture.

Definition is_load (c : Call) : bool :=
  match c with LoadModel _ _ => true | _ => false end.

Definition is_recognize (c : Call) : bool :=
  match c with Recognize _ _ _ => true | _ => false end.

Definition exhausted {A} : answer A := Raises (Py.lit "StopIteration").

(** The n-th load and the n-th inference answer the n-th item of a
    script; the files decode to the given buffers. *)
Definition scripted (loads : list (answer ModelObject))
    (inferences : list (answer (list RawSegment)))
    (files : Py.dict (Np.ndarray * Z)) : Library :=
  {| load_vad := fun _ _ => Returns 0%nat;
     load_model := fun h _ _ =>
       nth (length (List.filter is_load h)) loads exhausted;
     model_recognize := fun h _ _ _ =>
       nth (length (List.filter is_recognize h)) inferences exhausted;
     sf_read := fun path =>
       match Py.get files path with
       | Some decoded => Returns decoded
       | None => Raises (Py.lit "Error opening file")
       end |}.

Definition no_file : Py.dict (Np.ndarray * Z) := [].

Definition external_data_error : str :=
  (Py.lit "Initializer::Initializer ... model_path must not be empty. Ensure that a path is provided when the model is created or loaded.").

Definition coreml_error : str :=
  (Py.lit "CoreMLExecutionProvider ... Unable to compute the prediction using a neural network model (error code: -1).").

Definition unexpected_error : str :=
  (Py.lit "unexpected failure").

Definition fresh (language : str) : State :=
  {| engine := ASREngine_init (Py.lit "gigaam-v3-rnnt")
                 (Py.lit "whisper-base") language;
     history := []; log := [] |}.

Definition spoken (t : string) (a b : Q) : RawSegment :=
  {| raw_text := Some (Py.lit t); raw_str := Py.lit t;
     raw_start := Some a; raw_end := Some b |}.

End Fixture.

(** ** Vocabulary of the language detection *)

(** The sample the detection runs on. *)
Definition detection_sample (audio : list float) (sample_rate : Z)
  : list float :=
  Py.slice_to audio (Z.min (Z.of_nat (length audio)) (sample_rate * 5)).

(** The calls the detection makes: every loaded model, in the order of the
    dictionary, on the sample. *)
Definition detection_calls (items : Py.dict Model) (sample : list float)
    (sample_rate : Z) : list Call :=
  List.map (fun item => Recognize (snd item) sample sample_rate) items.

(** The length of the trimmed text a model recognises when it is called
    after the history [h]; a model that raises scores nothing. *)
Definition model_score (lib : Library) (h : list Call) (model : Model)
    (sample : list float) (sample_rate : Z) : nat :=
  match model_recognize lib h model sample sample_rate with
  | Returns raw => length (Py.strip (concat (List.map segment_text raw)))
  | Raises _ => 0
  end.

(** The score of the i-th loaded model during a detection that starts
    after the history [h0]. *)
Definition detection_score (lib : Library) (h0 : list Call)
    (items : Py.dict Model) (sample : list float) (sample_rate : Z)
    (i : nat) : nat :=
  match nth_error items i with
  | Some (_, model) =>
      model_score lib
        (h0 ++ detection_calls (firstn i items) sample sample_rate)
        model sample sample_rate
  | None => 0
  end.

(** The outcome of the detection loop as a function of the library: the
    leader after the models [items], tried after the history [h]. *)
Fixpoint detect_fold (lib : Library) (h : list Call) (items : Py.dict Model)
    (sample : list float) (sample_rate : Z) (best : str * nat) : str * nat :=
  match items with
  | [] => best
  | (lang, model) :: items' =>
      let score := model_score lib h model sample sample_rate in
      detect_fold lib (h ++ [Recognize model sample sample_rate]) items'
        sample sample_rate
        (if Nat.ltb (snd best) score then (lang, score) else best)
  end.

(** The state after more library calls. *)
Definition record_calls (cs : list Call) (st : State) : State :=
  {| engine := engine st; history := history st ++ cs; log := log st |}.

(** [best] leads the first [k] of the loaded models: nothing scored and the
    fallback "en" stands, or [best] is the first model of the greatest
    score. *)
Definition leads (score : nat -> nat) (items : Py.dict Model) (k : nat)
    (best : str * nat) : Prop :=
  (snd best = 0%nat /\ fst best = Py.lit "en"
   /\ forall i, (i < k)%nat -> score i = 0%nat)
  \/ (exists i model,
        (i < k)%nat
        /\ nth_error items i = Some (fst best, model)
        /\ score i = snd best
        /\ (0 < snd best)%nat
        /\ (forall j, (j < k)%nat -> (score j <= snd best)%nat)
        /\ (forall j, (j < i)%nat -> (score j < snd best)%nat)).

(** The state a successful load leaves: the call recorded, the model stored
    with the detector composed in, the mark set or cleared. *)
Definition loaded (lang model_name : str) (providers : option (list str))
    (m : ModelObject) (marks : Py.strset) (st : State) : State :=
  {| engine :=
       with_models
         (Py.set (_models (engine st)) lang (with_vad m (_vad (engine st))))
         (with_cpu_only marks (engine st));
     history := history st ++ [LoadModel model_name providers];
     log := log st |}.

(** The state after one more warning. *)
Definition warned (format : str) (args : list LogArg) (st : State) : State :=
  {| engine := engine st; history := history st;
     log := log st ++ [{| warning_format := format; warning_args := args |}] |}.

(** An exception the libraries raised, as opposed to one of the engine's
    own. *)
Definition from_library (e : Exception) : Prop :=
  exists message, e = Raised message.

(** ** Vocabulary of the life of the engine *)

(** The operations a caller runs on the engine. *)
Inductive Operation :=
| OpInitialize
| OpRecognize (audio : list float) (sample_rate : Z) (language : option str)
| OpSetLanguage (language : str).

(** The state an operation leaves, whether it returns or raises. *)
Definition run_operation (lib : Library) (op : Operation) (st : State)
  : State :=
  match op with
  | OpInitialize => snd (initialize lib st)
  | OpRecognize audio sample_rate language =>
      snd (recognize lib audio sample_rate language st)
  | OpSetLanguage language => snd (set_language lib language st)
  end.

Definition run_operations (lib : Library) (ops : list Operation) (st : State)
  : State :=
  fold_left (fun st op => run_operation lib op st) ops st.

(** Between the histories [h] and [h'], a load of the model with the
    default providers was answered with a model. *)
Definition accelerated_load_succeeded (lib : Library) (model_name : str)
    (h h' : list Call) : Prop :=
  exists pre post m,
    h' = h ++ pre ++ LoadModel model_name None :: post
    /\ load_model lib (h ++ pre) model_name None = Returns m.

(** The providers argument of a load. *)
Definition providers_of (force_cpu : bool) : option (list str) :=
  if force_cpu then cpu_providers else None.

(** The four ways a run of [_load_model] goes, with its result and the
    state it leaves. *)
Inductive load_run (lib : Library) (lang model_name : str) (force_cpu : bool)
    (st : State) : result unit -> State -> Prop :=
| load_first_ok m :
    load_model lib (history st) model_name (providers_of force_cpu)
    = Returns m ->
    load_run lib lang model_name force_cpu st (Ok tt)
      (loaded lang model_name (providers_of force_cpu) m
         (if force_cpu
          then Py.add lang (_cpu_only_languages (engine st))
          else Py.discard lang (_cpu_only_languages (engine st))) st)
| load_first_err msg :
    load_model lib (history st) model_name (providers_of force_cpu)
    = Raises msg ->
    force_cpu || negb (_should_retry_with_cpu (Raised msg)) = true ->
    load_run lib lang model_name force_cpu st (Err (Raised msg))
      (record_call (LoadModel model_name (providers_of force_cpu)) st)
| load_retry_ok msg m :
    force_cpu = false ->
    load_model lib (history st) model_name None = Raises msg ->
    _should_retry_with_cpu (Raised msg) = true ->
    load_model lib (history st ++ [LoadModel model_name None]) model_name
      cpu_providers = Returns m ->
    load_run lib lang model_name force_cpu st (Ok tt)
      (loaded lang model_name cpu_providers m
         (Py.add lang (_cpu_only_languages (engine st)))
         (warned WARN_LOAD_RETRY [ArgStr model_name; ArgExc (Raised msg)]
            (record_call (LoadModel model_name None) st)))
| load_retry_err msg msg2 :
    force_cpu = false ->
    load_model lib (history st) model_name None = Raises msg ->
    _should_retry_with_cpu (Raised msg) = true ->
    load_model lib (history st ++ [LoadModel model_name None]) model_name
      cpu_providers = Raises msg2 ->
    load_run lib lang model_name force_cpu st (Err (Raised msg2))
      (record_call (LoadModel model_name cpu_providers)
         (warned WARN_LOAD_RETRY [ArgStr model_name; ArgExc (Raised msg)]
            (record_call (LoadModel model_name None) st))).

(** What every operation keeps of a state: the model names, with a history
    that only grows. *)
Definition grows (st st' : State) : Prop :=
  _russian_model_name (engine st') = _russian_model_name (engine st)
  /\ _english_model_name (engine st') = _english_model_name (engine st)
  /\ exists calls, history st' = history st ++ calls.

(** An evolution of the state that keeps the mark of [lang]: the state
    grows, the invariant is kept, and so is the mark. *)
Definition keeps_mark (lang : str) (st st' : State) : Prop :=
  grows st st'
  /\ (engine_inv (engine st) ->
      engine_inv (engine st')
      /\ (cpu_only st lang = true -> cpu_only st' lang = true)).

(** An evolution of the state that may clear the mark of [lang], by a load
    with the default providers that the library answers with a model. *)
Definition may_clear (lib : Library) (lang : str) (st st' : State) : Prop :=
  grows st st'
  /\ (engine_inv (engine st) ->
      engine_inv (engine st')
      /\ (cpu_only st lang = true ->
          cpu_only st' lang = true
          \/ accelerated_load_succeeded lib (model_name_of (engine st) lang)
               (history st) (history st'))).

(** The states of an engine from its creation on. *)
Inductive reachable (lib : Library) : State -> Prop :=
| reach_init russian_model english_model language calls warnings :
    reachable lib
      {| engine := ASREngine_init russian_model english_model language;
         history := calls; log := warnings |}
| reach_step st op :
    reachable lib st -> reachable lib (run_operation lib op st).

(** ** Vocabulary of the resampling *)

(** [int(len(audio) * (16000 / sample_rate))], in double precision. *)
Definition resample_length (len : nat) (sample_rate : Z) : option Z :=
  Np.int_of_float
    (Np.float_of_int (Z.of_nat len)
     * (Np.float_of_int 16000 / Np.float_of_int sample_rate))%float.

(** The query positions of a resampling, or what stops it before a sample
    is interpolated. *)
Definition resample_plan (len : nat) (sample_rate : Z) : result (list float) :=
  if (sample_rate =? 0)%Z then Err ZeroDivisionError
  else
    match resample_length len sample_rate with
    | None => Err (Raised (Py.lit "cannot convert float to integer"))
    | Some new_length =>
        rbind (Np.linspace (Np.float_of_int 0)
                 (Np.float_of_int (Z.of_nat len - 1)) new_length)
          (fun indices =>
             match len with
             | O => Err (Raised (Py.lit "array of sample points is empty"))
             | S _ => Ok indices
             end)
    end.

(** One channel, interpolated linearly at the query positions and rounded
    to single precision. *)
Definition resample_channel (indices : list float) (channel : list float)
  : list float :=
  List.map Np.float32
    (List.map (Np.interp_one (Np.arange (length channel)) channel) indices).

(** The rows of the resampled array of [ncols] channels. *)
Definition resampled_rows (ncols : nat) (rows : list (list float))
    (indices : list float) : list (list float) :=
  List.map
    (fun i =>
       List.map
         (fun c => nth i (resample_channel indices (Np.column c rows)) zero)
         (seq 0 ncols))
    (seq 0 (length indices)).

(** Rounding of a rational to the nearest integer, halves to the even one:
    Python's [round]. *)
Definition round_half_even (q : Q) : Z :=
  let f := Qfloor q in
  match Qcompare (q - inject_Z f) (1 # 2) with
  | Lt => f
  | Gt => (f + 1)%Z
  | Eq => if Z.even f then f else (f + 1)%Z
  end.

(** [out] holds the channels of [audio], each resampled at the positions
    [indices]. *)
Definition channels_resampled (indices : list float) (audio out : Np.ndarray)
  : Prop :=
  match audio, out with
  | Np.Arr1 data, Np.Arr1 data' => data' = resample_channel indices data
  | Np.Arr2 ncols rows, Np.Arr2 ncols' rows' =>
      ncols' = ncols
      /\ forall c, (c < ncols)%nat ->
           Np.column c rows' = resample_channel indices (Np.column c rows)
  | _, _ => False
  end.

(** A buffer holds at least one channel. *)
Definition has_channels (audio : Np.ndarray) : Prop :=
  match audio with
  | Np.Arr1 _ => True
  | Np.Arr2 ncols _ => (0 < ncols)%nat
  end.

(** Five samples recorded at 48 kHz. *)
Definition five_samples : list float := [0.25; 0.5; 1; 0.5; 0]%float.

(** ** Vocabulary of the transcription *)

(** A computation that neither reads the log nor lets it change what it
    does: run from two states that differ in their logs only, it gives one
    result, ends with one engine and one history, and appends the same
    warnings to both logs. *)
Definition log_frame {A} (m : M A) : Prop :=
  forall s1 s2,
    engine s1 = engine s2 -> history s1 = history s2 ->
    fst (m s1) = fst (m s2)
    /\ engine (snd (m s1)) = engine (snd (m s2))
    /\ history (snd (m s1)) = history (snd (m s2))
    /\ exists added,
         log (snd (m s1)) = log s1 ++ added
         /\ log (snd (m s2)) = log s2 ++ added.

(** The warning for a buffer of more than two channels. *)
Definition channels_warning (ncols : nat) : Warning :=
  {| warning_format := WARN_CHANNELS;
     warning_args := [ArgInt (Z.of_nat ncols)] |}.

(** A buffer cut down to its first two channels. *)
Definition first_two_channels (rows : list (list float)) : Np.ndarray :=
  Np.Arr2 2 (List.map (firstn 2) rows).

(** A segment tagged with a source. *)
Definition tagged (src : str) (segment : Segment) : Segment :=
  {| start := start segment; end_ := end_ segment;
     text := text segment; language := language segment;
     source := Some src |}.

(** The two recognitions of a buffer of two or more channels, and the
    merge of their segments. *)
Definition recognize_stereo (lib : Library) (mic_audio speaker_audio : list float)
    (sample_rate : Z) : M (list Segment) :=
  mic <- recognize lib mic_audio sample_rate None ;;
  let mic_segments := _with_source mic MIC_SOURCE in
  speaker <- recognize lib speaker_audio sample_rate None ;;
  let speaker_segments := _with_source speaker SPEAKER_SOURCE in
  ret (sorted sort_key key_ltb (mic_segments ++ speaker_segments)).

(** What [transcribe] does once the audio is decoded and resampled. *)
Definition transcribe_loaded (lib : Library)
    (language russian_model english_model : str)
    (audio : Np.ndarray) (sample_rate : Z) : M (list Segment * str) :=
  set_engine (ASREngine_init russian_model english_model language) ;;
  initialize lib ;;
  segments <-
    match audio with
    | Np.Arr1 data => recognize lib data sample_rate None
    | Np.Arr2 ncols rows =>
        if Nat.eqb ncols 1
        then recognize lib (Np.column 0 rows) sample_rate None
        else
          (if Nat.ltb 2 ncols
           then logger_warning WARN_CHANNELS [ArgInt (Z.of_nat ncols)]
           else ret tt) ;;
          mic_audio <- lift (Np.take_column 0 audio) ;;
          speaker_audio <- lift (Np.take_column 1 audio) ;;
          recognize_stereo lib mic_audio speaker_audio sample_rate
    end ;;
  ret (segments, Py.join (Py.lit " ") (List.map text segments)).

(** The state in which the engine of a transcription is created. *)
Definition with_fresh_engine (language russian_model english_model : str)
    (st : State) : State :=
  {| engine := ASREngine_init russian_model english_model language;
     history := history st; log := log st |}.

(** ** Vocabulary of the order of the segments *)

(** [k1 <= k2] on keys (start, end, source): the lexicographic order. *)
Definition key_le (k1 k2 : Q * Q * str) : Prop :=
  let '(s1, e1, src1) := k1 in
  let '(s2, e2, src2) := k2 in
  s1 < s2
  \/ (s1 == s2
      /\ (e1 < e2
          \/ (e1 == e2 /\ (Py.ltb src1 src2 = true \/ src1 = src2)))).

(** [k1 < k2] on keys. *)
Definition key_lt (k1 k2 : Q * Q * str) : Prop :=
  let '(s1, e1, src1) := k1 in
  let '(s2, e2, src2) := k2 in
  s1 < s2
  \/ (s1 == s2 /\ (e1 < e2 \/ (e1 == e2 /\ Py.ltb src1 src2 = true))).

(** A segment comes no later than another in the transcript. *)
Definition segment_le (a b : Segment) : Prop :=
  key_le (sort_key a) (sort_key b).

(** A segment of the transcript has text left once trimmed. *)
Definition has_text (seg : Segment) : Prop :=
  Py.strip (text seg) <> [] /\ text seg <> [].

(** The order a sort by [key] puts its elements in: no element is followed
    by one of a smaller key. *)
Definition sorted_le {A K} (key : A -> K) (ltb : K -> K -> bool) (x y : A)
  : Prop :=
  ltb (key y) (key x) = false.

(** A string that does not start with whitespace. *)
Definition clean_head (s : str) : Prop :=
  match s with
  | [] => True
  | c :: _ => Py.isspace c = false
  end.

(** ** States and recordings of the examples *)

Module Example.

(** An initialised engine holding the given models and marks. *)
Definition engine_with (language : str) (models : Py.dict Model)
    (marks : Py.strset) : State :=
  {| engine :=
       {| _russian_model_name := Py.lit "gigaam-v3-rnnt";
          _english_model_name := Py.lit "whisper-base";
          _language := language;
          _vad := Some 0%nat;
          _models := models;
          _cpu_only_languages := marks |};
     history := []; log := [] |}.

Definition ru_model : Model := with_vad 1%nat (Some 0%nat).
Definition en_model : Model := with_vad 2%nat (Some 0%nat).

(** The word of the test suite, U+041F U+0440 U+0438 U+0432 U+0435 U+0442. *)
Definition privet : str := [1055; 1088; 1080; 1074; 1077; 1090]%N.

Definition privet_segment : RawSegment :=
  {| raw_text := Some privet; raw_str := privet;
     raw_start := Some 0; raw_end := Some (6 # 5) |}.

Definition clip : list float := [0; 0.5; 1; 0.5; 0; -0.5]%float.

(** Three frames of two channels, and the same with a third channel. *)
Definition stereo_rows : list (list float) :=
  [[0; 1]; [0.5; -1]; [0.25; 0.5]]%float.

Definition surround_rows : list (list float) :=
  [[0; 1; 0.75]; [0.5; -1; 0.125]; [0.25; 0.5; -0.5]]%float.

(** The recording of the test suite: a segment on each channel, with one
    of blanks that the engine drops. *)
Definition recording (files : Py.dict (Np.ndarray * Z)) : Library :=
  Fixture.scripted [Returns 1%nat; Returns 2%nat]
    [Returns [Fixture.spoken " Mic " 0 1; Fixture.spoken "   " 1 2];
     Returns [Fixture.spoken "Speaker" (1 # 5) (6 # 5)]]
    files.

Definition stereo_file : Py.dict (Np.ndarray * Z) :=
  [(Py.lit "stereo.wav", (Np.Arr2 2 stereo_rows, 16000%Z))].

Definition two_files : Py.dict (Np.ndarray * Z) :=
  [(Py.lit "surround.wav", (Np.Arr2 3 surround_rows, 16000%Z));
   (Py.lit "stereo.wav", (first_two_channels surround_rows, 16000%Z))].

Definition mic_segment : Segment :=
  {| start := 0; end_ := 1; text := Py.lit "Mic";
     language := Py.lit "en"; source := Some MIC_SOURCE |}.

Definition speaker_segment : Segment :=
  {| start := 1 # 5; end_ := 6 # 5; text := Py.lit "Speaker";
     language := Py.lit "en"; source := Some SPEAKER_SOURCE |}.

(** A library whose Russian model fails on CoreML at its first inference. *)
Definition failing_coreml : Library :=
  Fixture.scripted [Returns 1%nat; Returns 9%nat]
    [Raises Fixture.coreml_error; Returns [privet_segment];
     Returns [privet_segment]]
    Fixture.no_file.

(** The same library, which then answers every load with a model. *)
Definition reloading : Library :=
  {| load_vad := load_vad failing_coreml;
     load_model := fun h name providers =>
       match load_model failing_coreml h name providers with
       | Returns m => Returns m
       | Raises _ => Returns 3%nat
       end;
     model_recognize := model_recognize failing_coreml;
     sf_read := sf_read failing_coreml |}.

(** The engine once initialised for Russian and fallen back to the CPU. *)
Definition fallen_back : State :=
  run_operations failing_coreml
    [OpInitialize; OpRecognize clip 16000 None]
    (Fixture.fresh (Py.lit "ru")).

End Example.

(** ** Vocabulary of the models of the engine *)

(** The languages that have a model, in the order of the dictionary. *)
Definition model_languages (st : State) : list str :=
  List.map fst (_models (engine st)).

(** The languages [initialize] loads for a configured language: "ru", then
    "en", each when it is the language or the language is "auto". *)
Definition languages_in_scope (language : str) : list str :=
  (if Py.eqb language (Py.lit "ru") || Py.eqb language (Py.lit "auto")
   then [Py.lit "ru"] else [])
  ++ (if Py.eqb language (Py.lit "en") || Py.eqb language (Py.lit "auto")
      then [Py.lit "en"] else []).

(** The engine holds a detector, and every stored model has one composed
    in. *)
Definition detectors_composed (st : State) : Prop :=
  _vad (engine st) <> None
  /\ forall lang model,
       stored_model st lang = Some model -> model_vad model <> None.

(** The state once the engine holds the detector [vad]. *)
Definition with_detector (vad : VadObject) (st : State) : State :=
  {| engine := with_vad_attr (Some vad) (engine st);
     history := history st; log := log st |}.

(** The state once the engine is set to a language. *)
Definition with_active_language (language : str) (st : State) : State :=
  {| engine := with_language language (engine st);
     history := history st; log := log st |}.

(** ** More scripted libraries *)

Module Scenario.

(** A library whose detector cannot be loaded. *)
Definition no_detector : Library :=
  {| load_vad := fun _ _ => Raises (Py.lit "silero: no such model");
     load_model := fun _ _ _ => Returns 1%nat;
     model_recognize := fun _ _ _ _ => Returns [];
     sf_read := fun _ => Raises (Py.lit "Error opening file") |}.

(** A library that loads every model and recognises the word of the test
    suite in whatever it is given. *)
Definition obliging (files : Py.dict (Np.ndarray * Z)) : Library :=
  {| load_vad := fun _ _ => Returns 0%nat;
     load_model := fun h _ _ => Returns (S (length h));
     model_recognize := fun _ _ _ _ => Returns [Example.privet_segment];
     sf_read := fun path =>
       match Py.get files path with
       | Some decoded => Returns decoded
       | None => Raises (Py.lit "Error opening file")
       end |}.

(** A library that loads the detector and no model. *)
Definition no_models : Library :=
  {| load_vad := fun _ _ => Returns 0%nat;
     load_model := fun _ _ _ => Raises Fixture.unexpected_error;
     model_recognize := fun _ _ _ _ => Returns [];
     sf_read := fun _ => Raises (Py.lit "Error opening file") |}.

(** The fresh engine of the fixtures, once initialised. *)
Definition initialised (lib : Library) (language : str) : State :=
  run_operation lib OpInitialize (Fixture.fresh language).

End Scenario.

(** A segment as [recognize] labels it: the language the request resolved
    to, and no source. *)
Definition labelled (lang : str) (seg : Segment) : Prop :=
  language seg = lang /\ source seg = None.

(** The engine is ready for its configured language: that language is one
    it knows, and every model it needs is stored. *)
Definition ready (st : State) : Prop :=
  languages_in_scope (_language (engine st)) <> []
  /\ forall l, In l (languages_in_scope (_language (engine st))) ->
       Py.has (_models (engine st)) l = true.

(** The labels of the segments of a transcript. *)
Definition in_language (lang : str) (seg : Segment) : Prop :=
  language seg = lang.

Definition untagged (seg : Segment) : Prop := source seg = None.

Definition tagged_by_channel (seg : Segment) : Prop :=
  source seg = Some MIC_SOURCE \/ source seg = Some SPEAKER_SOURCE.

(** The samples of a buffer of one channel. *)
Definition mono_samples (audio : Np.ndarray) : option (list float) :=
  match audio with
  | Np.Arr1 data => Some data
  | Np.Arr2 ncols rows =>
      if Nat.eqb ncols 1 then Some (Np.column 0 rows) else None
  end.

(** The files of the scenarios: one channel at 16 kHz, two channels, and one
    channel recorded at 48 kHz. *)
Module Recordings.

Definition mono_file : Py.dict (Np.ndarray * Z) :=
  [(Py.lit "mono.wav", (Np.Arr1 Example.clip, 16000%Z))].

Definition files : Py.dict (Np.ndarray * Z) :=
  [(Py.lit "mono.wav", (Np.Arr1 Example.clip, 16000%Z));
   (Py.lit "stereo.wav", (Np.Arr2 2 Example.stereo_rows, 16000%Z));
   (Py.lit "empty.wav", (Np.Arr1 [], 48000%Z));
   (Py.lit "silent.wav", (Np.Arr1 [], 16000%Z))].

End Recordings.

(** Two buffers of one shape but for their lengths: both of one dimension,
    or both of two with as many channels. *)
Definition same_channels (a b : Np.ndarray) : Prop :=
  match a, b with
  | Np.Arr1 _, Np.Arr1 _ => True
  | Np.Arr2 ncols _, Np.Arr2 ncols' _ => ncols' = ncols
  | _, _ => False
  end.

(** [needle] occurs in [hay]. *)
Definition occurs_in (needle hay : str) : Prop :=
  exists before after, hay = before ++ needle ++ after.

(** ** Vocabulary of the main loop *)

(** The events of the start and of the end of [main]. *)
Definition ready_event : Protocol.Event :=
  Protocol.StatusEvent (Py.lit "ready") (Py.lit "Engine ready").

Definition exiting_event : Protocol.Event :=
  Protocol.StatusEvent (Py.lit "exiting") (Py.lit "Engine shutting down").

Definition transcribing_event : Protocol.Event :=
  Protocol.TranscribingEvent (Py.lit "Transcribing...").

Definition invalid_command_event (rt : Protocol.Runtime)
    (e : Protocol.CommandError) : Protocol.Event :=
  Protocol.ErrorEvent
    (Py.lit "Invalid command: " ++ Protocol.str_of_error rt e).

Definition transcription_failed_event (e : Exception) : Protocol.Event :=
  Protocol.ErrorEvent (Py.lit "Transcription failed: " ++ str_of_exception e).

(** Every write to the standard output succeeds. *)
Definition writes_succeed (out : Protocol.Stdout) : Prop :=
  forall written event, Protocol.write_line out written event = Returns tt.

(** An event is a status. *)
Definition is_status (event : Protocol.Event) : bool :=
  match event with
  | Protocol.StatusEvent _ _ => true
  | _ => false
  end.

Section Replies.

Variable lib : Library.
Variable rt : Protocol.Runtime.
Variable out : Protocol.Stdout.

(** The replies to a line read after the events [events] in the state
    [st], when the body of the loop returns: the events it has written and
    the state it leaves. *)
Inductive reply (line : str) (events : list Protocol.Event) (st : State)
  : list Protocol.Event -> State -> Prop :=
| reply_blank :
    Py.strip line = [] ->
    reply line events st [] st
| reply_invalid e :
    Py.strip line <> [] ->
    Protocol.parse_command rt (Py.strip line) = inr e ->
    Protocol.write_line out events (invalid_command_event rt e) = Returns tt ->
    reply line events st [invalid_command_event rt e] st
| reply_complete command segments full_text st' :
    Py.strip line <> [] ->
    Protocol.parse_command rt (Py.strip line) = inl command ->
    Protocol.write_line out events transcribing_event = Returns tt ->
    transcribe_command lib rt command st = (Ok (segments, full_text), st') ->
    Protocol.write_line out (events ++ [transcribing_event])
      (Protocol.TranscriptCompleteEvent segments full_text) = Returns tt ->
    reply line events st
      [transcribing_event;
       Protocol.TranscriptCompleteEvent segments full_text] st'
| reply_failed command e st' :
    Py.strip line <> [] ->
    Protocol.parse_command rt (Py.strip line) = inl command ->
    Protocol.write_line out events transcribing_event = Returns tt ->
    transcribe_command lib rt command st = (Err e, st') ->
    Protocol.write_line out (events ++ [transcribing_event])
      (transcription_failed_event e) = Returns tt ->
    reply line events st
      [transcribing_event; transcription_failed_event e] st'
| reply_not_started command message :
    Py.strip line <> [] ->
    Protocol.parse_command rt (Py.strip line) = inl command ->
    Protocol.write_line out events transcribing_event = Raises message ->
    Protocol.write_line out events
      (transcription_failed_event (Raised message)) = Returns tt ->
    reply line events st [transcription_failed_event (Raised message)] st
| reply_not_written command segments full_text st' message :
    Py.strip line <> [] ->
    Protocol.parse_command rt (Py.strip line) = inl command ->
    Protocol.write_line out events transcribing_event = Returns tt ->
    transcribe_command lib rt command st = (Ok (segments, full_text), st') ->
    Protocol.write_line out (events ++ [transcribing_event])
      (Protocol.TranscriptCompleteEvent segments full_text)
    = Raises message ->
    Protocol.write_line out (events ++ [transcribing_event])
      (transcription_failed_event (Raised message)) = Returns tt ->
    reply line events st
      [transcribing_event; transcription_failed_event (Raised message)] st'.

(** The ways the body of the loop raises for a line: the write of an error
    event raises inside a handler.  It leaves the events written for the
    line before that, the state, and the message of the exception. *)
Inductive stopped (line : str) (events : list Protocol.Event) (st : State)
  : list Protocol.Event -> State -> str -> Prop :=
| stopped_invalid e message :
    Py.strip line <> [] ->
    Protocol.parse_command rt (Py.strip line) = inr e ->
    Protocol.write_line out events (invalid_command_event rt e)
    = Raises message ->
    stopped line events st [] st message
| stopped_not_started command message0 message :
    Py.strip line <> [] ->
    Protocol.parse_command rt (Py.strip line) = inl command ->
    Protocol.write_line out events transcribing_event = Raises message0 ->
    Protocol.write_line out events
      (transcription_failed_event (Raised message0)) = Raises message ->
    stopped line events st [] st message
| stopped_failed command e st' message :
    Py.strip line <> [] ->
    Protocol.parse_command rt (Py.strip line) = inl command ->
    Protocol.write_line out events transcribing_event = Returns tt ->
    transcribe_command lib rt command st = (Err e, st') ->
    Protocol.write_line out (events ++ [transcribing_event])
      (transcription_failed_event e) = Raises message ->
    stopped line events st [transcribing_event] st' message
| stopped_not_written command segments full_text st' message0 message :
    Py.strip line <> [] ->
    Protocol.parse_command rt (Py.strip line) = inl command ->
    Protocol.write_line out events transcribing_event = Returns tt ->
    transcribe_command lib rt command st = (Ok (segments, full_text), st') ->
    Protocol.write_line out (events ++ [transcribing_event])
      (Protocol.TranscriptCompleteEvent segments full_text)
    = Raises message0 ->
    Protocol.write_line out (events ++ [transcribing_event])
      (transcription_failed_event (Raised message0)) = Raises message ->
    stopped line events st [transcribing_event] st' message.

(** The replies to the lines of a session, line by line, after the events
    [events]. *)
Inductive session
  : list str -> list Protocol.Event -> State ->
    list (list Protocol.Event) -> State -> Prop :=
| session_end events st : session [] events st [] st
| session_line line lines events st group st1 rest st2 :
    reply line events st group st1 ->
    session lines (events ++ group) st1 rest st2 ->
    session (line :: lines) events st (group :: rest) st2.

(** The ways [main] runs on the lines [stdin], with what it answers, the
    events it has written and the state it leaves. *)
Inductive main_run (stdin : list str) (ending : answer unit) (st : State)
  : answer unit -> list Protocol.Event -> State -> Prop :=
| run_complete groups st' :
    Protocol.write_line out [] ready_event = Returns tt ->
    session stdin [ready_event] st groups st' ->
    ending = Returns tt ->
    Protocol.write_line out ([ready_event] ++ concat groups) exiting_event
    = Returns tt ->
    main_run stdin ending st (Returns tt)
      ([ready_event] ++ concat groups ++ [exiting_event]) st'
| run_not_ready message :
    Protocol.write_line out [] ready_event = Raises message ->
    main_run stdin ending st (Raises message) [] st
| run_stopped served line rest groups st1 partial st2 message :
    stdin = served ++ line :: rest ->
    Protocol.write_line out [] ready_event = Returns tt ->
    session served [ready_event] st groups st1 ->
    stopped line ([ready_event] ++ concat groups) st1 partial st2 message ->
    main_run stdin ending st (Raises message)
      ([ready_event] ++ concat groups ++ partial) st2
| run_read_error groups st' message :
    Protocol.write_line out [] ready_event = Returns tt ->
    session stdin [ready_event] st groups st' ->
    ending = Raises message ->
    main_run stdin ending st (Raises message)
      ([ready_event] ++ concat groups) st'
| run_not_exiting groups st' message :
    Protocol.write_line out [] ready_event = Returns tt ->
    session stdin [ready_event] st groups st' ->
    ending = Returns tt ->
    Protocol.write_line out ([ready_event] ++ concat groups) exiting_event
    = Raises message ->
    main_run stdin ending st (Raises message)
      ([ready_event] ++ concat groups) st'.

End Replies.

(** The payloads that agree on the keys [parse_command] reads. *)
Definition same_command_keys (d d' : list (str * Protocol.Value)) : Prop :=
  forall key,
    In key [Py.lit "type"; Py.lit "audio_path"; Py.lit "language";
            Py.lit "russian_model"; Py.lit "english_model"] ->
    Py.get d key = Py.get d' key.

(** ** The lines of the examples *)

Module Wire.

(** A JSON string literal. *)
Definition quoted (s : string) : str := [34%N] ++ Py.lit s ++ [34%N].

Definition newline : str := [10%N].

(** The command that asks for the transcription of "mono.wav" in Russian. *)
Definition transcribe_mono : str :=
  Py.lit "{" ++ quoted "type" ++ Py.lit ": " ++ quoted "transcribe"
  ++ Py.lit ", " ++ quoted "audio_path" ++ Py.lit ": " ++ quoted "mono.wav"
  ++ Py.lit ", " ++ quoted "language" ++ Py.lit ": " ++ quoted "ru"
  ++ Py.lit "}".

(** A command of a type the engine does not know, and a text that is no
    JSON. *)
Definition stop : str :=
  Py.lit "{" ++ quoted "type" ++ Py.lit ": " ++ quoted "stop" ++ Py.lit "}".

Definition garbage : str := Py.lit "{bad".

Definition decode_error : str :=
  Py.lit "Expecting property name enclosed in double quotes: line 1 column 2 (char 1)".

(** A decoder that knows these three lines. *)
Definition decoder : Protocol.Runtime :=
  {| Protocol.json_loads := fun raw =>
       if Py.eqb raw transcribe_mono
       then Returns
              (Protocol.VDict [(Py.lit "type", Protocol.VStr (Py.lit "transcribe"));
                      (Py.lit "audio_path", Protocol.VStr (Py.lit "mono.wav"));
                      (Py.lit "language", Protocol.VStr (Py.lit "ru"))])
       else if Py.eqb raw stop
       then Returns (Protocol.VDict [(Py.lit "type", Protocol.VStr (Py.lit "stop"))])
       else Raises decode_error;
     Protocol.repr := fun _ => Py.lit "...";
     Protocol.transcribe_untyped := fun _ _ _ _ =>
       raise (Raised (Py.lit "expected str, bytes or os.PathLike object")) |}.

(** The segment of the transcript of "mono.wav". *)
Definition privet_ru : Segment :=
  {| start := 0; end_ := 6 # 5; text := Example.privet;
     language := Py.lit "ru"; source := None |}.

(** A standard output that takes every line. *)
Definition pipe : Protocol.Stdout :=
  {| Protocol.write_line := fun _ _ => Returns tt |}.

(** A command whose type is a lone surrogate, U+D800, and the decoder that
    knows it too. *)
Definition surrogate : str := [55296%N].

Definition surrogate_type : str :=
  Py.lit "{" ++ quoted "type" ++ Py.lit ": " ++ [34%N]
  ++ Py.lit "\ud800" ++ [34%N] ++ Py.lit "}".

Definition surrogate_decoder : Protocol.Runtime :=
  {| Protocol.json_loads := fun raw =>
       if Py.eqb raw surrogate_type
       then Returns
              (Protocol.VDict [(Py.lit "type", Protocol.VStr surrogate)])
       else Protocol.json_loads decoder raw;
     Protocol.repr := Protocol.repr decoder;
     Protocol.transcribe_untyped := Protocol.transcribe_untyped decoder |}.

(** The strings an event holds. *)
Definition event_texts (event : Protocol.Event) : list str :=
  match event with
  | Protocol.StatusEvent state message => [state; message]
  | Protocol.TranscribingEvent message => [message]
  | Protocol.TranscriptCompleteEvent segments full_text =>
      full_text
      :: flat_map
           (fun seg =>
              [text seg; language seg;
               match source seg with Some s => s | None => [] end])
           segments
  | Protocol.ErrorEvent message => [message]
  end.

Definition has_surrogate (s : str) : bool :=
  existsb (fun c => (55296 <=? c) && (c <=? 57343))%N s.

Definition encode_error : str :=
  Py.lit "'utf-8' codec can't encode character: surrogates not allowed".

(** A standard output in UTF-8: the write of a line that holds a lone
    surrogate raises [UnicodeEncodeError]. *)
Definition utf8_stdout : Protocol.Stdout :=
  {| Protocol.write_line := fun _ event =>
       if existsb has_surrogate (event_texts event)
       then Raises encode_error
       else Returns tt |}.

End Wire.

(** A call into the library that, when it is an inference, runs on a model
    with the detector [vad] composed in. *)
Definition inference_with (vad : VadObject) (c : Call) : Prop :=
  match c with
  | Recognize model _ _ => model_vad model = Some vad
  | _ => True
  end.

(* ===================================================================== *)
(** * Properties *)
(* ===================================================================== *)

(** ** Strings, dictionaries and sets *)

Lemma py_eqb_refl (a : str) : Py.eqb a a = true.
Proof.
  induction a as [|c a IH]; simpl; [reflexivity|].
  now rewrite N.eqb_refl, IH.
Qed.

Lemma py_eqb_eq (a b : str) : Py.eqb a b = true <-> a = b.
Proof.
  split; [|intros ->; apply py_eqb_refl].
  revert b; induction a as [|c a IH]; intros [|d b]; simpl; try discriminate; auto.
  intros H. apply andb_true_iff in H as [H1 H2].
  apply N.eqb_eq in H1. apply IH in H2. congruence.
Qed.

Lemma py_eqb_neq (a b : str) : Py.eqb a b = false <-> a <> b.
Proof.
  rewrite <- py_eqb_eq. destruct (Py.eqb a b); split; congruence.
Qed.

Lemma py_get_set_same V (d : Py.dict V) k v : Py.get (Py.set d k v) k = Some v.
Proof.
  induction d as [|[k' v'] d IH]; simpl.
  - now rewrite py_eqb_refl.
  - destruct (Py.eqb k k') eqn:E; simpl; rewrite E; auto.
Qed.

Lemma py_get_set_other V (d : Py.dict V) k k' v :
  k' <> k -> Py.get (Py.set d k v) k' = Py.get d k'.
Proof.
  intros Hne. induction d as [|[k0 v0] d IH]; simpl.
  - apply py_eqb_neq in Hne. now rewrite Hne.
  - destruct (Py.eqb k k0) eqn:E; simpl.
    + apply py_eqb_eq in E; subst k0.
      apply py_eqb_neq in Hne. now rewrite Hne.
    + now rewrite IH.
Qed.

Lemma py_mem_app k s1 s2 : Py.mem k (s1 ++ s2) = Py.mem k s1 || Py.mem k s2.
Proof.
  induction s1 as [|x s1 IH]; simpl; [reflexivity|].
  now rewrite IH, orb_assoc.
Qed.

Lemma py_mem_add_same k s : Py.mem k (Py.add k s) = true.
Proof.
  unfold Py.add. destruct (Py.mem k s) eqn:E; [exact E|].
  rewrite py_mem_app. simpl. now rewrite py_eqb_refl, orb_true_r.
Qed.

Lemma py_mem_discard_same k s : Py.mem k (Py.discard k s) = false.
Proof.
  induction s as [|x s IH]; simpl; [reflexivity|].
  destruct (Py.eqb k x) eqn:E; [exact IH|]. simpl. now rewrite E.
Qed.

Lemma py_mem_discard_other k k' s :
  k <> k' -> Py.mem k (Py.discard k' s) = Py.mem k s.
Proof.
  intros Hne. induction s as [|x s IH]; simpl; [reflexivity|].
  destruct (Py.eqb k' x) eqn:E; simpl.
  - apply py_eqb_eq in E; subst x.
    apply py_eqb_neq in Hne. now rewrite Hne.
  - now rewrite IH.
Qed.

(** ** C1: loading a model, with the CPU-only retry *)

Section LoadModel.

Variable lib : Library.

(** C1. A load with [force_cpu = false] whose first attempt raises the
    external-data-path signature makes exactly one more attempt, with the
    CPU-only providers: when it succeeds the language is marked CPU-only
    and the model is stored, when it fails its error propagates.  When the
    first error does not match the signature, or [force_cpu] is already
    true, the error propagates unchanged and no other attempt is made. *)
Theorem load_model_cpu_fallback (st : State) (lang model_name : str) :
  (forall msg1,
      load_model lib (history st) model_name None = Raises msg1 ->
      _should_retry_with_cpu (Raised msg1) = true ->
      let h1 := history st ++ [LoadModel model_name None] in
      (forall m,
          load_model lib h1 model_name cpu_providers = Returns m ->
          exists st',
            _load_model lib lang model_name false st = (Ok tt, st')
            /\ history st' = h1 ++ [LoadModel model_name cpu_providers]
            /\ cpu_only st' lang = true
            /\ stored_model st' lang = Some (with_vad m (_vad (engine st))))
      /\ (forall msg2,
          load_model lib h1 model_name cpu_providers = Raises msg2 ->
          exists st',
            _load_model lib lang model_name false st = (Err (Raised msg2), st')
            /\ history st' = h1 ++ [LoadModel model_name cpu_providers]
            /\ engine st' = engine st))
  /\ (forall msg1,
      load_model lib (history st) model_name None = Raises msg1 ->
      _should_retry_with_cpu (Raised msg1) = false ->
      _load_model lib lang model_name false st
      = (Err (Raised msg1), record_call (LoadModel model_name None) st))
  /\ (forall msg1,
      load_model lib (history st) model_name cpu_providers = Raises msg1 ->
      _load_model lib lang model_name true st
      = (Err (Raised msg1),
         record_call (LoadModel model_name cpu_providers) st)).
Proof.
  split; [|split].
  - intros msg1 H1 Hsig h1. split.
    + intros m H2. eexists. split; [|split; [|split]].
      * unfold _load_model, bind, try_except_else, onnx_asr_load_model.
        rewrite H1. cbn [outcome]. rewrite Hsig. simpl.
        unfold bind, logger_warning, onnx_asr_load_model. simpl.
        fold h1. unfold cpu_providers in H2. rewrite H2. reflexivity.
      * reflexivity.
      * unfold cpu_only. simpl. apply py_mem_add_same.
      * unfold stored_model. simpl. apply py_get_set_same.
    + intros msg2 H2. eexists. split; [|split].
      * unfold _load_model, bind, try_except_else, onnx_asr_load_model.
        rewrite H1. cbn [outcome]. rewrite Hsig. simpl.
        unfold bind, logger_warning, onnx_asr_load_model. simpl.
        fold h1. unfold cpu_providers in H2. rewrite H2. reflexivity.
      * reflexivity.
      * reflexivity.
  - intros msg1 H1 Hsig.
    unfold _load_model, bind, try_except_else, onnx_asr_load_model.
    rewrite H1. cbn [outcome]. rewrite Hsig. reflexivity.
  - intros msg1 H1.
    unfold _load_model, bind, try_except_else, onnx_asr_load_model.
    unfold cpu_providers in H1. rewrite H1. reflexivity.
Qed.

End LoadModel.

(** The forced load of the test suite: one call, with the CPU-only
    providers, and the language is marked. *)
Example load_model_forced :
  let run :=
    _load_model (Fixture.scripted [Returns 7%nat] [] Fixture.no_file)
      (Py.lit "ru") (Py.lit "gigaam-v3-rnnt") true
      (Fixture.fresh (Py.lit "ru")) in
  fst run = Ok tt
  /\ history (snd run) = [LoadModel (Py.lit "gigaam-v3-rnnt") cpu_providers]
  /\ cpu_only (snd run) (Py.lit "ru") = true
  /\ stored_model (snd run) (Py.lit "ru") = Some (with_vad 7%nat None).
Proof. cbv zeta. repeat split. Qed.

(** The retry on the error of the test suite, and an error outside the
    signature. *)
Lemma load_model_cpu_fallback_witness :
  (exists st',
      _load_model
        (Fixture.scripted
           [Raises Fixture.external_data_error; Returns 7%nat] []
           Fixture.no_file)
        (Py.lit "en") (Py.lit "nemo-parakeet-tdt-0.6b-v3") false
        (Fixture.fresh (Py.lit "en")) = (Ok tt, st')
      /\ history st'
         = [] ++ [LoadModel (Py.lit "nemo-parakeet-tdt-0.6b-v3") None]
              ++ [LoadModel (Py.lit "nemo-parakeet-tdt-0.6b-v3") cpu_providers]
      /\ cpu_only st' (Py.lit "en") = true
      /\ stored_model st' (Py.lit "en") = Some (with_vad 7%nat None))
  /\ _load_model
       (Fixture.scripted [Raises Fixture.unexpected_error; Returns 7%nat] []
          Fixture.no_file)
       (Py.lit "en") (Py.lit "whisper-base") false (Fixture.fresh (Py.lit "en"))
     = (Err (Raised Fixture.unexpected_error),
        record_call (LoadModel (Py.lit "whisper-base") None)
          (Fixture.fresh (Py.lit "en"))).
Proof.
  split.
  - exact (proj1 (proj1 (load_model_cpu_fallback
             (Fixture.scripted
                [Raises Fixture.external_data_error; Returns 7%nat] []
                Fixture.no_file)
             (Fixture.fresh (Py.lit "en")) (Py.lit "en")
             (Py.lit "nemo-parakeet-tdt-0.6b-v3"))
           Fixture.external_data_error eq_refl eq_refl) 7%nat eq_refl).
  - exact (proj1 (proj2 (load_model_cpu_fallback
             (Fixture.scripted
                [Raises Fixture.unexpected_error; Returns 7%nat] []
                Fixture.no_file)
             (Fixture.fresh (Py.lit "en")) (Py.lit "en")
             (Py.lit "whisper-base")))
           Fixture.unexpected_error eq_refl eq_refl).
Defined.

(** ** Running the operations of the engine *)

Section EngineFacts.

Variable lib : Library.

Lemma fold_left_segments lang (raw : list RawSegment) (acc : list Segment) :
  fold_left
    (fun segments seg =>
       let text := segment_text seg in
       match Py.strip text with
       | [] => segments
       | _ :: _ =>
           segments ++
           [{| start := getattr_or_zero (raw_start seg);
               end_ := getattr_or_zero (raw_end seg);
               text := Py.strip text;
               language := lang;
               source := None |}]
       end)
    raw acc
  = acc ++ segments_of lang raw.
Proof.
  revert acc. induction raw as [|seg raw IH]; intros acc; simpl.
  - now rewrite app_nil_r.
  - rewrite IH. unfold segments_of. simpl. unfold kept.
    destruct (Py.strip (segment_text seg)) eqn:E; simpl.
    + reflexivity.
    + rewrite <- app_assoc. simpl. unfold to_segment. now rewrite E.
Qed.

(** One inference: the model is called once, and what it yields is
    normalised. *)
Lemma run_recognition_eq model audio sample_rate lang st :
  _run_recognition lib model audio sample_rate lang st
  = (rmap (segments_of lang)
       (outcome (model_recognize lib (history st) model audio sample_rate)),
     record_call (Recognize model audio sample_rate) st).
Proof.
  unfold _run_recognition, bind, call_recognize.
  destruct (model_recognize lib (history st) model audio sample_rate); simpl.
  - unfold ret. now rewrite fold_left_segments.
  - reflexivity.
Qed.

Lemma fold_left_text (raw : list RawSegment) (acc : str) :
  fold_left (fun text seg => text ++ segment_text seg) raw acc
  = acc ++ concat (List.map segment_text raw).
Proof.
  revert acc. induction raw as [|seg raw IH]; intros acc; simpl.
  - now rewrite app_nil_r.
  - now rewrite IH, app_assoc.
Qed.

(** One step of the detection never raises: the model is called once, and
    it takes the lead when its score is strictly greater. *)
Lemma detect_step_eq sample sample_rate lang model best_lang best_len st :
  detect_step lib sample sample_rate (lang, model) (best_lang, best_len) st
  = (Ok (let score := model_score lib (history st) model sample sample_rate in
         if Nat.ltb best_len score then (lang, score)
         else (best_lang, best_len)),
     record_call (Recognize model sample sample_rate) st).
Proof.
  unfold detect_step, try_except, bind, call_recognize, model_score.
  destruct (model_recognize lib (history st) model sample sample_rate); simpl.
  - rewrite fold_left_text. simpl.
    destruct (Nat.ltb best_len _); reflexivity.
  - destruct best_len; reflexivity.
Qed.

End EngineFacts.

(** ** C6: the language detection *)

Section Detection.

Variable lib : Library.

Lemma record_calls_nil st : record_calls [] st = st.
Proof. destruct st; unfold record_calls; simpl. now rewrite app_nil_r. Qed.

Lemma record_calls_cons c cs st :
  record_calls cs (record_call c st) = record_calls (c :: cs) st.
Proof.
  unfold record_calls, record_call; simpl. now rewrite <- app_assoc.
Qed.

(** The loop calls every model once, in order, and never raises. *)
Lemma for_each_detect sample sample_rate items best st :
  for_each items (detect_step lib sample sample_rate) best st
  = (Ok (detect_fold lib (history st) items sample sample_rate best),
     record_calls (detection_calls items sample sample_rate) st).
Proof.
  revert best st. induction items as [|[lang model] items IH]; intros [bl bn] st.
  - simpl. unfold ret. now rewrite record_calls_nil.
  - cbn [for_each]. unfold bind. rewrite detect_step_eq. rewrite IH.
    cbn [history record_call snd]. now rewrite record_calls_cons.
Qed.

Lemma detection_calls_app a b sample sample_rate :
  detection_calls (a ++ b) sample sample_rate
  = detection_calls a sample sample_rate ++ detection_calls b sample sample_rate.
Proof. unfold detection_calls. apply map_app. Qed.

Lemma leads_weaken score items k best :
  leads score items k best ->
  score k = 0%nat \/ (0 < snd best /\ score k <= snd best)%nat ->
  leads score items (S k) best.
Proof.
  intros [[Hn [He Hz]]|[i [m [Hi [Hnth [Hs [Hp [Hmax Hfirst]]]]]]]] Hk.
  - destruct Hk as [Hk|[Hk _]]; [|lia].
    left. repeat split; auto. intros j Hj.
    destruct (Nat.eq_dec j k) as [->|]; [exact Hk|apply Hz; lia].
  - right. exists i, m. repeat split; auto.
    intros j Hj. destruct (Nat.eq_dec j k) as [->|]; [|apply Hmax; lia].
    destruct Hk as [Hk|[_ Hk]]; lia.
Qed.

Lemma leads_take score items k lang model best :
  leads score items k best ->
  nth_error items k = Some (lang, model) ->
  (snd best < score k)%nat ->
  leads score items (S k) (lang, score k).
Proof.
  intros Hl Hnth Hlt. right. exists k, model. simpl.
  repeat split; auto; try lia.
  - intros j Hj. destruct (Nat.eq_dec j k) as [->|]; [lia|].
    destruct Hl as [[Hn [_ Hz]]|[i [m [_ [_ [_ [_ [Hmax _]]]]]]]].
    + rewrite Hz; lia.
    + specialize (Hmax j). lia.
  - intros j Hj.
    destruct Hl as [[Hn [_ Hz]]|[i [m [_ [_ [_ [_ [Hmax _]]]]]]]].
    + rewrite Hz; lia.
    + specialize (Hmax j). lia.
Qed.

(** The leader after the whole loop leads all the loaded models. *)
Lemma detect_fold_leads h0 sample sample_rate items :
  forall suf pre best,
    items = pre ++ suf ->
    leads (detection_score lib h0 items sample sample_rate) items
      (length pre) best ->
    leads (detection_score lib h0 items sample sample_rate) items
      (length items)
      (detect_fold lib (h0 ++ detection_calls pre sample sample_rate) suf
         sample sample_rate best).
Proof.
  induction suf as [|[lang model] suf IH]; intros pre best Hitems Hl.
  - simpl. rewrite app_nil_r in Hitems. now subst pre.
  - simpl.
    assert (Hnth : nth_error items (length pre) = Some (lang, model)).
    { subst items. rewrite nth_error_app2 by lia.
      now rewrite Nat.sub_diag. }
    assert (Hscore :
      model_score lib (h0 ++ detection_calls pre sample sample_rate) model
        sample sample_rate
      = detection_score lib h0 items sample sample_rate (length pre)).
    { unfold detection_score. rewrite Hnth. subst items.
      rewrite firstn_app, Nat.sub_diag, firstn_all. simpl.
      now rewrite app_nil_r. }
    rewrite Hscore.
    assert (Hcalls :
      (h0 ++ detection_calls pre sample sample_rate)
        ++ [Recognize model sample sample_rate]
      = h0 ++ detection_calls (pre ++ [(lang, model)]) sample sample_rate).
    { rewrite detection_calls_app, app_assoc. reflexivity. }
    rewrite Hcalls.
    assert (Hlen : length (pre ++ [(lang, model)]) = S (length pre)).
    { rewrite length_app. simpl. lia. }
    apply IH.
    + subst items. now rewrite <- app_assoc.
    + rewrite Hlen.
      destruct (Nat.ltb (snd best) _) eqn:E.
      * apply Nat.ltb_lt in E. eapply leads_take; eauto.
      * apply Nat.ltb_ge in E. apply leads_weaken; [exact Hl|].
        destruct (detection_score lib h0 items sample sample_rate (length pre))
          eqn:Es; [now left|right; lia].
Qed.

Lemma nth_error_has V (items : Py.dict V) i k v :
  nth_error items i = Some (k, v) -> Py.has items k = true.
Proof.
  revert i. induction items as [|[k' v'] items IH]; intros [|i]; simpl;
    try discriminate.
  - intros [= -> ->]. unfold Py.has. simpl. now rewrite py_eqb_refl.
  - intros H. apply IH in H. unfold Py.has in *. simpl.
    destruct (Py.eqb k k'); [reflexivity|exact H].
Qed.

Lemma slice_to_firstn A (l : list A) (k : Z) :
  (0 <= k)%Z -> Py.slice_to l k = firstn (Z.to_nat k) l.
Proof.
  intros Hk. unfold Py.slice_to.
  destruct (k <? 0)%Z eqn:E; [apply Z.ltb_lt in E; lia|reflexivity].
Qed.

(** The detection as a whole, whatever the sample rate. *)
Lemma detect_language_eq audio sample_rate st :
  _detect_language lib audio sample_rate st
  = (Ok (fst (detect_fold lib (history st) (_models (engine st))
                (detection_sample audio sample_rate) sample_rate
                (Py.lit "en", 0%nat))),
     record_calls
       (detection_calls (_models (engine st))
          (detection_sample audio sample_rate) sample_rate) st).
Proof.
  unfold _detect_language, bind, get_engine. rewrite for_each_detect.
  reflexivity.
Qed.

(** C6. The detection takes the first min(length, 5 seconds) samples of the
    buffer, calls every loaded model once on that sample, in the order of
    the dictionary, and never raises (what a model raises is swallowed).
    It returns the first language, in that order, whose trimmed recognised
    text is the longest; when no model recognises any text, it returns the
    fallback "en".  A language returned for its text has a loaded model. *)
Theorem detect_language_longest_text (st : State) (audio : list float)
    (sample_rate : Z) :
  (0 <= sample_rate)%Z ->
  let items := _models (engine st) in
  let sample :=
    firstn (Z.to_nat (Z.min (Z.of_nat (length audio)) (sample_rate * 5)))
      audio in
  let score := detection_score lib (history st) items sample sample_rate in
  exists best,
    _detect_language lib audio sample_rate st
    = (Ok best, record_calls (detection_calls items sample sample_rate) st)
    /\ ((best = Py.lit "en" /\ forall i, score i = 0%nat)
        \/ (exists i model,
              nth_error items i = Some (best, model)
              /\ Py.has items best = true
              /\ (0 < score i)%nat
              /\ (forall j, (score j <= score i)%nat)
              /\ (forall j, (j < i)%nat -> (score j < score i)%nat))).
Proof.
  intros Hsr items sample score.
  rewrite detect_language_eq.
  assert (Hsample : detection_sample audio sample_rate = sample).
  { unfold detection_sample. apply slice_to_firstn. lia. }
  rewrite Hsample. fold items.
  eexists. split; [reflexivity|].
  assert (Hout : forall i, (length items <= i)%nat -> score i = 0%nat).
  { intros i Hi. unfold score, detection_score.
    now rewrite (proj2 (nth_error_None items i) Hi). }
  pose proof (@detect_fold_leads (history st) sample sample_rate items
                items [] (Py.lit "en", 0%nat) eq_refl) as Hl.
  simpl in Hl. rewrite app_nil_r in Hl. fold score in Hl.
  destruct Hl as [[Hn [He Hz]]|[i [m [Hi [Hnth [Hs [Hp [Hmax Hfirst]]]]]]]].
  - left. repeat split; try reflexivity. intros i Hi. lia.
  - left. split; [exact He|]. intros i.
    destruct (Nat.lt_ge_cases i (length items)); auto.
  - right. exists i, m. rewrite Hs. repeat split; auto.
    + eapply nth_error_has; eauto.
    + intros j. destruct (Nat.lt_ge_cases j (length items)) as [Hj|Hj].
      * now apply Hmax.
      * rewrite (Hout j Hj). lia.
Qed.

End Detection.

(** Two models that recognise texts of one length: the first of the
    dictionary is detected. *)
Example detect_language_tie :
  fst (_detect_language
         (Fixture.scripted []
            [Returns [Fixture.spoken "hallo" 0 1];
             Returns [Fixture.spoken "hello" 0 1]] Fixture.no_file)
         Example.clip 16000
         (Example.engine_with (Py.lit "auto")
            [(Py.lit "ru", Example.ru_model); (Py.lit "en", Example.en_model)]
            []))
  = Ok (Py.lit "ru").
Proof. reflexivity. Qed.

(** Two loaded models on a clip: the Russian model yields nothing, the
    English one a word, and English is detected. *)
Lemma detect_language_longest_text_witness :
  exists best,
    _detect_language
      (Fixture.scripted []
         [Returns []; Returns [Fixture.spoken "hello" 0 1]] Fixture.no_file)
      Example.clip 16000
      (Example.engine_with (Py.lit "auto")
         [(Py.lit "ru", Example.ru_model); (Py.lit "en", Example.en_model)] [])
    = (Ok best,
       record_calls
         [Recognize Example.ru_model Example.clip 16000;
          Recognize Example.en_model Example.clip 16000]
         (Example.engine_with (Py.lit "auto")
            [(Py.lit "ru", Example.ru_model); (Py.lit "en", Example.en_model)]
            []))
    /\ best = Py.lit "en".
Proof.
  destruct (detect_language_longest_text
              (Fixture.scripted []
                 [Returns []; Returns [Fixture.spoken "hello" 0 1]]
                 Fixture.no_file)
              (Example.engine_with (Py.lit "auto")
                 [(Py.lit "ru", Example.ru_model);
                  (Py.lit "en", Example.en_model)] [])
              Example.clip 16000 ltac:(lia)) as [best [Hrun _]].
  exists best. split; [exact Hrun|].
  vm_compute in Hrun. now injection Hrun as <-.
Defined.

(** ** C2: recognition, with the CPU-only retry *)

Section Recognize.

Variable lib : Library.

(** A load that succeeds at its first attempt. *)
Lemma load_model_ok lang model_name (force_cpu : bool) m st :
  load_model lib (history st) model_name
    (if force_cpu then cpu_providers else None) = Returns m ->
  _load_model lib lang model_name force_cpu st
  = (Ok tt,
     loaded lang model_name (if force_cpu then cpu_providers else None) m
       (if force_cpu
        then Py.add lang (_cpu_only_languages (engine st))
        else Py.discard lang (_cpu_only_languages (engine st))) st).
Proof.
  intros H. unfold _load_model, bind, try_except_else, onnx_asr_load_model.
  destruct force_cpu; unfold cpu_providers in H; rewrite H; reflexivity.
Qed.

(** A forced load that fails. *)
Lemma load_model_forced_err lang model_name msg st :
  load_model lib (history st) model_name cpu_providers = Raises msg ->
  _load_model lib lang model_name true st
  = (Err (Raised msg), record_call (LoadModel model_name cpu_providers) st).
Proof.
  intros H. unfold _load_model, bind, try_except_else, onnx_asr_load_model.
  unfold cpu_providers in H. rewrite H. reflexivity.
Qed.

Lemma model_name_for_language_supported lang st :
  supported lang ->
  _model_name_for_language lang st = (Ok (model_name_of (engine st) lang), st).
Proof.
  intros [-> | ->]; reflexivity.
Qed.

(** The resolution of the language never raises, and [recognize] goes on
    from the state it leaves. *)
Lemma recognize_resolved audio sample_rate language st lang st1 :
  resolve_language lib audio sample_rate language st = (lang, st1) ->
  recognize lib audio sample_rate language st
  = match stored_model st1 lang with
    | None => (Err (NoModelLoaded lang), st1)
    | Some model =>
        try_except (_run_recognition lib model audio sample_rate lang)
          (recognize_except lib audio sample_rate lang) st1
    end.
Proof.
  unfold resolve_language, recognize, bind, get_engine, stored_model.
  destruct (Py.eqb (Py.or_else language (_language (engine st))) (Py.lit "auto")).
  - rewrite detect_language_eq. intros [= <- <-].
    destruct (Py.get _ _); reflexivity.
  - intros [= <- <-]. unfold ret.
    destruct (Py.get _ _); reflexivity.
Qed.

(** C2. A [recognize] call whose language resolves to a supported language
    with a stored model calls that model once.  When the inference raises
    the accelerated-runtime signature and the language is not marked
    CPU-only, the model is loaded once more, with the CPU-only providers,
    and the inference is run once more on the reloaded model: its segments
    are returned and its failure propagates, as does a failure of the
    reload.  When the language is already marked CPU-only, or the error
    does not match the signature, the error propagates at once: no load and
    no other inference follow. *)
Theorem recognize_cpu_fallback (st : State) (audio : list float)
    (sample_rate : Z) (language : option str) (lang : str) (st1 : State)
    (model : Model) (msg : str) :
  resolve_language lib audio sample_rate language st = (lang, st1) ->
  supported lang ->
  stored_model st1 lang = Some model ->
  model_recognize lib (history st1) model audio sample_rate = Raises msg ->
  let name := model_name_of (engine st1) lang in
  let h1 := history st1 ++ [Recognize model audio sample_rate] in
  let h2 := h1 ++ [LoadModel name cpu_providers] in
  (_is_coreml_runtime_failure (Raised msg) = true ->
   cpu_only st1 lang = false ->
   (forall m,
       load_model lib h1 name cpu_providers = Returns m ->
       let model' := with_vad m (_vad (engine st1)) in
       exists st',
         recognize lib audio sample_rate language st
         = (rmap (segments_of lang)
              (outcome (model_recognize lib h2 model' audio sample_rate)), st')
         /\ history st' = h2 ++ [Recognize model' audio sample_rate]
         /\ cpu_only st' lang = true
         /\ stored_model st' lang = Some model')
   /\ (forall msg2,
       load_model lib h1 name cpu_providers = Raises msg2 ->
       exists st',
         recognize lib audio sample_rate language st = (Err (Raised msg2), st')
         /\ history st' = h2
         /\ engine st' = engine st1))
  /\ (cpu_only st1 lang = true
      \/ _is_coreml_runtime_failure (Raised msg) = false ->
      recognize lib audio sample_rate language st
      = (Err (Raised msg),
         record_call (Recognize model audio sample_rate) st1)).
Proof.
  intros Hres Hsup Hmodel Herr name h1 h2.
  rewrite (recognize_resolved _ _ _ _ _ _ Hres), Hmodel.
  unfold try_except. rewrite run_recognition_eq, Herr.
  cbn [rmap outcome].
  split.
  - intros Hsig Hcpu. unfold cpu_only in Hcpu. split.
    + intros m Hload.
      eexists. split; [|split; [|split]].
      * unfold recognize_except at 1, bind at 1, get_engine at 1.
        cbn [engine record_call]. rewrite Hcpu, Hsig. cbn [orb negb].
        unfold bind at 1. rewrite model_name_for_language_supported by exact Hsup.
        cbn [engine record_call]. fold name.
        unfold bind at 1, logger_warning at 1.
        unfold bind at 1.
        rewrite (@load_model_ok lang name true m) by exact Hload.
        unfold bind at 1, get_engine at 1.
        cbn [engine loaded _models with_models].
        rewrite py_get_set_same.
        rewrite run_recognition_eq. reflexivity.
      * cbn. unfold h2, h1. reflexivity.
      * unfold cpu_only. cbn. apply py_mem_add_same.
      * unfold stored_model. cbn. apply py_get_set_same.
    + intros msg2 Hload.
      eexists. split; [|split].
      * unfold recognize_except at 1, bind at 1, get_engine at 1.
        cbn [engine record_call]. rewrite Hcpu, Hsig. cbn [orb negb].
        unfold bind at 1. rewrite model_name_for_language_supported by exact Hsup.
        cbn [engine record_call]. fold name.
        unfold bind at 1, logger_warning at 1.
        unfold bind at 1.
        rewrite (@load_model_forced_err lang name msg2) by exact Hload.
        reflexivity.
      * reflexivity.
      * reflexivity.
  - intros Hno. unfold recognize_except, bind, get_engine.
    cbn [engine record_call]. unfold cpu_only in Hno.
    destruct Hno as [-> | ->]; [reflexivity|].
    now rewrite orb_true_r.
Qed.

End Recognize.

(** The scenario of the test suite: the first inference raises the CoreML
    failure, the model is reloaded for the CPU, and the second inference
    answers. *)
Lemma recognize_cpu_fallback_witness :
  exists st',
    recognize
      (Fixture.scripted [Returns 9%nat]
         [Raises Fixture.coreml_error; Returns [Example.privet_segment]]
         Fixture.no_file)
      Example.clip 16000 (Some (Py.lit "ru"))
      (Example.engine_with (Py.lit "ru") [(Py.lit "ru", Example.ru_model)] [])
    = (Ok [{| start := 0; end_ := 6 # 5; text := Example.privet;
              language := Py.lit "ru"; source := None |}], st')
    /\ history st'
       = [Recognize Example.ru_model Example.clip 16000;
          LoadModel (Py.lit "gigaam-v3-rnnt") cpu_providers;
          Recognize (with_vad 9%nat (Some 0%nat)) Example.clip 16000]
    /\ cpu_only st' (Py.lit "ru") = true
    /\ stored_model st' (Py.lit "ru") = Some (with_vad 9%nat (Some 0%nat)).
Proof.
  exact (proj1 (proj1
           (recognize_cpu_fallback
              (Fixture.scripted [Returns 9%nat]
                 [Raises Fixture.coreml_error;
                  Returns [Example.privet_segment]]
                 Fixture.no_file)
              (Example.engine_with (Py.lit "ru")
                 [(Py.lit "ru", Example.ru_model)] [])
              Example.clip 16000 (Some (Py.lit "ru")) (Py.lit "ru")
              (Example.engine_with (Py.lit "ru")
                 [(Py.lit "ru", Example.ru_model)] [])
              Example.ru_model Fixture.coreml_error
              eq_refl (or_introl eq_refl) eq_refl eq_refl)
           eq_refl eq_refl) 9%nat eq_refl).
Defined.

(** ** C7: the error for a language without a model *)

(** Case analysis on the answer of the library to a forced load. *)
Ltac split_forced_load :=
  match goal with
  | |- context [_load_model ?lib ?l ?n true ?s] =>
      let El := fresh "Eload" in
      destruct (load_model lib (history s) n cpu_providers) eqn:El;
      [rewrite (@load_model_ok lib l n true _ s El)
      |rewrite (@load_model_forced_err lib l n _ s El)]
  end.

Ltac split_forced_load_in H :=
  match type of H with
  | context [_load_model ?lib ?l ?n true ?s] =>
      let El := fresh "Eload" in
      destruct (load_model lib (history s) n cpu_providers) eqn:El;
      [rewrite (@load_model_ok lib l n true _ s El) in H
      |rewrite (@load_model_forced_err lib l n _ s El) in H]
  end.

Section NoModel.

Variable lib : Library.

(** Whatever the [except] clause of [recognize] raises came from the
    libraries, or is the refusal of a language the engine has no model name
    for. *)
Lemma recognize_except_errors audio sample_rate lang msg st e st' :
  recognize_except lib audio sample_rate lang (Raised msg) st = (Err e, st') ->
  from_library e \/ e = UnknownLanguage lang.
Proof.
  unfold recognize_except, bind at 1, get_engine at 1.
  destruct (Py.mem lang (_cpu_only_languages (engine st))
            || negb (_is_coreml_runtime_failure (Raised msg))).
  - intros [= <- _]. left. now exists msg.
  - unfold bind at 1, _model_name_for_language, bind at 1, get_engine at 1.
    destruct (Py.eqb lang (Py.lit "ru")) eqn:Eru;
      [|destruct (Py.eqb lang (Py.lit "en")) eqn:Een].
    3: { intros [= <- _]. now right. }
    all: unfold ret at 1; unfold bind at 1, logger_warning at 1;
      unfold bind at 1;
      split_forced_load;
      try (intros [= <- _]; left; now eexists);
      unfold bind at 1, get_engine at 1;
      cbn [engine loaded _models with_models];
      rewrite py_get_set_same, run_recognition_eq;
      match goal with
      | |- context [outcome ?a] => destruct a
      end; cbn [rmap outcome];
      intros [= <- _]; left; now eexists.
Qed.

(** With a stored model for the resolved language, [recognize] raises
    nothing but what the libraries raised or the refusal of an unsupported
    language. *)
Lemma recognize_errors audio sample_rate language st lang st1 model e st' :
  resolve_language lib audio sample_rate language st = (lang, st1) ->
  stored_model st1 lang = Some model ->
  recognize lib audio sample_rate language st = (Err e, st') ->
  from_library e \/ e = UnknownLanguage lang.
Proof.
  intros Hres Hmodel. rewrite (recognize_resolved _ _ _ _ _ _ _ Hres), Hmodel.
  unfold try_except. rewrite run_recognition_eq.
  destruct (model_recognize lib (history st1) model audio sample_rate)
    as [raw|msg]; cbn [rmap outcome].
  - discriminate.
  - apply recognize_except_errors.
Qed.

(** A successful load stores the model for the language, with the detector
    the engine holds composed in. *)
Lemma load_model_stores lang model_name force_cpu st st' :
  _load_model lib lang model_name force_cpu st = (Ok tt, st') ->
  exists m,
    stored_model st' lang = Some (with_vad m (_vad (engine st)))
    /\ _vad (engine st') = _vad (engine st)
    /\ _language (engine st') = _language (engine st).
Proof.
  unfold _load_model, bind at 1, try_except_else, onnx_asr_load_model at 1.
  destruct (load_model lib (history st) model_name
              (if force_cpu then Some [CPUExecutionProvider] else None))
    as [m|msg1] eqn:E1; cbn [outcome].
  - destruct force_cpu; intros [= <-]; exists m; unfold stored_model; cbn;
      rewrite py_get_set_same; auto.
  - destruct (force_cpu || negb (_should_retry_with_cpu (Raised msg1))).
    + discriminate.
    + unfold bind at 1, logger_warning at 1.
      unfold bind at 1, onnx_asr_load_model.
      cbn [history record_call].
      destruct (load_model lib _ model_name (Some [CPUExecutionProvider]))
        as [m|msg2]; cbn [outcome].
      * intros [= <-]. exists m. unfold stored_model. cbn.
        rewrite py_get_set_same; auto.
      * discriminate.
Qed.

Lemma resolve_language_pinned audio sample_rate (lang : str) st :
  lang <> [] -> lang <> Py.lit "auto" ->
  resolve_language lib audio sample_rate (Some lang) st = (lang, st).
Proof.
  intros Hne Hauto. unfold resolve_language.
  destruct lang as [|c lang]; [congruence|]. cbn [Py.or_else].
  apply py_eqb_neq in Hauto. now rewrite Hauto.
Qed.

Lemma supported_pinned (lang : str) :
  supported lang -> lang <> [] /\ lang <> Py.lit "auto".
Proof. intros [-> | ->]; split; discriminate. Qed.

(** On an engine that holds a detector, a recognition for a supported
    language whose stored model has that detector composed in runs every
    inference on a model composed with it, and raises nothing but what the
    libraries raise. *)
Lemma recognize_composed audio sample_rate (lang : str) vad m st r st'' :
  supported lang ->
  _vad (engine st) = Some vad ->
  stored_model st lang = Some (with_vad m (Some vad)) ->
  recognize lib audio sample_rate (Some lang) st = (r, st'') ->
  (exists calls,
      history st'' = history st ++ calls
      /\ calls <> []
      /\ Forall (inference_with vad) calls)
  /\ (forall e, r = Err e -> from_library e).
Proof.
  intros Hsup Hvad Hm.
  destruct (supported_pinned _ Hsup) as [Hne Hauto].
  pose proof (resolve_language_pinned audio sample_rate _ st Hne Hauto) as Hres.
  rewrite (recognize_resolved _ _ _ _ _ _ _ Hres), Hm.
  unfold try_except. rewrite run_recognition_eq.
  destruct (model_recognize lib (history st) _ audio sample_rate)
    as [raw|msg]; cbn [rmap outcome].
  { intros [= <- <-]. split; [|discriminate].
    eexists. split; [reflexivity|]. split; [discriminate|].
    repeat constructor. }
  unfold recognize_except, bind at 1, get_engine at 1.
  destruct (Py.mem lang _ || negb _).
  { intros [= <- <-]. split; [|intros e [= <-]; now eexists].
    eexists. split; [reflexivity|]. split; [discriminate|].
    repeat constructor. }
  unfold bind at 1.
  rewrite model_name_for_language_supported by exact Hsup.
  unfold bind at 1, logger_warning at 1.
  unfold bind at 1.
  split_forced_load.
  2: { intros [= <- <-]. split; [|intros e [= <-]; now eexists].
       cbn [record_call history]. rewrite <- app_assoc.
       eexists. split; [reflexivity|]. split; [discriminate|].
       repeat constructor. }
  unfold bind at 1, get_engine at 1.
  cbn [engine loaded _models with_models with_cpu_only _vad record_call].
  rewrite py_get_set_same, run_recognition_eq, Hvad.
  cbn [record_call loaded history engine log].
  intros [= <- <-]. split.
  - cbn [record_call loaded history]. rewrite <- !app_assoc.
    eexists. split; [reflexivity|]. split; [discriminate|].
    repeat constructor.
  - match goal with
    | |- context [outcome ?a] => destruct a
    end; cbn [rmap outcome]; [discriminate|].
    intros e [= <-]. now eexists.
Qed.

(** C7, as the code has it.  [recognize] raises the "no model loaded" error
    exactly when the language it resolved has no stored model: then it
    raises it at once, with no inference on any other model, and it raises
    it in no other case.  A successful load stores the model composed with
    whatever detector the engine holds.  On an engine that holds a detector,
    as after [initialize], the model of a supported language is stored with
    that detector composed in, and a [recognize] for that language right
    after calls the library, runs every inference on a model composed with
    the detector, and raises only what the libraries raise.  On an engine
    that holds none yet, the model is stored with no detector composed
    in. *)
Theorem recognize_no_model_iff (st : State) (audio : list float)
    (sample_rate : Z) (language : option str) :
  (forall lang st1,
      resolve_language lib audio sample_rate language st = (lang, st1) ->
      (stored_model st1 lang = None ->
       recognize lib audio sample_rate language st
       = (Err (NoModelLoaded lang), st1))
      /\ (forall l st',
          recognize lib audio sample_rate language st
          = (Err (NoModelLoaded l), st') ->
          stored_model st1 lang = None /\ l = lang))
  /\ (forall lang model_name force_cpu vad st',
      supported lang ->
      _vad (engine st) = Some vad ->
      _load_model lib lang model_name force_cpu st = (Ok tt, st') ->
      (exists m, stored_model st' lang = Some (with_vad m (Some vad)))
      /\ (forall r st'',
          recognize lib audio sample_rate (Some lang) st' = (r, st'') ->
          (exists calls,
              history st'' = history st' ++ calls
              /\ calls <> []
              /\ Forall (inference_with vad) calls)
          /\ (forall e, r = Err e -> from_library e)))
  /\ (forall lang model_name force_cpu st',
      _vad (engine st) = None ->
      _load_model lib lang model_name force_cpu st = (Ok tt, st') ->
      exists m, stored_model st' lang = Some (with_vad m None)).
Proof.
  split; [|split].
  - intros lang st1 Hres. split.
    + intros Hnone. now rewrite (recognize_resolved _ _ _ _ _ _ _ Hres), Hnone.
    + intros l st' Hrec.
      destruct (stored_model st1 lang) as [model|] eqn:Hmodel.
      * destruct (recognize_errors _ _ _ _ _ _ _ _ _ Hres Hmodel Hrec) as [[msg H]|H];
          discriminate.
      * rewrite (recognize_resolved _ _ _ _ _ _ _ Hres), Hmodel in Hrec.
        injection Hrec as <- _. auto.
  - intros lang model_name force_cpu vad st' Hsup Hvad Hload.
    destruct (load_model_stores _ _ _ _ _ Hload) as [m [Hm [Hv _]]].
    rewrite Hvad in Hm, Hv.
    split; [now exists m|].
    intros r st'' Hrec.
    exact (recognize_composed _ _ _ _ _ _ _ _ Hsup Hv Hm Hrec).
  - intros lang model_name force_cpu st' Hvad Hload.
    destruct (load_model_stores _ _ _ _ _ Hload) as [m [Hm _]].
    rewrite Hvad in Hm. now exists m.
Qed.

End NoModel.

(** A successful load on an engine that was never initialised: the model is
    stored with no detector composed in.  The engine is one that
    [set_language] leaves when it is called before [initialize]. *)
Lemma load_before_initialize_composes_no_detector :
  _load_model (Scenario.obliging []) (Py.lit "en") (Py.lit "whisper-base") false
    (Fixture.fresh (Py.lit "en"))
  = (Ok tt,
     run_operation (Scenario.obliging []) (OpSetLanguage (Py.lit "en"))
       (Fixture.fresh (Py.lit "en")))
  /\ stored_model
       (run_operation (Scenario.obliging []) (OpSetLanguage (Py.lit "en"))
          (Fixture.fresh (Py.lit "en")))
       (Py.lit "en")
     = Some (with_vad 1%nat None)
  /\ model_vad (with_vad 1%nat None) = None
  /\ reachable (Scenario.obliging [])
       (run_operation (Scenario.obliging []) (OpSetLanguage (Py.lit "en"))
          (Fixture.fresh (Py.lit "en"))).
Proof.
  repeat split.
  apply (reach_step (Scenario.obliging []) _ (OpSetLanguage (Py.lit "en"))
           (reach_init (Scenario.obliging []) (Py.lit "gigaam-v3-rnnt")
              (Py.lit "whisper-base") (Py.lit "en") [] [])).
Qed.

(** An engine initialised for Russian only, asked for English: the error;
    and the same engine once the English model is loaded: the model is
    stored with the detector of the engine, and the recognition runs on
    it. *)
Lemma recognize_no_model_iff_witness :
  recognize (Scenario.obliging []) Example.clip 16000 (Some (Py.lit "en"))
    (Example.engine_with (Py.lit "ru") [(Py.lit "ru", Example.ru_model)] [])
  = (Err (NoModelLoaded (Py.lit "en")),
     Example.engine_with (Py.lit "ru") [(Py.lit "ru", Example.ru_model)] [])
  /\ (exists m,
        stored_model
          (snd (_load_model (Scenario.obliging []) (Py.lit "en")
                  (Py.lit "whisper-base") false
                  (Example.engine_with (Py.lit "ru")
                     [(Py.lit "ru", Example.ru_model)] [])))
          (Py.lit "en")
        = Some (with_vad m (Some 0%nat)))
  /\ exists calls,
       history
         (snd (recognize (Scenario.obliging []) Example.clip 16000
                 (Some (Py.lit "en"))
                 (snd (_load_model (Scenario.obliging []) (Py.lit "en")
                         (Py.lit "whisper-base") false
                         (Example.engine_with (Py.lit "ru")
                            [(Py.lit "ru", Example.ru_model)] [])))))
       = history
           (snd (_load_model (Scenario.obliging []) (Py.lit "en")
                   (Py.lit "whisper-base") false
                   (Example.engine_with (Py.lit "ru")
                      [(Py.lit "ru", Example.ru_model)] [])))
         ++ calls
       /\ calls <> []
       /\ Forall (inference_with 0%nat) calls.
Proof.
  destruct (recognize_no_model_iff (Scenario.obliging [])
              (Example.engine_with (Py.lit "ru")
                 [(Py.lit "ru", Example.ru_model)] [])
              Example.clip 16000 (Some (Py.lit "en"))) as [Hnone [Hload _]].
  split; [|].
  - exact (proj1 (Hnone (Py.lit "en") _ eq_refl) eq_refl).
  - destruct (Hload (Py.lit "en") (Py.lit "whisper-base") false 0%nat
                (snd (_load_model (Scenario.obliging []) (Py.lit "en")
                        (Py.lit "whisper-base") false
                        (Example.engine_with (Py.lit "ru")
                           [(Py.lit "ru", Example.ru_model)] [])))
                (or_intror eq_refl) eq_refl eq_refl) as [Hm Hrec].
    split; [exact Hm|].
    exact (proj1 (Hrec _ _ eq_refl)).
Defined.

(** ** C10: the fallback of the detection *)

Section Fallback.

Variable lib : Library.

(** When no loaded model recognises any text, the detection answers "en". *)
Lemma detect_fold_nothing h0 items sample sample_rate :
  (forall i, detection_score lib h0 items sample sample_rate i = 0%nat) ->
  fst (detect_fold lib h0 items sample sample_rate (Py.lit "en", 0%nat))
  = Py.lit "en".
Proof.
  intros Hz.
  pose proof (detect_fold_leads lib h0 sample sample_rate items
                items [] (Py.lit "en", 0%nat) eq_refl) as Hl.
  simpl in Hl. rewrite app_nil_r in Hl.
  destruct Hl as [[_ [He _]]|[i [m [_ [_ [Hs [Hp _]]]]]]].
  - left. repeat split; try reflexivity. intros i Hi. lia.
  - exact He.
  - rewrite Hz in Hs. lia.
Qed.

(** C10. The fallback of the detection is the constant "en", whatever is
    loaded: when the request resolves to "auto" and no loaded model
    recognises any text on the sample (each one raises, or yields text that
    is empty once trimmed), [recognize] raises the "no model loaded" error
    for "en" as soon as no English model is stored. *)
Theorem recognize_auto_falls_back_to_en (st : State) (audio : list float)
    (sample_rate : Z) (language : option str) :
  Py.or_else language (_language (engine st)) = Py.lit "auto" ->
  (forall i,
      detection_score lib (history st) (_models (engine st))
        (detection_sample audio sample_rate) sample_rate i = 0%nat) ->
  stored_model st (Py.lit "en") = None ->
  recognize lib audio sample_rate language st
  = (Err (NoModelLoaded (Py.lit "en")),
     record_calls
       (detection_calls (_models (engine st))
          (detection_sample audio sample_rate) sample_rate) st).
Proof.
  intros Hauto Hz Hen.
  assert (Hres :
    resolve_language lib audio sample_rate language st
    = (Py.lit "en",
       record_calls
         (detection_calls (_models (engine st))
            (detection_sample audio sample_rate) sample_rate) st)).
  { unfold resolve_language. rewrite Hauto. cbn [Py.eqb Py.lit].
    rewrite py_eqb_refl, detect_language_eq.
    now rewrite detect_fold_nothing. }
  rewrite (recognize_resolved _ _ _ _ _ _ _ Hres).
  unfold stored_model in *. cbn [engine record_calls]. now rewrite Hen.
Qed.

End Fallback.

(** An engine initialised for Russian only, asked to detect the language
    of a clip on which its model recognises nothing. *)
Lemma recognize_auto_falls_back_to_en_witness :
  recognize (Fixture.scripted [] [Returns []] Fixture.no_file)
    Example.clip 16000 (Some (Py.lit "auto"))
    (Example.engine_with (Py.lit "ru") [(Py.lit "ru", Example.ru_model)] [])
  = (Err (NoModelLoaded (Py.lit "en")),
     record_calls [Recognize Example.ru_model Example.clip 16000]
       (Example.engine_with (Py.lit "ru")
          [(Py.lit "ru", Example.ru_model)] [])).
Proof.
  apply (recognize_auto_falls_back_to_en
           (Fixture.scripted [] [Returns []] Fixture.no_file)
           (Example.engine_with (Py.lit "ru")
              [(Py.lit "ru", Example.ru_model)] [])
           Example.clip 16000 (Some (Py.lit "auto"))).
  - reflexivity.
  - intros [|[|i]]; reflexivity.
  - reflexivity.
Defined.

(** ** C8: the CPU-only mark over the life of the engine *)

Section Lifecycle.

Variable lib : Library.

(** Every run of [_load_model] is one of the four. *)
Lemma load_model_run lang model_name force_cpu st r st' :
  _load_model lib lang model_name force_cpu st = (r, st') ->
  load_run lib lang model_name force_cpu st r st'.
Proof.
  unfold _load_model, bind at 1, try_except_else, onnx_asr_load_model at 1.
  destruct (load_model lib (history st) model_name
              (if force_cpu then Some [CPUExecutionProvider] else None))
    as [m|msg] eqn:E1; cbn [outcome].
  - destruct force_cpu; intros [= <- <-];
      [exact (load_first_ok lib lang model_name true st m E1)
      |exact (load_first_ok lib lang model_name false st m E1)].
  - destruct (force_cpu || negb (_should_retry_with_cpu (Raised msg))) eqn:Eg.
    + destruct force_cpu; intros [= <- <-];
        [exact (load_first_err lib lang model_name true st msg E1 Eg)
        |exact (load_first_err lib lang model_name false st msg E1 Eg)].
    + apply orb_false_iff in Eg as [Ef Es]. subst force_cpu.
      apply negb_false_iff in Es.
      unfold bind at 1, logger_warning at 1.
      unfold bind at 1, onnx_asr_load_model. cbn [history record_call].
      destruct (load_model lib (history st ++ [LoadModel model_name None])
                  model_name (Some [CPUExecutionProvider])) as [m|msg2] eqn:E2;
        cbn [outcome]; intros [= <- <-].
      * exact (load_retry_ok lib lang model_name false st msg m
                 eq_refl E1 Es E2).
      * exact (load_retry_err lib lang model_name false st msg msg2
                 eq_refl E1 Es E2).
Qed.

Lemma py_has_set V (d : Py.dict V) k v l :
  Py.has (Py.set d k v) l = Py.eqb l k || Py.has d l.
Proof.
  unfold Py.has. destruct (Py.eqb l k) eqn:E.
  - apply py_eqb_eq in E; subst l. now rewrite py_get_set_same.
  - apply py_eqb_neq in E. now rewrite py_get_set_other.
Qed.

Lemma py_mem_add_iff k k' s : Py.mem k (Py.add k' s) = Py.eqb k k' || Py.mem k s.
Proof.
  unfold Py.add. destruct (Py.mem k' s) eqn:E.
  - destruct (Py.eqb k k') eqn:Ek; [|reflexivity].
    apply py_eqb_eq in Ek; subst k'. now rewrite E.
  - rewrite py_mem_app. simpl. rewrite orb_false_r. apply orb_comm.
Qed.

Lemma py_mem_discard k k' s :
  Py.mem k (Py.discard k' s) = negb (Py.eqb k k') && Py.mem k s.
Proof.
  destruct (Py.eqb k k') eqn:E.
  - apply py_eqb_eq in E; subst k'. apply py_mem_discard_same.
  - apply py_eqb_neq in E. now rewrite py_mem_discard_other.
Qed.

Lemma grows_refl st : grows st st.
Proof. repeat split. exists []. now rewrite app_nil_r. Qed.

Lemma grows_trans st1 st2 st3 : grows st1 st2 -> grows st2 st3 -> grows st1 st3.
Proof.
  intros [R1 [E1 [c1 H1]]] [R2 [E2 [c2 H2]]]. repeat split; try congruence.
  exists (c1 ++ c2). now rewrite H2, H1, app_assoc.
Qed.

(** What a run of [_load_model] does to the engine. *)
Lemma load_run_facts lang model_name force_cpu st r st' :
  load_run lib lang model_name force_cpu st r st' ->
  grows st st'
  /\ _language (engine st') = _language (engine st)
  /\ (forall l, l <> lang -> cpu_only st' l = cpu_only st l)
  /\ (forall l, Py.has (_models (engine st)) l = true ->
                Py.has (_models (engine st')) l = true)
  /\ (supported lang -> engine_inv (engine st) -> engine_inv (engine st'))
  /\ (cpu_only st lang = true ->
      cpu_only st' lang = true
      \/ (force_cpu = false
          /\ accelerated_load_succeeded lib model_name
               (history st) (history st'))).
Proof.
  intros Hrun.
  assert (Hinv_set : forall m marks st0,
    engine st0 = engine st ->
    (forall l, Py.mem l marks = true ->
               Py.eqb l lang = true
               \/ Py.mem l (_cpu_only_languages (engine st)) = true) ->
    supported lang -> engine_inv (engine st) ->
    engine_inv (engine (loaded lang model_name
                          (providers_of force_cpu) m marks st0))
    /\ engine_inv (engine (loaded lang model_name cpu_providers m marks st0))).
  { intros m marks st0 He Hmarks Hsup [Hkeys Hsub].
    assert (H : engine_inv
      (with_models
         (Py.set (_models (engine st0)) lang (with_vad m (_vad (engine st0))))
         (with_cpu_only marks (engine st0)))).
    { rewrite He. split; cbn.
      - intros l. rewrite py_has_set. intros Hl.
        apply orb_true_iff in Hl as [Hl|Hl]; [|now apply Hkeys].
        apply py_eqb_eq in Hl. now subst l.
      - intros l Hl. rewrite py_has_set.
        destruct (Hmarks l Hl) as [->|Hm]; [reflexivity|].
        rewrite (Hsub l Hm). apply orb_true_r. }
    split; exact H. }
  inversion Hrun; subst; clear Hrun;
    (split; [|split; [|split; [|split; [|split]]]]).
  (* the first attempt answers *)
  - repeat split. eexists; reflexivity.
  - reflexivity.
  - intros l Hl. unfold cpu_only. cbn.
    apply py_eqb_neq in Hl.
    destruct force_cpu;
      [rewrite py_mem_add_iff|rewrite py_mem_discard]; now rewrite Hl.
  - intros l Hl. cbn. rewrite py_has_set, Hl. apply orb_true_r.
  - intros Hsup Hinv.
    apply (Hinv_set m _ st eq_refl); auto.
    intros l. destruct force_cpu.
    + rewrite py_mem_add_iff. intros Hl.
      apply orb_true_iff in Hl. exact Hl.
    + rewrite py_mem_discard. intros Hl.
      apply andb_true_iff in Hl. now right.
  - intros Hmark. destruct force_cpu.
    + left. unfold cpu_only. cbn. apply py_mem_add_same.
    + right. split; [reflexivity|]. exists [], [], m.
      rewrite app_nil_r. split; [reflexivity|assumption].
  (* the first attempt raises, and no other follows *)
  - repeat split. eexists; reflexivity.
  - reflexivity.
  - reflexivity.
  - auto.
  - auto.
  - auto.
  (* the retry answers *)
  - repeat split. eexists. cbn. rewrite <- app_assoc. reflexivity.
  - reflexivity.
  - intros l Hl. unfold cpu_only. cbn.
    apply py_eqb_neq in Hl. now rewrite py_mem_add_iff, Hl.
  - intros l Hl. cbn. rewrite py_has_set, Hl. apply orb_true_r.
  - intros Hsup Hinv.
    apply (Hinv_set m _ (warned WARN_LOAD_RETRY
                           [ArgStr model_name; ArgExc (Raised msg)]
                           (record_call (LoadModel model_name None) st))
             eq_refl); auto.
    intros l. rewrite py_mem_add_iff. intros Hl.
    apply orb_true_iff in Hl. exact Hl.
  - intros _. left. unfold cpu_only. cbn. apply py_mem_add_same.
  (* the retry raises *)
  - repeat split. eexists. cbn. rewrite <- app_assoc. reflexivity.
  - reflexivity.
  - reflexivity.
  - auto.
  - auto.
  - auto.
Qed.

Lemma load_model_facts lang model_name force_cpu st r st' :
  _load_model lib lang model_name force_cpu st = (r, st') ->
  grows st st'
  /\ _language (engine st') = _language (engine st)
  /\ (forall l, l <> lang -> cpu_only st' l = cpu_only st l)
  /\ (forall l, Py.has (_models (engine st)) l = true ->
                Py.has (_models (engine st')) l = true)
  /\ (supported lang -> engine_inv (engine st) -> engine_inv (engine st'))
  /\ (cpu_only st lang = true ->
      cpu_only st' lang = true
      \/ (force_cpu = false
          /\ accelerated_load_succeeded lib model_name
               (history st) (history st'))).
Proof.
  intros H. eapply load_run_facts, load_model_run, H.
Qed.

Lemma keeps_mark_refl l st : keeps_mark l st st.
Proof. split; [apply grows_refl|auto]. Qed.

Lemma keeps_mark_trans l st1 st2 st3 :
  keeps_mark l st1 st2 -> keeps_mark l st2 st3 -> keeps_mark l st1 st3.
Proof.
  intros [G1 K1] [G2 K2]. split; [eapply grows_trans; eauto|].
  intros Hinv. destruct (K1 Hinv) as [Hinv2 M1].
  destruct (K2 Hinv2) as [Hinv3 M2]. auto.
Qed.

(** Recording a call or a warning changes nothing of the engine. *)
Lemma keeps_mark_call l c st : keeps_mark l st (record_call c st).
Proof.
  split; [|auto]. repeat split. now exists [c].
Qed.

Lemma keeps_mark_warned l f a st : keeps_mark l st (warned f a st).
Proof.
  split; [|auto]. repeat split. exists []. cbn. now rewrite app_nil_r.
Qed.

(** A forced load keeps every mark. *)
Lemma load_model_forced_keeps l lang model_name st r st' :
  supported lang ->
  _load_model lib lang model_name true st = (r, st') ->
  keeps_mark l st st'.
Proof.
  intros Hsup H.
  destruct (load_model_facts _ _ _ _ _ _ H)
    as [Hg [_ [Hother [_ [Hinv Hmark]]]]].
  split; [exact Hg|]. intros Hi. split; [auto|].
  intros Hl. destruct (Py.eqb l lang) eqn:E.
  - apply py_eqb_eq in E; subst l.
    destruct (Hmark Hl) as [?|[? _]]; [assumption|discriminate].
  - apply py_eqb_neq in E. now rewrite Hother.
Qed.

(** A load of a language that has no model yet keeps every mark. *)
Lemma load_model_new_keeps l lang model_name force_cpu st r st' :
  supported lang ->
  Py.has (_models (engine st)) lang = false ->
  _load_model lib lang model_name force_cpu st = (r, st') ->
  keeps_mark l st st'.
Proof.
  intros Hsup Hnew H.
  destruct (load_model_facts _ _ _ _ _ _ H)
    as [Hg [_ [Hother [_ [Hinv _]]]]].
  split; [exact Hg|]. intros Hi. split; [auto|].
  intros Hl. destruct (Py.eqb l lang) eqn:E.
  - apply py_eqb_eq in E; subst l. exfalso.
    destruct Hi as [_ Hsub]. unfold cpu_only in Hl.
    rewrite (Hsub _ Hl) in Hnew. discriminate.
  - apply py_eqb_neq in E. now rewrite Hother.
Qed.

Lemma recognize_except_keeps l audio sample_rate lang msg st :
  keeps_mark l st
    (snd (recognize_except lib audio sample_rate lang (Raised msg) st)).
Proof.
  unfold recognize_except, bind at 1, get_engine at 1.
  destruct (Py.mem lang _ || negb _); [apply keeps_mark_refl|].
  unfold bind at 1, _model_name_for_language, bind at 1, get_engine at 1.
  assert (Hgo : forall name, supported lang ->
    keeps_mark l st
      (snd
         ((logger_warning WARN_INFERENCE_RETRY [ArgStr name; ArgExc (Raised msg)] ;;
           _load_model lib lang name true ;;
           self <- get_engine ;;
           match Py.get (_models self) lang with
           | Some model' => _run_recognition lib model' audio sample_rate lang
           | None => raise (KeyError lang)
           end) st))).
  { intros name Hsup. unfold bind at 1, logger_warning at 1.
    unfold bind at 1.
    match goal with
    | |- context [_load_model lib lang name true ?s] =>
        eapply keeps_mark_trans; [apply (keeps_mark_warned l WARN_INFERENCE_RETRY
                                           [ArgStr name; ArgExc (Raised msg)] st)|];
        destruct (_load_model lib lang name true s) as [r s'] eqn:El
    end.
    pose proof (load_model_forced_keeps l _ _ _ _ _ Hsup El) as Hk.
    destruct r; [|exact Hk].
    eapply keeps_mark_trans; [exact Hk|].
    unfold bind at 1, get_engine at 1.
    destruct (Py.get _ lang); [|apply keeps_mark_refl].
    rewrite run_recognition_eq. apply keeps_mark_call. }
  destruct (Py.eqb lang (Py.lit "ru")) eqn:Eru;
    [|destruct (Py.eqb lang (Py.lit "en")) eqn:Een].
  - apply Hgo. left. now apply py_eqb_eq.
  - apply Hgo. right. now apply py_eqb_eq.
  - apply keeps_mark_refl.
Qed.

Lemma resolve_language_keeps l audio sample_rate language st lang st1 :
  resolve_language lib audio sample_rate language st = (lang, st1) ->
  keeps_mark l st st1.
Proof.
  unfold resolve_language. destruct (Py.eqb _ _).
  - rewrite detect_language_eq. intros [= <- <-].
    split; [|auto]. repeat split. eexists; reflexivity.
  - intros [= <- <-]. apply keeps_mark_refl.
Qed.

(** [recognize] keeps every mark. *)
Lemma recognize_keeps l audio sample_rate language st :
  keeps_mark l st (snd (recognize lib audio sample_rate language st)).
Proof.
  destruct (resolve_language lib audio sample_rate language st)
    as [lang st1] eqn:Hres.
  rewrite (recognize_resolved _ _ _ _ _ _ _ Hres).
  eapply keeps_mark_trans; [eapply resolve_language_keeps; eauto|].
  destruct (stored_model st1 lang) as [model|]; [|apply keeps_mark_refl].
  unfold try_except. rewrite run_recognition_eq.
  destruct (model_recognize lib (history st1) model audio sample_rate)
    as [raw|msg]; cbn [rmap outcome].
  - apply keeps_mark_call.
  - eapply keeps_mark_trans; [apply keeps_mark_call|].
    apply recognize_except_keeps.
Qed.

Lemma keeps_mark_language l language st :
  keeps_mark l st
    {| engine := with_language language (engine st);
       history := history st; log := log st |}.
Proof.
  split; [|auto]. repeat split. exists []. cbn. now rewrite app_nil_r.
Qed.

(** [set_language] keeps every mark: it loads no language that has a
    model. *)
Lemma set_language_keeps l language st :
  keeps_mark l st (snd (set_language lib language st)).
Proof.
  unfold set_language, bind at 1, modify_engine, bind at 1, get_engine at 1,
    set_engine.
  eapply keeps_mark_trans; [apply (keeps_mark_language l language st)|].
  set (s := {| engine := with_language language (engine st);
               history := history st; log := log st |}).
  unfold bind at 1, get_engine at 1.
  assert (Hru : supported (Py.lit "ru")) by now left.
  assert (Hen : supported (Py.lit "en")) by now right.
  assert (Hload : forall lang name s0,
    supported lang ->
    keeps_mark l s0
      (snd ((if negb (Py.has (_models (engine s0)) lang)
             then _load_model lib lang name false
             else ret tt) s0))).
  { intros lang name s0 Hsup.
    destruct (Py.has (_models (engine s0)) lang) eqn:Eh; cbn [negb].
    - apply keeps_mark_refl.
    - destruct (_load_model lib lang name false s0) as [r s'] eqn:El.
      apply (load_model_new_keeps l _ _ _ _ _ _ Hsup Eh El). }
  destruct (Py.eqb language (Py.lit "ru")
            && negb (Py.has (_models (engine s)) (Py.lit "ru"))) eqn:E1.
  { apply andb_true_iff in E1 as [_ E1]. apply negb_true_iff in E1.
    destruct (_load_model lib (Py.lit "ru") _ false s) as [r s'] eqn:El.
    apply (load_model_new_keeps l _ _ _ _ _ _ Hru E1 El). }
  destruct (Py.eqb language (Py.lit "en")
            && negb (Py.has (_models (engine s)) (Py.lit "en"))) eqn:E2.
  { apply andb_true_iff in E2 as [_ E2]. apply negb_true_iff in E2.
    destruct (_load_model lib (Py.lit "en") _ false s) as [r s'] eqn:El.
    apply (load_model_new_keeps l _ _ _ _ _ _ Hen E2 El). }
  destruct (Py.eqb language (Py.lit "auto")); [|apply keeps_mark_refl].
  unfold bind at 1.
  pose proof (Hload (Py.lit "ru") (_russian_model_name (engine s)) s Hru) as K1.
  destruct ((if negb (Py.has (_models (engine s)) (Py.lit "ru"))
             then _load_model lib (Py.lit "ru") (_russian_model_name (engine s)) false
             else ret tt) s) as [r1 s1].
  cbn [snd] in K1. destruct r1; [|exact K1].
  eapply keeps_mark_trans; [exact K1|].
  unfold bind at 1, get_engine at 1.
  apply Hload. exact Hen.
Qed.

Lemma accelerated_load_within name h0 a h h' :
  h = h0 ++ a ->
  accelerated_load_succeeded lib name h h' ->
  forall b, accelerated_load_succeeded lib name h0 (h' ++ b).
Proof.
  intros -> [pre [post [m [-> Hm]]]] b.
  exists (a ++ pre), (post ++ b), m. split.
  - now rewrite <- !app_assoc.
  - now rewrite app_assoc.
Qed.

Lemma model_name_of_grows st st' l :
  grows st st' -> model_name_of (engine st') l = model_name_of (engine st) l.
Proof.
  intros [Hr [He _]]. unfold model_name_of. now rewrite Hr, He.
Qed.

Lemma may_clear_refl l st : may_clear lib l st st.
Proof. split; [apply grows_refl|auto]. Qed.

Lemma may_clear_trans l st1 st2 st3 :
  may_clear lib l st1 st2 -> may_clear lib l st2 st3 -> may_clear lib l st1 st3.
Proof.
  intros [G1 K1] [G2 K2]. split; [eapply grows_trans; eauto|].
  intros Hinv. destruct (K1 Hinv) as [Hinv2 M1].
  destruct (K2 Hinv2) as [Hinv3 M2]. split; [exact Hinv3|].
  intros Hl.
  pose proof (model_name_of_grows st1 st2 l G1) as Hname.
  destruct G1 as [_ [_ [c1 Hc1]]]. destruct G2 as [_ [_ [c2 Hc2]]].
  destruct (M1 Hl) as [Hl2|Hacc].
  - destruct (M2 Hl2) as [Hl3|Hacc]; [now left|right].
    rewrite Hname in Hacc.
    pose proof (accelerated_load_within _ _ _ _ _ Hc1 Hacc []) as H.
    now rewrite app_nil_r in H.
  - right. rewrite Hc2.
    eapply accelerated_load_within; [|exact Hacc].
    now rewrite app_nil_r.
Qed.

Lemma keeps_mark_may_clear l st st' :
  keeps_mark l st st' -> may_clear lib l st st'.
Proof.
  intros [G K]. split; [exact G|].
  intros Hinv. destruct (K Hinv) as [Hinv' M]. split; auto.
Qed.

(** A load with the default providers clears the mark of its language only
    when its first attempt is answered with a model. *)
Lemma load_model_default_may_clear l lang st r st' :
  supported lang ->
  _load_model lib lang (model_name_of (engine st) lang) false st = (r, st') ->
  may_clear lib l st st'.
Proof.
  intros Hsup H.
  destruct (load_model_facts _ _ _ _ _ _ H)
    as [Hg [_ [Hother [_ [Hinv Hmark]]]]].
  split; [exact Hg|]. intros Hi. split; [auto|].
  intros Hl. destruct (Py.eqb l lang) eqn:E.
  - apply py_eqb_eq in E; subst l.
    destruct (Hmark Hl) as [?|[_ ?]]; [now left|now right].
  - apply py_eqb_neq in E. left. now rewrite Hother.
Qed.

(** [initialize] loads its languages with the default providers. *)
Lemma initialize_may_clear l st :
  may_clear lib l st (snd (initialize lib st)).
Proof.
  unfold initialize, bind at 1, onnx_asr_load_vad.
  destruct (load_vad lib (history st) (Py.lit "silero")) as [vad|msg];
    cbn [outcome].
  2: { apply keeps_mark_may_clear, keeps_mark_call. }
  unfold bind at 1, modify_engine, bind at 1, get_engine at 1, set_engine.
  cbn [engine record_call history log].
  set (s := {| engine := with_vad_attr (Some vad) (engine st);
               history := history st ++ [LoadVad (Py.lit "silero")];
               log := log st |}).
  assert (Hs : may_clear lib l st s).
  { apply keeps_mark_may_clear. split; [|auto]. repeat split.
    now exists [LoadVad (Py.lit "silero")]. }
  eapply may_clear_trans; [exact Hs|].
  unfold bind at 1, get_engine at 1.
  assert (Hload : forall (cond : bool) lang (acc : list str) s0,
    supported lang ->
    may_clear lib l s0
      (snd ((if cond
             then _load_model lib lang (model_name_of (engine s0) lang) false ;;
                  ret (acc ++ [model_name_of (engine s0) lang])
             else ret acc) s0))).
  { intros cond lang acc s0 Hsup. destruct cond; [|apply may_clear_refl].
    unfold bind.
    destruct (_load_model lib lang _ false s0) as [r s'] eqn:El.
    pose proof (load_model_default_may_clear l _ _ _ _ Hsup El) as Hk.
    destruct r; exact Hk. }
  unfold bind at 1.
  pose proof (Hload (Py.eqb (_language (engine s)) (Py.lit "ru")
                     || Py.eqb (_language (engine s)) (Py.lit "auto"))
                (Py.lit "ru") [] s (or_introl eq_refl)) as K1.
  change (model_name_of (engine s) (Py.lit "ru"))
    with (_russian_model_name (engine s)) in K1.
  destruct ((if Py.eqb (_language (engine s)) (Py.lit "ru")
                || Py.eqb (_language (engine s)) (Py.lit "auto")
             then _load_model lib (Py.lit "ru") (_russian_model_name (engine s)) false ;;
                  ret ([] ++ [_russian_model_name (engine s)])
             else ret []) s) as [r1 s1] eqn:E1.
  cbn [snd] in K1. destruct r1 as [loaded1|e1]; [|exact K1].
  eapply may_clear_trans; [exact K1|].
  assert (Hnames : _english_model_name (engine s)
                   = model_name_of (engine s1) (Py.lit "en")).
  { destruct K1 as [[_ [He _]] _]. unfold model_name_of. cbn [Py.eqb Py.lit].
    now rewrite He. }
  unfold bind at 1.
  pose proof (Hload (Py.eqb (_language (engine s)) (Py.lit "en")
                     || Py.eqb (_language (engine s)) (Py.lit "auto"))
                (Py.lit "en") loaded1 s1 (or_intror eq_refl)) as K2.
  rewrite <- Hnames in K2.
  destruct ((if Py.eqb (_language (engine s)) (Py.lit "en")
                || Py.eqb (_language (engine s)) (Py.lit "auto")
             then _load_model lib (Py.lit "en") (_english_model_name (engine s)) false ;;
                  ret (loaded1 ++ [_english_model_name (engine s)])
             else ret loaded1) s1) as [r2 s2] eqn:E2.
  cbn [snd] in K2. destruct r2; exact K2.
Qed.

Lemma run_operation_may_clear l op st :
  may_clear lib l st (run_operation lib op st).
Proof.
  destruct op as [|audio sample_rate language|language]; cbn [run_operation].
  - apply initialize_may_clear.
  - apply keeps_mark_may_clear, recognize_keeps.
  - apply keeps_mark_may_clear, set_language_keeps.
Qed.

Lemma run_operations_may_clear l ops st :
  may_clear lib l st (run_operations lib ops st).
Proof.
  revert st. induction ops as [|op ops IH]; intros st; cbn.
  - apply may_clear_refl.
  - eapply may_clear_trans; [apply run_operation_may_clear|apply IH].
Qed.

Lemma run_operations_keeps l ops st :
  ~ In OpInitialize ops ->
  keeps_mark l st (run_operations lib ops st).
Proof.
  revert st. induction ops as [|op ops IH]; intros st Hno; cbn.
  - apply keeps_mark_refl.
  - eapply keeps_mark_trans; [|apply IH; intros H; apply Hno; now right].
    destruct op as [|audio sample_rate language|language]; cbn [run_operation].
    + exfalso. apply Hno. now left.
    + apply recognize_keeps.
    + apply set_language_keeps.
Qed.

Lemma engine_inv_init russian_model english_model language :
  engine_inv (ASREngine_init russian_model english_model language).
Proof. split; intros lang H; discriminate. Qed.

(** The invariant holds in every state of an engine. *)
Lemma reachable_inv st : reachable lib st -> engine_inv (engine st).
Proof.
  induction 1 as [rm em language calls warnings|st op Hr IH].
  - apply engine_inv_init.
  - destruct (run_operation_may_clear [] op st) as [_ K].
    now destruct (K IH).
Qed.

(** C8. Once a language is marked CPU-only in a state of the engine, no
    sequence of [recognize] and [set_language] operations removes the mark;
    through a sequence that runs [initialize] too, the mark stays unless a
    load of the model of that language with the default providers was
    answered with a model; and such a load, when it succeeds at its first
    attempt, does clear the mark. *)
Theorem cpu_only_mark_persists (st : State) (lang : str)
    (ops : list Operation) :
  reachable lib st ->
  cpu_only st lang = true ->
  (~ In OpInitialize ops -> cpu_only (run_operations lib ops st) lang = true)
  /\ (cpu_only (run_operations lib ops st) lang = true
      \/ accelerated_load_succeeded lib (model_name_of (engine st) lang)
           (history st) (history (run_operations lib ops st)))
  /\ (forall model_name m,
      load_model lib (history st) model_name None = Returns m ->
      cpu_only (snd (_load_model lib lang model_name false st)) lang = false).
Proof.
  intros Hr Hl. pose proof (reachable_inv st Hr) as Hinv.
  split; [|split].
  - intros Hno. destruct (run_operations_keeps lang ops st Hno) as [_ K].
    now apply K.
  - destruct (run_operations_may_clear lang ops st) as [_ K].
    now apply K.
  - intros model_name m Hm.
    rewrite (load_model_ok lib lang model_name false m st Hm).
    unfold cpu_only. cbn. apply py_mem_discard_same.
Qed.

End Lifecycle.

(** The engine fallen back to the CPU loses its mark when it is initialised
    again and the library answers the load with the default providers. *)
Example initialize_again_clears_mark :
  cpu_only Example.fallen_back (Py.lit "ru") = true
  /\ cpu_only
       (run_operation Example.reloading OpInitialize Example.fallen_back)
       (Py.lit "ru") = false.
Proof. split; reflexivity. Qed.

(** A Russian engine that fell back to the CPU keeps its mark through a
    switch of language and another recognition. *)
Lemma cpu_only_mark_persists_witness :
  cpu_only
    (run_operations Example.failing_coreml
       [OpSetLanguage (Py.lit "auto");
        OpRecognize Example.clip 16000 (Some (Py.lit "ru"))]
       Example.fallen_back)
    (Py.lit "ru") = true.
Proof.
  apply (proj1 (cpu_only_mark_persists Example.failing_coreml
                  Example.fallen_back (Py.lit "ru")
                  [OpSetLanguage (Py.lit "auto");
                   OpRecognize Example.clip 16000 (Some (Py.lit "ru"))]
                  (reach_step Example.failing_coreml _
                     (OpRecognize Example.clip 16000 None)
                     (reach_step Example.failing_coreml _ OpInitialize
                        (reach_init Example.failing_coreml
                           (Py.lit "gigaam-v3-rnnt") (Py.lit "whisper-base")
                           (Py.lit "ru") [] [])))
                  eq_refl)).
  intros [H|[H|[]]]; discriminate.
Defined.

(** ** C3: the resampler *)

Lemma set_last_length l v : length (Np.set_last l v) = length l.
Proof.
  induction l as [|x [|y l] IH]; simpl in *; auto.
Qed.

Lemma arange_length n : length (Np.arange n) = n.
Proof. unfold Np.arange. now rewrite length_map, length_seq. Qed.

(** [np.linspace] of a non-negative count returns that many positions. *)
Lemma linspace_ok start stop num :
  (0 <= num)%Z ->
  exists indices,
    Np.linspace start stop num = Ok indices
    /\ length indices = Z.to_nat num.
Proof.
  intros Hn. unfold Np.linspace.
  destruct (num <? 0)%Z eqn:E; [apply Z.ltb_lt in E; lia|].
  eexists. split; [reflexivity|].
  destruct (1 <? num)%Z; [rewrite set_last_length|];
    rewrite length_map;
    destruct (0 <? num - 1)%Z;
      try destruct (_ =? _)%float;
      now rewrite length_map, arange_length.
Qed.

(** [np.interp] over sample points as many as the samples. *)
Lemma interp_ok x (fp : list float) :
  fp <> [] ->
  Np.interp x (Np.arange (length fp)) fp
  = Ok (List.map (Np.interp_one (Np.arange (length fp)) fp) x).
Proof.
  intros Hne. unfold Np.interp.
  destruct (Np.arange (length fp)) eqn:E.
  - apply (f_equal (@length float)) in E. rewrite arange_length in E.
    destruct fp; [congruence|discriminate].
  - rewrite <- E, arange_length, Nat.eqb_refl. reflexivity.
Qed.

Lemma column_length c rows : length (Np.column c rows) = length rows.
Proof. unfold Np.column. apply length_map. Qed.

Lemma comprehension_ok A B (f : A -> result B) (g : A -> B) xs :
  (forall x, In x xs -> f x = Ok (g x)) ->
  comprehension f xs = Ok (List.map g xs).
Proof.
  induction xs as [|x xs IH]; intros H; simpl; [reflexivity|].
  rewrite (H x) by now left. simpl.
  rewrite IH by (intros y Hy; apply H; now right). reflexivity.
Qed.

Lemma resample_channel_length indices channel :
  length (resample_channel indices channel) = length indices.
Proof. unfold resample_channel. now rewrite !length_map. Qed.

Lemma nth_map_float32 i l :
  nth i (List.map Np.float32 l) zero = Np.float32 (nth i l zero).
Proof. exact (map_nth Np.float32 l zero i). Qed.

Lemma stack_ok ch0 channels :
  Np.stack (ch0 :: channels)
  = Ok (Np.Arr2 (S (length channels))
          (List.map
             (fun i => List.map (fun ch => nth i ch zero) (ch0 :: channels))
             (seq 0 (length ch0)))).
Proof. reflexivity. Qed.

(** The resampling of a two-dimensional array, channel by channel. *)
Lemma resample_arr2 ncols rows sample_rate :
  (0 < ncols)%nat ->
  sample_rate <> 16000%Z ->
  _resample_to_16k (Np.Arr2 ncols rows) sample_rate
  = rbind (resample_plan (length rows) sample_rate)
      (fun indices =>
         Ok (Np.Arr2 ncols (resampled_rows ncols rows indices), 16000%Z)).
Proof.
  intros Hc Hr. unfold _resample_to_16k, resample_plan.
  apply Z.eqb_neq in Hr. rewrite Hr.
  destruct (sample_rate =? 0)%Z; [reflexivity|].
  cbn [Np.len]. fold (resample_length (length rows) sample_rate).
  destruct (resample_length (length rows) sample_rate) as [n|]; [|reflexivity].
  destruct (Np.linspace _ _ n) as [indices|e]; [|reflexivity].
  cbn [rbind].
  destruct ncols as [|ncols]; [lia|].
  destruct rows as [|row rows]; [reflexivity|].
  remember (row :: rows) as rs eqn:Ers.
  assert (Hlen : exists k, length rs = S k)
    by (subst rs; eexists; reflexivity).
  destruct Hlen as [k Hk]. rewrite Hk at 1. cbn [rbind].
  pose (chan := fun c =>
          List.map (Np.interp_one (Np.arange (length rs)) (Np.column c rs))
            indices).
  rewrite (comprehension_ok _ _ _ chan).
  2: { intros c _. unfold chan.
       rewrite <- (column_length c rs) at 1 2.
       rewrite interp_ok; [reflexivity|].
       intros Hnil. apply (f_equal (@length float)) in Hnil.
       rewrite column_length, Hk in Hnil. discriminate. }
  cbn [rbind]. change (seq 0 (S ncols)) with (0%nat :: seq 1 ncols).
  rewrite map_cons, stack_ok. cbn [rbind Np.astype_float32].
  rewrite <- map_cons.
  change (0%nat :: seq 1 ncols) with (seq 0 (S ncols)).
  f_equal. f_equal. f_equal.
  - now rewrite length_map, length_seq.
  - unfold resampled_rows. rewrite map_map.
    replace (length (chan 0%nat)) with (length indices)
      by (unfold chan; now rewrite length_map).
    apply map_ext. intros i. rewrite !map_map.
    apply map_ext. intros c. unfold resample_channel, chan.
    now rewrite column_length, nth_map_float32.
Qed.

(** A column of the resampled array is the resampled column. *)
Lemma resampled_rows_column ncols rows indices c :
  (c < ncols)%nat ->
  Np.column c (resampled_rows ncols rows indices)
  = resample_channel indices (Np.column c rows).
Proof.
  intros Hc. unfold Np.column at 1, resampled_rows. rewrite map_map.
  apply nth_ext with (d := zero) (d' := zero).
  - now rewrite length_map, length_seq, resample_channel_length.
  - intros i Hi. rewrite length_map, length_seq in Hi.
    rewrite (nth_indep _ zero (nth c (List.map
               (fun c0 => nth 0 (resample_channel indices (Np.column c0 rows)) zero)
               (seq 0 ncols)) zero))
      by now rewrite length_map, length_seq.
    rewrite (map_nth (fun i0 => nth c (List.map
               (fun c0 => nth i0 (resample_channel indices (Np.column c0 rows)) zero)
               (seq 0 ncols)) zero) (seq 0 (length indices)) 0%nat i).
    rewrite seq_nth by exact Hi. cbn [Nat.add].
    rewrite (nth_indep _ zero
               (nth i (resample_channel indices (Np.column 0 rows)) zero))
      by now rewrite length_map, length_seq.
    rewrite (map_nth (fun c0 => nth i (resample_channel indices (Np.column c0 rows)) zero)
               (seq 0 ncols) 0%nat c).
    now rewrite seq_nth by exact Hc.
Qed.

Lemma resample_arr1 data sample_rate :
  sample_rate <> 16000%Z ->
  _resample_to_16k (Np.Arr1 data) sample_rate
  = rbind (resample_plan (length data) sample_rate)
      (fun indices => Ok (Np.Arr1 (resample_channel indices data), 16000%Z)).
Proof.
  intros Hr. unfold _resample_to_16k, resample_plan.
  apply Z.eqb_neq in Hr. rewrite Hr.
  destruct (sample_rate =? 0)%Z; [reflexivity|].
  cbn [Np.len]. fold (resample_length (length data) sample_rate).
  destruct (resample_length (length data) sample_rate) as [n|]; [|reflexivity].
  destruct (Np.linspace _ _ n) as [indices|e]; [|reflexivity].
  cbn [rbind].
  destruct data as [|x data]; [reflexivity|].
  rewrite interp_ok by discriminate. reflexivity.
Qed.

Lemma resample_plan_ok len sample_rate n :
  sample_rate <> 0%Z -> (0 < len)%nat ->
  resample_length len sample_rate = Some n -> (0 <= n)%Z ->
  exists indices,
    resample_plan len sample_rate = Ok indices
    /\ Np.linspace (Np.float_of_int 0)
         (Np.float_of_int (Z.of_nat len - 1)) n = Ok indices
    /\ length indices = Z.to_nat n.
Proof.
  intros Hr Hlen Hn Hpos. unfold resample_plan.
  apply Z.eqb_neq in Hr. rewrite Hr, Hn.
  destruct (linspace_ok (Np.float_of_int 0)
              (Np.float_of_int (Z.of_nat len - 1)) n Hpos) as [ind [Hl Hi]].
  exists ind. rewrite Hl. cbn [rbind].
  destruct len; [lia|]. auto.
Qed.

Lemma comprehension_length {A B} (f : A -> result B) xs ys :
  comprehension f xs = Ok ys -> length ys = length xs.
Proof.
  revert ys. induction xs as [|x xs IH]; intros ys; cbn.
  - now intros [= <-].
  - destruct (f x) as [y|e]; cbn; [|discriminate].
    destruct (comprehension f xs) as [ys'|e]; cbn; [|discriminate].
    intros [= <-]. cbn. now rewrite (IH ys' eq_refl).
Qed.

Lemma interp_returns x xp fp out :
  Np.interp x xp fp = Ok out -> xp <> [].
Proof. unfold Np.interp. destruct xp; [discriminate|]. discriminate. Qed.

Lemma arange_nonempty n : Np.arange n <> [] -> (0 < n)%nat.
Proof. destruct n; [intros H; now contradiction H|lia]. Qed.

(** What a run of the resampler that returns was given, and what it
    gives. *)
Lemma resample_returns_facts audio sample_rate out rate :
  _resample_to_16k audio sample_rate = Ok (out, rate) ->
  rate = 16000%Z
  /\ same_channels audio out
  /\ ((sample_rate = 16000%Z /\ out = audio)
      \/ (sample_rate <> 16000%Z /\ sample_rate <> 0%Z
          /\ (0 < Np.len audio)%nat /\ has_channels audio
          /\ exists n,
               resample_length (Np.len audio) sample_rate = Some n
               /\ (0 <= n)%Z)).
Proof.
  unfold _resample_to_16k.
  destruct (sample_rate =? 16000)%Z eqn:E16.
  { apply Z.eqb_eq in E16. intros [= <- <-].
    split; [exact E16|]. split; [now destruct audio|]. now left. }
  apply Z.eqb_neq in E16.
  destruct (sample_rate =? 0)%Z eqn:E0; [discriminate|].
  apply Z.eqb_neq in E0.
  fold (resample_length (Np.len audio) sample_rate).
  destruct (resample_length (Np.len audio) sample_rate) as [n|] eqn:En;
    [|discriminate].
  destruct (Np.linspace _ _ n) as [indices|e] eqn:Hlin; cbn [rbind];
    [|discriminate].
  assert (Hn : (0 <= n)%Z).
  { unfold Np.linspace in Hlin.
    destruct (n <? 0)%Z eqn:Eneg; [discriminate|].
    now apply Z.ltb_ge in Eneg. }
  destruct audio as [data|ncols rows]; cbn [Np.len] in *.
  - destruct (Np.interp indices (Np.arange (length data)) data)
      as [resampled|e] eqn:Hint; cbn [rbind]; [|discriminate].
    intros [= <- <-]. split; [reflexivity|]. split; [exact I|].
    right. repeat (split; [assumption|]).
    split; [apply arange_nonempty; eapply interp_returns; eauto|].
    split; [exact I|]. now exists n.
  - destruct (comprehension _ (seq 0 ncols)) as [channels|e] eqn:Hc;
      cbn [rbind]; [|discriminate].
    pose proof (comprehension_length _ _ _ Hc) as Hlen.
    rewrite length_seq in Hlen.
    destruct channels as [|ch0 channels]; [discriminate|].
    rewrite stack_ok. cbn [rbind Np.astype_float32].
    intros [= <- <-]. split; [reflexivity|].
    cbn [same_channels has_channels]. cbn [length] in Hlen.
    split; [exact Hlen|].
    right. repeat (split; [assumption|]).
    split; [|split; [lia|now exists n]].
    destruct ncols as [|ncols]; [discriminate|].
    cbn [seq comprehension] in Hc.
    destruct (Np.interp indices (Np.arange (length rows)) (Np.column 0 rows))
      as [c0|e] eqn:Hint; [|discriminate].
    apply arange_nonempty. eapply interp_returns; eauto.
Qed.

(** C3, as the code has it.  A buffer at 16000 Hz is returned unchanged.
    At another rate R, with L the length of the buffer, the new length is
    n = int(L * (16000 / R)), the double-precision product truncated toward
    zero (not rounded).  The resampler returns exactly when R is not zero,
    the buffer holds a sample and a channel, and the product converts to an
    integer n that is not negative: it then returns, at 16000 Hz, a buffer
    of n samples with the channels of the input, every channel interpolated
    linearly, on its own, at n evenly spaced positions over the sample
    indices 0 .. L-1, and rounded to single precision.  In every other
    case it raises: the zero division for R = 0, else an error of the
    conversion or of numpy. *)
Theorem resample_to_16k_truncates (audio : Np.ndarray) (sample_rate : Z) :
  (sample_rate = 16000%Z ->
   _resample_to_16k audio sample_rate = Ok (audio, 16000%Z))
  /\ (sample_rate <> 16000%Z -> sample_rate <> 0%Z ->
      (0 < Np.len audio)%nat -> has_channels audio ->
      forall n,
        resample_length (Np.len audio) sample_rate = Some n -> (0 <= n)%Z ->
        exists indices out,
          Np.linspace (Np.float_of_int 0)
            (Np.float_of_int (Z.of_nat (Np.len audio) - 1)) n = Ok indices
          /\ length indices = Z.to_nat n
          /\ _resample_to_16k audio sample_rate = Ok (out, 16000%Z)
          /\ Np.len out = Z.to_nat n
          /\ channels_resampled indices audio out)
  /\ (sample_rate <> 16000%Z ->
      forall out rate,
        _resample_to_16k audio sample_rate = Ok (out, rate) ->
        sample_rate <> 0%Z
        /\ (0 < Np.len audio)%nat
        /\ has_channels audio
        /\ exists n,
             resample_length (Np.len audio) sample_rate = Some n
             /\ (0 <= n)%Z)
  /\ (sample_rate <> 16000%Z ->
      sample_rate = 0%Z
      \/ Np.len audio = 0%nat
      \/ ~ has_channels audio
      \/ resample_length (Np.len audio) sample_rate = None
      \/ (exists n,
            resample_length (Np.len audio) sample_rate = Some n /\ (n < 0)%Z) ->
      exists e,
        _resample_to_16k audio sample_rate = Err e
        /\ (sample_rate = 0%Z -> e = ZeroDivisionError)).
Proof.
  assert (Honly : sample_rate <> 16000%Z ->
    forall out rate,
      _resample_to_16k audio sample_rate = Ok (out, rate) ->
      sample_rate <> 0%Z
      /\ (0 < Np.len audio)%nat
      /\ has_channels audio
      /\ exists n,
           resample_length (Np.len audio) sample_rate = Some n
           /\ (0 <= n)%Z).
  { intros Hr out rate H.
    destruct (resample_returns_facts _ _ _ _ H) as [_ [_ [[H16 _]|[_ Hc]]]];
      [contradiction|exact Hc]. }
  split; [|split; [|split]].
  - intros ->. reflexivity.
  - intros Hr H0 Hlen Hch n Hn Hpos.
    destruct (resample_plan_ok _ _ _ H0 Hlen Hn Hpos) as [ind [Hplan [Hlin Hi]]].
    exists ind. destruct audio as [data|ncols rows].
    + exists (Np.Arr1 (resample_channel ind data)).
      rewrite resample_arr1 by exact Hr. cbn [Np.len] in *.
      rewrite Hplan. cbn [rbind].
      repeat split; auto.
      cbn. now rewrite resample_channel_length.
    + exists (Np.Arr2 ncols (resampled_rows ncols rows ind)).
      rewrite resample_arr2 by assumption. cbn [Np.len] in *.
      rewrite Hplan. cbn [rbind].
      repeat split; auto.
      * unfold resampled_rows. now rewrite length_map, length_seq.
      * intros c Hc. now apply resampled_rows_column.
  - exact Honly.
  - intros Hr Hbad.
    destruct (_resample_to_16k audio sample_rate) as [[out rate]|e] eqn:E.
    + exfalso.
      destruct (Honly Hr out rate eq_refl) as [H0 [Hlen [Hch [n [Hn Hpos]]]]].
      destruct Hbad as [H|[H|[H|[H|[n' [H Hneg]]]]]];
        [contradiction|lia|contradiction|congruence|].
      rewrite Hn in H. injection H as <-. lia.
    + exists e. split; [reflexivity|].
      intros H0. revert E. unfold _resample_to_16k.
      apply Z.eqb_neq in Hr. rewrite Hr. subst sample_rate.
      cbn [Z.eqb]. now intros [= <-].
Qed.

(** Five samples at 48 kHz: 5 * 16000 / 48000 rounds to 2, and the code
    returns one sample.  And the resampler does not return for every rate
    other than 16000: the same samples at the rate 0 raise the zero
    division, at the rate -16000 the new length is -5 and numpy refuses it,
    and a buffer without a sample at 48 kHz is refused by numpy too. *)
Lemma resample_length_not_rounded :
  _resample_to_16k (Np.Arr1 five_samples) 48000
  = Ok (Np.Arr1 [0.25%float], 16000%Z)
  /\ round_half_even
       (inject_Z (Z.of_nat (length five_samples)) * 16000 / 48000) = 2%Z
  /\ Z.of_nat (Np.len (Np.Arr1 [0.25%float])) <> 2%Z
  /\ _resample_to_16k (Np.Arr1 five_samples) 0 = Err ZeroDivisionError
  /\ resample_length (length five_samples) (-16000) = Some (-5)%Z
  /\ (exists message,
        _resample_to_16k (Np.Arr1 five_samples) (-16000)
        = Err (Raised message))
  /\ (exists message,
        _resample_to_16k (Np.Arr1 []) 48000 = Err (Raised message)).
Proof.
  split; [|split; [|split; [|split; [|split; [|split]]]]].
  - vm_compute. reflexivity.
  - vm_compute. reflexivity.
  - discriminate.
  - reflexivity.
  - vm_compute. reflexivity.
  - eexists. vm_compute. reflexivity.
  - eexists. vm_compute. reflexivity.
Qed.

(** The length is the truncation of the product as the doubles give it:
    49 * 16000 / 784000 is 1, the product of 49 and the double nearest to
    16000 / 784000 is below 1, and no sample is returned. *)
Example resample_length_in_double_precision :
  resample_length 49 784000 = Some 0%Z
  /\ (inject_Z 49 * 16000 / 784000 == 1)%Q.
Proof. split; reflexivity. Qed.

(** Six samples at 32 kHz come back as three: the first, the last, and
    between them the value interpolated half way between the third and the
    fourth. *)
Lemma resample_to_16k_truncates_witness :
  _resample_to_16k (Np.Arr1 Example.clip) 32000
  = Ok (Np.Arr1 [0; 0.75; -0.5]%float, 16000%Z).
Proof.
  destruct (proj1 (proj2 (resample_to_16k_truncates (Np.Arr1 Example.clip) 32000))
              ltac:(discriminate) ltac:(discriminate) ltac:(cbn; lia) I
              3%Z eq_refl ltac:(lia))
    as [indices [out [Hlin [_ [Hres [_ Hout]]]]]].
  rewrite Hres. destruct out as [data|ncols rows]; [|contradiction].
  cbn [channels_resampled] in Hout. subst data.
  injection Hlin as <-. vm_compute. reflexivity.
Defined.

(** ** C9: buffers of more than two channels *)

Section LogFrame.

Variable lib : Library.

Lemma log_frame_ret A (a : A) : log_frame (ret a).
Proof.
  intros s1 s2 He Hh. cbn. repeat split; auto.
  exists []. now rewrite !app_nil_r.
Qed.

Lemma log_frame_raise A e : log_frame (@raise A e).
Proof.
  intros s1 s2 He Hh. cbn. repeat split; auto.
  exists []. now rewrite !app_nil_r.
Qed.

Lemma log_frame_lift A (r : result A) : log_frame (lift r).
Proof.
  intros s1 s2 He Hh. cbn. repeat split; auto.
  exists []. now rewrite !app_nil_r.
Qed.

Lemma log_frame_bind A B (m : M A) (k : A -> M B) :
  log_frame m -> (forall a, log_frame (k a)) -> log_frame (bind m k).
Proof.
  intros Hm Hk s1 s2 He Hh. unfold bind.
  destruct (Hm s1 s2 He Hh) as [Hr [He' [Hh' [d [Hd1 Hd2]]]]].
  destruct (m s1) as [r1 t1], (m s2) as [r2 t2]. cbn in *. subst r2.
  destruct r1 as [a|e].
  - destruct (Hk a t1 t2 He' Hh') as [Kr [Ke [Kh [d' [Kd1 Kd2]]]]].
    repeat split; auto.
    exists (d ++ d'). now rewrite Kd1, Kd2, Hd1, Hd2, !app_assoc.
  - cbn. repeat split; auto. now exists d.
Qed.

Lemma log_frame_try_except A (body : M A) handler :
  log_frame body -> (forall e, log_frame (handler e)) ->
  log_frame (try_except body handler).
Proof.
  intros Hm Hk s1 s2 He Hh. unfold try_except.
  destruct (Hm s1 s2 He Hh) as [Hr [He' [Hh' [d [Hd1 Hd2]]]]].
  destruct (body s1) as [r1 t1], (body s2) as [r2 t2]. cbn in *. subst r2.
  destruct r1 as [a|e].
  - cbn. repeat split; auto. now exists d.
  - destruct (Hk e t1 t2 He' Hh') as [Kr [Ke [Kh [d' [Kd1 Kd2]]]]].
    repeat split; auto.
    exists (d ++ d'). now rewrite Kd1, Kd2, Hd1, Hd2, !app_assoc.
Qed.

Lemma log_frame_try_except_else A B (body : M A) handler (orelse : A -> M B) :
  log_frame body -> (forall e, log_frame (handler e)) ->
  (forall a, log_frame (orelse a)) ->
  log_frame (try_except_else body handler orelse).
Proof.
  intros Hm Hk Ho s1 s2 He Hh. unfold try_except_else.
  destruct (Hm s1 s2 He Hh) as [Hr [He' [Hh' [d [Hd1 Hd2]]]]].
  destruct (body s1) as [r1 t1], (body s2) as [r2 t2]. cbn in *. subst r2.
  destruct r1 as [a|e].
  - destruct (Ho a t1 t2 He' Hh') as [Kr [Ke [Kh [d' [Kd1 Kd2]]]]].
    repeat split; auto.
    exists (d ++ d'). now rewrite Kd1, Kd2, Hd1, Hd2, !app_assoc.
  - destruct (Hk e t1 t2 He' Hh') as [Kr [Ke [Kh [d' [Kd1 Kd2]]]]].
    repeat split; auto.
    exists (d ++ d'). now rewrite Kd1, Kd2, Hd1, Hd2, !app_assoc.
Qed.

(** A computation that starts by reading the engine. *)
Lemma log_frame_get A (k : ASREngine -> M A) :
  (forall self, log_frame (k self)) -> log_frame (bind get_engine k).
Proof.
  intros Hk s1 s2 He Hh. unfold bind, get_engine. rewrite He.
  now apply Hk.
Qed.

Lemma log_frame_set_engine e : log_frame (set_engine e).
Proof.
  intros s1 s2 He Hh. cbn. repeat split; auto.
  exists []. now rewrite !app_nil_r.
Qed.

Lemma log_frame_modify f : log_frame (modify_engine f).
Proof.
  unfold modify_engine. apply log_frame_get. intros self.
  apply log_frame_set_engine.
Qed.

Lemma log_frame_warning f a : log_frame (logger_warning f a).
Proof.
  intros s1 s2 He Hh. cbn. repeat split; auto. eexists; eauto.
Qed.

Lemma log_frame_load_model_call name providers :
  log_frame (onnx_asr_load_model lib name providers).
Proof.
  intros s1 s2 He Hh. unfold onnx_asr_load_model. cbn. rewrite Hh.
  repeat split; auto. exists []. now rewrite !app_nil_r.
Qed.

Lemma log_frame_load_vad_call name : log_frame (onnx_asr_load_vad lib name).
Proof.
  intros s1 s2 He Hh. unfold onnx_asr_load_vad. cbn. rewrite Hh.
  repeat split; auto. exists []. now rewrite !app_nil_r.
Qed.

Lemma log_frame_recognize_call model audio sample_rate :
  log_frame (call_recognize lib model audio sample_rate).
Proof.
  intros s1 s2 He Hh. unfold call_recognize. cbn. rewrite Hh.
  repeat split; auto. exists []. now rewrite !app_nil_r.
Qed.

Lemma log_frame_for_each A B (xs : list A) (body : A -> B -> M B) acc :
  (forall x b, log_frame (body x b)) -> log_frame (for_each xs body acc).
Proof.
  intros Hb. revert acc. induction xs as [|x xs IH]; intros acc; cbn.
  - apply log_frame_ret.
  - apply log_frame_bind; auto.
Qed.

Create HintDb log_frame.

Hint Resolve log_frame_ret log_frame_raise log_frame_lift
  log_frame_set_engine log_frame_modify log_frame_warning
  log_frame_load_model_call log_frame_load_vad_call
  log_frame_recognize_call : log_frame.

Ltac log_frame_step :=
  first
    [ solve [auto with log_frame]
    | apply log_frame_get; intros ?self
    | apply log_frame_bind; [|intros ?]
    | apply log_frame_try_except; [|intros ?]
    | apply log_frame_try_except_else; [|intros ?|intros ?]
    | apply log_frame_for_each; intros ? ?
    | match goal with
      | |- log_frame (if ?c then _ else _) => destruct c
      | |- log_frame (match ?x with _ => _ end) => destruct x
      end ].

Lemma log_frame_load_model lang model_name force_cpu :
  log_frame (_load_model lib lang model_name force_cpu).
Proof. unfold _load_model. repeat log_frame_step. Qed.

Hint Resolve log_frame_load_model : log_frame.

Lemma log_frame_run_recognition model audio sample_rate lang :
  log_frame (_run_recognition lib model audio sample_rate lang).
Proof. unfold _run_recognition. repeat log_frame_step. Qed.

Hint Resolve log_frame_run_recognition : log_frame.

Lemma log_frame_detect_language audio sample_rate :
  log_frame (_detect_language lib audio sample_rate).
Proof.
  unfold _detect_language. repeat log_frame_step.
  unfold detect_step. repeat log_frame_step.
Qed.

Hint Resolve log_frame_detect_language : log_frame.

Lemma log_frame_model_name lang : log_frame (_model_name_for_language lang).
Proof. unfold _model_name_for_language. repeat log_frame_step. Qed.

Hint Resolve log_frame_model_name : log_frame.

Lemma log_frame_recognize_except audio sample_rate lang error :
  log_frame (recognize_except lib audio sample_rate lang error).
Proof.
  unfold recognize_except. repeat log_frame_step.
Qed.

Hint Resolve log_frame_recognize_except : log_frame.

Lemma log_frame_recognize audio sample_rate language :
  log_frame (recognize lib audio sample_rate language).
Proof.
  unfold recognize. repeat log_frame_step.
Qed.

Lemma log_frame_recognize_stereo mic_audio speaker_audio sample_rate :
  log_frame (recognize_stereo lib mic_audio speaker_audio sample_rate).
Proof.
  unfold recognize_stereo.
  apply log_frame_bind; [apply log_frame_recognize|intros mic].
  cbv zeta.
  apply log_frame_bind; [apply log_frame_recognize|intros speaker].
  apply log_frame_ret.
Qed.

End LogFrame.

Section Transcribe.

Variable lib : Library.

Lemma transcribe_eq audio_path language russian_model english_model :
  transcribe lib audio_path language russian_model english_model
  = ('(audio, sample_rate) <- lift (outcome (sf_read lib audio_path)) ;;
     (if (sample_rate =? 0)%Z then raise ZeroDivisionError else ret tt) ;;
     '(audio, sample_rate) <- lift (_resample_to_16k audio sample_rate) ;;
     transcribe_loaded lib language russian_model english_model
       audio sample_rate).
Proof. reflexivity. Qed.

(** Two buffers that agree on their first two channels are transcribed
    alike, but for the warning that the one of more channels logs. *)
Lemma transcribe_loaded_channels language russian_model english_model
    ncols rows rows2 sample_rate st r1 t1 r2 t2 :
  (2 < ncols)%nat ->
  Np.column 0 rows = Np.column 0 rows2 ->
  Np.column 1 rows = Np.column 1 rows2 ->
  transcribe_loaded lib language russian_model english_model
    (Np.Arr2 ncols rows) sample_rate st = (r1, t1) ->
  transcribe_loaded lib language russian_model english_model
    (Np.Arr2 2 rows2) sample_rate st = (r2, t2) ->
  r1 = r2
  /\ engine t1 = engine t2
  /\ history t1 = history t2
  /\ (forall out, r1 = Ok out ->
      exists before after,
        log t1 = before ++ channels_warning ncols :: after
        /\ log t2 = before ++ after).
Proof.
  intros Hc H0 H1 Hrun Hrun2. unfold transcribe_loaded in Hrun, Hrun2.
  unfold bind at 1, set_engine in Hrun. unfold bind at 1, set_engine in Hrun2.
  unfold bind at 1 in Hrun. unfold bind at 1 in Hrun2.
  destruct (initialize lib _) as [[loaded|e] s1].
  2: { injection Hrun as <- <-. injection Hrun2 as <- <-.
       repeat split. intros out Hout. discriminate. }
  assert (E1 : Nat.eqb ncols 1 = false) by (apply Nat.eqb_neq; lia).
  assert (E2 : Nat.ltb 2 ncols = true) by (apply Nat.ltb_lt; lia).
  assert (E3 : Nat.ltb 0 ncols = true) by (apply Nat.ltb_lt; lia).
  assert (E4 : Nat.ltb 1 ncols = true) by (apply Nat.ltb_lt; lia).
  rewrite E1, E2 in Hrun. cbn [Np.take_column] in Hrun. rewrite E3, E4 in Hrun.
  cbn [Nat.eqb Nat.ltb Nat.leb Np.take_column] in Hrun2.
  unfold bind at 1 in Hrun. unfold bind at 1 in Hrun.
  unfold logger_warning at 1 in Hrun.
  unfold bind at 1, lift in Hrun. unfold bind at 1, lift in Hrun.
  unfold bind at 1 in Hrun2. unfold bind at 1, ret at 1 in Hrun2.
  unfold bind at 1, lift in Hrun2. unfold bind at 1, lift in Hrun2.
  rewrite <- H0, <- H1 in Hrun2.
  match type of Hrun with
  | context [recognize_stereo lib _ _ sample_rate ?s] => set (sw := s) in Hrun
  end.
  destruct (log_frame_recognize_stereo lib (Np.column 0 rows)
              (Np.column 1 rows) sample_rate sw s1 eq_refl eq_refl)
    as [Hr [He [Hh [added [Hl1 Hl2]]]]].
  destruct (recognize_stereo lib _ _ sample_rate sw) as [q1 u1].
  destruct (recognize_stereo lib _ _ sample_rate s1) as [q2 u2].
  cbn [fst snd] in *. subst q2.
  destruct q1 as [segments|e]; cbn [ret] in Hrun, Hrun2;
    injection Hrun as <- <-; injection Hrun2 as <- <-.
  - repeat split; auto. intros out _.
    exists (log s1), added. rewrite Hl1, Hl2. unfold sw. cbn [log].
    now rewrite <- app_assoc.
  - repeat split; auto. intros out Hout. discriminate.
Qed.

Lemma column_first_two c rows :
  (c < 2)%nat -> Np.column c (List.map (firstn 2) rows) = Np.column c rows.
Proof.
  intros Hc. unfold Np.column. rewrite map_map. apply map_ext. intros row.
  destruct c as [|[|c]]; [| |lia]; destruct row as [|x [|y row]]; reflexivity.
Qed.

(** The recognitions of the two channels only add to the log. *)
Lemma recognize_stereo_log mic_audio speaker_audio sample_rate st :
  exists added,
    log (snd (recognize_stereo lib mic_audio speaker_audio sample_rate st))
    = log st ++ added.
Proof.
  destruct (log_frame_recognize_stereo lib mic_audio speaker_audio sample_rate
              st st eq_refl eq_refl) as [_ [_ [_ [added [H _]]]]].
  now exists added.
Qed.

(** The transcription of a decoded and resampled buffer of more than two
    channels, once the engine is initialised. *)
Lemma transcribe_loaded_surround language russian_model english_model
    ncols rows sample_rate st names st1 :
  (2 < ncols)%nat ->
  initialize lib (with_fresh_engine language russian_model english_model st)
  = (Ok names, st1) ->
  let heard :=
    recognize_stereo lib (Np.column 0 rows) (Np.column 1 rows) sample_rate
      (warned WARN_CHANNELS [ArgInt (Z.of_nat ncols)] st1) in
  transcribe_loaded lib language russian_model english_model
    (Np.Arr2 ncols rows) sample_rate st
  = (rmap (fun segments =>
             (segments, Py.join (Py.lit " ") (List.map text segments)))
       (fst heard),
     snd heard).
Proof.
  intros Hc Hinit heard. unfold transcribe_loaded.
  unfold bind at 1, set_engine.
  fold (with_fresh_engine language russian_model english_model st).
  unfold bind at 1. rewrite Hinit.
  assert (E1 : Nat.eqb ncols 1 = false) by (apply Nat.eqb_neq; lia).
  assert (E2 : Nat.ltb 2 ncols = true) by (apply Nat.ltb_lt; lia).
  assert (E3 : Nat.ltb 0 ncols = true) by (apply Nat.ltb_lt; lia).
  assert (E4 : Nat.ltb 1 ncols = true) by (apply Nat.ltb_lt; lia).
  rewrite E1, E2. cbn [Np.take_column]. rewrite E3, E4.
  unfold bind at 1. unfold bind at 1.
  unfold logger_warning at 1.
  fold (warned WARN_CHANNELS [ArgInt (Z.of_nat ncols)] st1).
  unfold bind at 1, lift. unfold bind at 1.
  fold heard. destruct heard as [[segments|e] s2]; reflexivity.
Qed.

(** C9. A buffer of more than two channels is accepted: once the file is
    decoded and resampled and the engine initialised, the transcription
    logs the warning about the channels and goes on to the recognitions of
    the first and of the second channel; it returns their merged segments
    and the text when they return and raises what they raise otherwise, the
    warning being logged in either case.  And it is transcribed as the
    buffer of its first two channels is: both transcriptions return the same
    segments and full text, or raise the same exception, after the same
    library calls; the warning is all the log of the one that returns has
    more than the other. *)
Theorem transcribe_extra_channels (path path2 language russian_model
    english_model : str) (st : State) (ncols : nat)
    (rows : list (list float)) (sample_rate : Z) :
  (2 < ncols)%nat ->
  sf_read lib path = Returns (Np.Arr2 ncols rows, sample_rate) ->
  sf_read lib path2 = Returns (first_two_channels rows, sample_rate) ->
  let run := transcribe lib path language russian_model english_model st in
  let run2 := transcribe lib path2 language russian_model english_model st in
  fst run = fst run2
  /\ engine (snd run) = engine (snd run2)
  /\ history (snd run) = history (snd run2)
  /\ (forall out, fst run = Ok out ->
      exists before after,
        log (snd run) = before ++ channels_warning ncols :: after
        /\ log (snd run2) = before ++ after)
  /\ (forall audio16 rate16 names st1,
        sample_rate <> 0%Z ->
        _resample_to_16k (Np.Arr2 ncols rows) sample_rate
        = Ok (audio16, rate16) ->
        initialize lib
          (with_fresh_engine language russian_model english_model st)
        = (Ok names, st1) ->
        exists rows16,
          audio16 = Np.Arr2 ncols rows16
          /\ (let heard :=
                recognize_stereo lib (Np.column 0 rows16)
                  (Np.column 1 rows16) rate16
                  (warned WARN_CHANNELS [ArgInt (Z.of_nat ncols)] st1) in
              run
              = (rmap (fun segments =>
                         (segments,
                          Py.join (Py.lit " ") (List.map text segments)))
                   (fst heard),
                 snd heard))
          /\ exists after,
               log (snd run) = log st1 ++ channels_warning ncols :: after).
Proof.
  intros Hc Hread Hread2 run run2.
  assert (Hsame :
    fst run = fst run2
    /\ engine (snd run) = engine (snd run2)
    /\ history (snd run) = history (snd run2)
    /\ (forall out, fst run = Ok out ->
        exists before after,
          log (snd run) = before ++ channels_warning ncols :: after
          /\ log (snd run2) = before ++ after)).
  { destruct run as [r1 t1] eqn:Hrun. destruct run2 as [r2 t2] eqn:Hrun2.
    unfold run in Hrun. unfold run2 in Hrun2. clear run run2.
    cbn [fst snd].
    rewrite transcribe_eq in Hrun, Hrun2.
    unfold bind at 1, lift in Hrun. unfold bind at 1, lift in Hrun2.
    rewrite Hread in Hrun. rewrite Hread2 in Hrun2.
    cbn [outcome] in Hrun, Hrun2.
    unfold bind at 1 in Hrun. unfold bind at 1 in Hrun2.
    destruct (sample_rate =? 0)%Z.
    { injection Hrun as <- <-. injection Hrun2 as <- <-.
      repeat split. intros out Hout. discriminate. }
    unfold ret at 1 in Hrun. unfold ret at 1 in Hrun2.
    unfold bind at 1, lift in Hrun. unfold bind at 1, lift in Hrun2.
    unfold first_two_channels in Hrun2.
    destruct (Z.eq_dec sample_rate 16000) as [->|Hr].
    - cbn [_resample_to_16k Z.eqb Pos.eqb] in Hrun, Hrun2.
      eapply transcribe_loaded_channels; [exact Hc| | |exact Hrun|exact Hrun2];
        symmetry; apply column_first_two; lia.
    - rewrite resample_arr2 in Hrun by (assumption || lia).
      rewrite resample_arr2, length_map in Hrun2 by (assumption || lia).
      destruct (resample_plan (length rows) sample_rate) as [indices|e];
        cbn [rbind] in Hrun, Hrun2.
      + eapply transcribe_loaded_channels; [exact Hc| | |exact Hrun|exact Hrun2];
          rewrite !resampled_rows_column by lia;
          now rewrite column_first_two by lia.
      + injection Hrun as <- <-. injection Hrun2 as <- <-.
        repeat split. intros out Hout. discriminate. }
  destruct Hsame as [H1 [H2 [H3 H4]]].
  repeat (split; [assumption|]).
  intros audio16 rate16 names st1 Hrate Hres Hinit.
  assert (Hshape : exists rows16,
            audio16 = Np.Arr2 ncols rows16 /\ rate16 = 16000%Z).
  { destruct (Z.eq_dec sample_rate 16000) as [->|Hr].
    - cbn [_resample_to_16k Z.eqb Pos.eqb] in Hres.
      injection Hres as <- <-. now exists rows.
    - rewrite resample_arr2 in Hres by (assumption || lia).
      destruct (resample_plan (length rows) sample_rate) as [indices|e];
        cbn [rbind] in Hres; [|discriminate].
      injection Hres as <- <-. eexists. split; reflexivity. }
  destruct Hshape as [rows16 [-> ->]]. exists rows16.
  split; [reflexivity|].
  assert (Hrun : run
    = (rmap (fun segments =>
               (segments, Py.join (Py.lit " ") (List.map text segments)))
         (fst (recognize_stereo lib (Np.column 0 rows16) (Np.column 1 rows16)
                 16000
                 (warned WARN_CHANNELS [ArgInt (Z.of_nat ncols)] st1))),
       snd (recognize_stereo lib (Np.column 0 rows16) (Np.column 1 rows16)
              16000
              (warned WARN_CHANNELS [ArgInt (Z.of_nat ncols)] st1)))).
  { unfold run. rewrite transcribe_eq. unfold bind at 1, lift.
    rewrite Hread. cbn [outcome]. unfold bind at 1.
    apply Z.eqb_neq in Hrate. rewrite Hrate.
    unfold ret at 1. unfold bind at 1, lift. rewrite Hres.
    exact (transcribe_loaded_surround _ _ _ _ _ _ _ _ _ Hc Hinit). }
  split; [exact Hrun|].
  rewrite Hrun. cbn [snd].
  destruct (recognize_stereo_log (Np.column 0 rows16) (Np.column 1 rows16)
              16000 (warned WARN_CHANNELS [ArgInt (Z.of_nat ncols)] st1))
    as [added Hlog].
  exists added. rewrite Hlog. cbn [warned log].
  now rewrite <- app_assoc.
Qed.

End Transcribe.

(** A file of three channels and the file of its first two: the first is
    transcribed, with the warning, as the second is. *)
Lemma transcribe_extra_channels_witness :
  let run :=
    transcribe (Example.recording Example.two_files) (Py.lit "surround.wav")
      (Py.lit "en") (Py.lit "gigaam-v3-rnnt") (Py.lit "whisper-base")
      (Fixture.fresh (Py.lit "auto")) in
  let run2 :=
    transcribe (Example.recording Example.two_files) (Py.lit "stereo.wav")
      (Py.lit "en") (Py.lit "gigaam-v3-rnnt") (Py.lit "whisper-base")
      (Fixture.fresh (Py.lit "auto")) in
  fst run = fst run2
  /\ fst run
     = Ok ([Example.mic_segment; Example.speaker_segment],
           Py.lit "Mic Speaker")
  /\ exists after, log (snd run) = [] ++ channels_warning 3 :: after.
Proof.
  destruct (transcribe_extra_channels (Example.recording Example.two_files)
              (Py.lit "surround.wav") (Py.lit "stereo.wav")
              (Py.lit "en") (Py.lit "gigaam-v3-rnnt") (Py.lit "whisper-base")
              (Fixture.fresh (Py.lit "auto")) 3 Example.surround_rows 16000
              ltac:(lia) eq_refl eq_refl) as [Hsame [_ [_ [_ Hgo]]]].
  destruct (Hgo (Np.Arr2 3 Example.surround_rows) 16000%Z
              [Py.lit "whisper-base"]
              (Scenario.initialised (Example.recording Example.two_files)
                 (Py.lit "en"))
              ltac:(discriminate) eq_refl
              ltac:(vm_compute; reflexivity))
    as [rows16 [Hrows [Hrun Hlog]]].
  split; [exact Hsame|]. split; [|exact Hlog].
  injection Hrows as <-. cbv zeta in Hrun. rewrite Hrun.
  vm_compute. reflexivity.
Defined.

(** The three-channel file is transcribed, with the warning. *)
Example transcribe_surround :
  let run :=
    transcribe (Example.recording Example.two_files) (Py.lit "surround.wav")
      (Py.lit "en") (Py.lit "gigaam-v3-rnnt") (Py.lit "whisper-base")
      (Fixture.fresh (Py.lit "auto")) in
  fst run
  = Ok ([Example.mic_segment; Example.speaker_segment], Py.lit "Mic Speaker")
  /\ log (snd run) = [channels_warning 3].
Proof. vm_compute. split; reflexivity. Qed.

(** ** The order of the segments *)

Lemma py_ltb_irrefl (a : str) : Py.ltb a a = false.
Proof.
  induction a as [|c a IH]; simpl; [reflexivity|].
  now rewrite N.ltb_irrefl, N.eqb_refl.
Qed.

Lemma py_ltb_asym (a b : str) : Py.ltb a b = true -> Py.ltb b a = false.
Proof.
  revert b. induction a as [|c a IH]; intros [|d b]; simpl; try discriminate;
    auto.
  destruct (N.ltb c d) eqn:E1.
  - intros _. apply N.ltb_lt in E1.
    destruct (N.ltb d c) eqn:E2; [apply N.ltb_lt in E2; lia|].
    destruct (N.eqb d c) eqn:E3; [apply N.eqb_eq in E3; lia|reflexivity].
  - destruct (N.eqb c d) eqn:E2; [|discriminate].
    apply N.eqb_eq in E2; subst d. rewrite N.ltb_irrefl, N.eqb_refl.
    apply IH.
Qed.

Lemma py_ltb_total (a b : str) :
  Py.ltb a b = false -> Py.ltb b a = false -> a = b.
Proof.
  revert b. induction a as [|c a IH]; intros [|d b]; simpl; try discriminate;
    auto.
  destruct (N.ltb c d) eqn:E1; [discriminate|].
  destruct (N.eqb c d) eqn:E2.
  - apply N.eqb_eq in E2; subst d. rewrite N.ltb_irrefl, N.eqb_refl.
    intros H1 H2. f_equal. now apply IH.
  - intros _. apply N.ltb_ge in E1. apply N.eqb_neq in E2.
    destruct (N.ltb d c) eqn:E3; [discriminate|].
    apply N.ltb_ge in E3. lia.
Qed.

Lemma py_ltb_trans (a b c : str) :
  Py.ltb a b = true -> Py.ltb b c = true -> Py.ltb a c = true.
Proof.
  revert b c. induction a as [|x a IH]; intros [|y b] [|z c]; simpl;
    try discriminate; auto.
  destruct (N.ltb x y) eqn:E1.
  - intros _. apply N.ltb_lt in E1.
    destruct (N.ltb y z) eqn:E2.
    + intros _. apply N.ltb_lt in E2.
      replace (N.ltb x z) with true; [reflexivity|].
      symmetry. apply N.ltb_lt. lia.
    + destruct (N.eqb y z) eqn:E3; [|discriminate].
      apply N.eqb_eq in E3; subst z. intros _.
      replace (N.ltb x y) with true; [reflexivity|].
      symmetry. now apply N.ltb_lt.
  - destruct (N.eqb x y) eqn:E2; [|discriminate].
    apply N.eqb_eq in E2; subst y. intros Hab.
    destruct (N.ltb x z); [reflexivity|].
    destruct (N.eqb x z); [|discriminate].
    now apply IH.
Qed.

Lemma Qltb_lt a b : Qltb a b = true <-> a < b.
Proof.
  unfold Qltb. rewrite negb_true_iff. split.
  - intros H. apply Qnot_le_lt. intros Hle.
    apply Qle_bool_iff in Hle. congruence.
  - intros H. destruct (Qle_bool b a) eqn:E; [|reflexivity].
    apply Qle_bool_iff in E. exfalso. now apply (Qlt_not_le a b).
Qed.

Lemma Qltb_ge a b : Qltb a b = false <-> b <= a.
Proof.
  unfold Qltb. rewrite negb_false_iff. apply Qle_bool_iff.
Qed.

Lemma Qeq_bool_false a b : Qeq_bool a b = false <-> ~ a == b.
Proof.
  split.
  - intros H Heq. apply Qeq_bool_iff in Heq. congruence.
  - intros H. destruct (Qeq_bool a b) eqn:E; [|reflexivity].
    apply Qeq_bool_iff in E. contradiction.
Qed.

(** The comparison of the sort decides the lexicographic order. *)
Lemma key_ltb_lt k1 k2 : key_ltb k1 k2 = true <-> key_lt k1 k2.
Proof.
  destruct k1 as [[s1 e1] src1], k2 as [[s2 e2] src2].
  unfold key_ltb, key_lt.
  destruct (Qeq_bool s1 s2) eqn:Es; cbn [negb].
  - apply Qeq_bool_iff in Es.
    destruct (Qeq_bool e1 e2) eqn:Ee; cbn [negb].
    + apply Qeq_bool_iff in Ee.
      destruct (Py.eqb src1 src2) eqn:Esrc; cbn [negb].
      * apply py_eqb_eq in Esrc; subst src2. rewrite py_ltb_irrefl.
        split; [discriminate|].
        intros [H|[_ [H|[_ H]]]]; try discriminate;
          rewrite ?Es, ?Ee in H; now apply Qlt_irrefl in H.
      * split; [now auto|].
        intros [H|[_ [H|[_ H]]]]; auto;
          rewrite ?Es, ?Ee in H; now apply Qlt_irrefl in H.
    + apply Qeq_bool_false in Ee. rewrite Qltb_lt. split; [now auto|].
      intros [H|[_ [H|[H _]]]]; auto; [|contradiction].
      rewrite Es in H. now apply Qlt_irrefl in H.
  - apply Qeq_bool_false in Es. rewrite Qltb_lt. split; [now auto|].
    intros [H|[H _]]; auto. contradiction.
Qed.

Lemma key_ltb_ge k1 k2 : key_ltb k2 k1 = false <-> key_le k1 k2.
Proof.
  destruct k1 as [[s1 e1] src1], k2 as [[s2 e2] src2].
  unfold key_ltb, key_le.
  destruct (Qeq_bool s2 s1) eqn:Es; cbn [negb].
  - apply Qeq_bool_iff in Es.
    destruct (Qeq_bool e2 e1) eqn:Ee; cbn [negb].
    + apply Qeq_bool_iff in Ee.
      destruct (Py.eqb src2 src1) eqn:Esrc; cbn [negb].
      * apply py_eqb_eq in Esrc; subst src2.
        split; [|reflexivity]. intros _. right. split; [now symmetry|].
        right. split; [now symmetry|]. now right.
      * apply py_eqb_neq in Esrc. split.
        -- intros H. right. split; [now symmetry|].
           right. split; [now symmetry|]. left.
           destruct (Py.ltb src1 src2) eqn:E; [reflexivity|].
           exfalso. apply Esrc. now apply py_ltb_total.
        -- intros [H|[_ [H|[_ [H|H]]]]].
           ++ rewrite Es in H. now apply Qlt_irrefl in H.
           ++ rewrite Ee in H. now apply Qlt_irrefl in H.
           ++ now apply py_ltb_asym.
           ++ congruence.
    + apply Qeq_bool_false in Ee. rewrite Qltb_ge. split.
      * intros H. right. split; [now symmetry|]. left.
        apply Qle_lteq in H as [H|H]; [exact H|].
        exfalso. apply Ee. now symmetry.
      * intros [H|[_ [H|[H _]]]].
        -- rewrite Es in H. now apply Qlt_irrefl in H.
        -- now apply Qlt_le_weak.
        -- rewrite H. apply Qle_refl.
  - apply Qeq_bool_false in Es. rewrite Qltb_ge. split.
    + intros H. left. apply Qle_lteq in H as [H|H]; [exact H|].
      exfalso. apply Es. now symmetry.
    + intros [H|[H _]]; [now apply Qlt_le_weak|].
      rewrite H. apply Qle_refl.
Qed.

Lemma key_le_trans k1 k2 k3 : key_le k1 k2 -> key_le k2 k3 -> key_le k1 k3.
Proof.
  destruct k1 as [[s1 e1] src1], k2 as [[s2 e2] src2], k3 as [[s3 e3] src3].
  unfold key_le.
  intros [H12|[S12 H12]] [H23|[S23 H23]].
  - left. eapply Qlt_trans; eauto.
  - left. now rewrite <- S23.
  - left. now rewrite S12.
  - right. split; [now rewrite S12|].
    destruct H12 as [H12|[E12 H12]], H23 as [H23|[E23 H23]].
    + left. eapply Qlt_trans; eauto.
    + left. now rewrite <- E23.
    + left. now rewrite E12.
    + right. split; [now rewrite E12|].
      destruct H12 as [H12| ->], H23 as [H23| <-]; auto.
      left. eapply py_ltb_trans; eauto.
Qed.

Lemma key_ltb_asym k1 k2 : key_ltb k1 k2 = true -> key_ltb k2 k1 = false.
Proof.
  intros H. apply key_ltb_ge. apply key_ltb_lt in H.
  destruct k1 as [[s1 e1] src1], k2 as [[s2 e2] src2].
  unfold key_lt in H. unfold key_le. tauto.
Qed.

(** The sort of the segments. *)
Section SortedFacts.

Variables (A K : Type) (key : A -> K) (ltb : K -> K -> bool).

Hypothesis ltb_asym : forall a b, ltb a b = true -> ltb b a = false.
Hypothesis le_trans :
  forall a b c, ltb b a = false -> ltb c b = false -> ltb c a = false.

Lemma insert_sorted_perm x l :
  Permutation (insert_sorted key ltb x l) (x :: l).
Proof.
  induction l as [|y l IH]; simpl; [reflexivity|].
  destruct (ltb (key y) (key x)); [|reflexivity].
  rewrite IH. apply perm_swap.
Qed.

Lemma sorted_perm l : Permutation (sorted key ltb l) l.
Proof.
  induction l as [|x l IH]; simpl; [reflexivity|].
  rewrite insert_sorted_perm. now constructor.
Qed.

Lemma insert_sorted_sorted x l :
  StronglySorted (sorted_le key ltb) l ->
  StronglySorted (sorted_le key ltb) (insert_sorted key ltb x l).
Proof.
  induction 1 as [|y l Hs IH Hy]; simpl.
  - repeat constructor.
  - destruct (ltb (key y) (key x)) eqn:E.
    + constructor; [exact IH|].
      eapply Permutation_Forall;
        [symmetry; apply insert_sorted_perm|].
      constructor; [|exact Hy]. unfold sorted_le. now apply ltb_asym.
    + constructor; [now constructor|].
      constructor; [exact E|].
      eapply Forall_impl; [|exact Hy].
      intros z Hz. unfold sorted_le in *. eapply le_trans; eauto.
Qed.

Lemma sorted_sorted l : StronglySorted (sorted_le key ltb) (sorted key ltb l).
Proof.
  induction l as [|x l IH]; simpl; [constructor|].
  now apply insert_sorted_sorted.
Qed.

End SortedFacts.

Lemma StronglySorted_weaken A (R R' : A -> A -> Prop) l :
  (forall a b, R a b -> R' a b) -> StronglySorted R l -> StronglySorted R' l.
Proof.
  intros HR. induction 1 as [|x l Hs IH Hx]; constructor; auto.
  eapply Forall_impl; [|exact Hx]. auto.
Qed.

(** The merge of the segments is ordered by (start, end, source), and holds
    the segments of both channels. *)
Lemma sorted_segments l :
  Permutation (sorted sort_key key_ltb l) l
  /\ StronglySorted segment_le (sorted sort_key key_ltb l).
Proof.
  split; [apply sorted_perm|].
  apply StronglySorted_weaken with (R := sorted_le sort_key key_ltb).
  - intros a b H. unfold sorted_le in H. now apply key_ltb_ge.
  - apply sorted_sorted.
    + apply key_ltb_asym.
    + intros a b c H1 H2. apply key_ltb_ge.
      apply key_ltb_ge in H1, H2. eapply key_le_trans; eauto.
Qed.

Lemma with_source_map segments src :
  _with_source segments src = List.map (tagged src) segments.
Proof.
  unfold _with_source.
  assert (H : forall acc,
    fold_left
      (fun tagged_segments segment =>
         tagged_segments ++
         [{| start := start segment; end_ := end_ segment;
             text := text segment; language := language segment;
             source := Some src |}])
      segments acc
    = acc ++ List.map (tagged src) segments).
  { induction segments as [|s segments IH]; intros acc; simpl.
    - now rewrite app_nil_r.
    - rewrite IH, <- app_assoc. reflexivity. }
  apply H.
Qed.

(** ** C5: the text of the transcript *)

Lemma lstrip_clean s : clean_head (Py.lstrip s).
Proof.
  induction s as [|c s IH]; simpl; [exact I|].
  destruct (Py.isspace c) eqn:E; [exact IH|exact E].
Qed.

Lemma lstrip_fix s : clean_head s -> Py.lstrip s = s.
Proof.
  destruct s as [|c s]; simpl; [reflexivity|]. now intros ->.
Qed.

Lemma lstrip_split s : exists ws, s = ws ++ Py.lstrip s.
Proof.
  induction s as [|c s [ws IH]]; simpl; [now exists []|].
  destruct (Py.isspace c).
  - exists (c :: ws). simpl. now f_equal.
  - now exists [].
Qed.

Lemma clean_head_prefix (a b : str) :
  a <> [] -> clean_head (a ++ b) -> clean_head a.
Proof. destruct a; [congruence|auto]. Qed.

(** Trimming twice is trimming once. *)
Lemma strip_idempotent s : Py.strip (Py.strip s) = Py.strip s.
Proof.
  unfold Py.strip, Py.rstrip.
  set (t := Py.lstrip s).
  set (u := Py.lstrip (rev t)).
  assert (Hu : clean_head u) by apply lstrip_clean.
  assert (Hru : clean_head (rev u)).
  { destruct (lstrip_split (rev t)) as [ws Hws]. fold u in Hws.
    destruct (rev u) eqn:E; [exact I|]. rewrite <- E.
    apply (clean_head_prefix (rev u) (rev ws)); [rewrite E; discriminate|].
    rewrite <- rev_app_distr, <- Hws, rev_involutive. apply lstrip_clean. }
  rewrite (lstrip_fix (rev u) Hru), rev_involutive.
  now rewrite (lstrip_fix u Hu).
Qed.

Lemma segments_of_have_text lang raw : Forall has_text (segments_of lang raw).
Proof.
  unfold segments_of. apply Forall_forall. intros seg Hin.
  apply in_map_iff in Hin as [r [<- Hr]].
  apply filter_In in Hr as [_ Hk]. unfold kept in Hk.
  unfold has_text, to_segment. cbn [text].
  rewrite strip_idempotent.
  destruct (Py.strip (segment_text r)); [discriminate|].
  split; discriminate.
Qed.

Section Transcript.

Variable lib : Library.

Lemma recognize_except_ok audio sample_rate lang msg st segments st' :
  recognize_except lib audio sample_rate lang (Raised msg) st
  = (Ok segments, st') ->
  exists raw, segments = segments_of lang raw.
Proof.
  unfold recognize_except, bind at 1, get_engine at 1.
  destruct (Py.mem lang _ || negb _); [discriminate|].
  unfold bind at 1, _model_name_for_language, bind at 1, get_engine at 1.
  destruct (Py.eqb lang (Py.lit "ru")) eqn:Eru;
    [|destruct (Py.eqb lang (Py.lit "en")) eqn:Een].
  3: discriminate.
  all: unfold ret at 1; unfold bind at 1, logger_warning at 1;
    unfold bind at 1;
    split_forced_load; [|discriminate];
    unfold bind at 1, get_engine at 1;
    cbn [engine loaded _models with_models];
    rewrite py_get_set_same, run_recognition_eq;
    match goal with
    | |- context [outcome ?a] => destruct a
    end; cbn [rmap outcome]; [|discriminate];
    intros [= <- _]; eexists; reflexivity.
Qed.

(** What [recognize] returns is what a model yielded, normalised. *)
Lemma recognize_ok_segments audio sample_rate language st segments st' :
  recognize lib audio sample_rate language st = (Ok segments, st') ->
  exists lang raw, segments = segments_of lang raw.
Proof.
  destruct (resolve_language lib audio sample_rate language st)
    as [lang st1] eqn:Hres.
  rewrite (recognize_resolved _ _ _ _ _ _ _ Hres).
  destruct (stored_model st1 lang) as [model|]; [|discriminate].
  unfold try_except. rewrite run_recognition_eq.
  destruct (model_recognize lib (history st1) model audio sample_rate)
    as [raw|msg]; cbn [rmap outcome].
  - intros [= <- _]. now exists lang, raw.
  - intros H. exists lang. eapply recognize_except_ok; eauto.
Qed.

Lemma recognize_have_text audio sample_rate language st segments st' :
  recognize lib audio sample_rate language st = (Ok segments, st') ->
  Forall has_text segments.
Proof.
  intros H. destruct (recognize_ok_segments _ _ _ _ _ _ H) as [lang [raw ->]].
  apply segments_of_have_text.
Qed.

(** The two recognitions behind a merged transcript. *)
Lemma recognize_stereo_ok mic_audio speaker_audio sample_rate st segments st' :
  recognize_stereo lib mic_audio speaker_audio sample_rate st
  = (Ok segments, st') ->
  exists mic st2 speaker,
    recognize lib mic_audio sample_rate None st = (Ok mic, st2)
    /\ recognize lib speaker_audio sample_rate None st2 = (Ok speaker, st')
    /\ segments
       = sorted sort_key key_ltb
           (List.map (tagged MIC_SOURCE) mic
            ++ List.map (tagged SPEAKER_SOURCE) speaker).
Proof.
  unfold recognize_stereo, bind at 1.
  destruct (recognize lib mic_audio sample_rate None st)
    as [[mic|e] st2] eqn:Hm; [|discriminate].
  unfold bind at 1.
  destruct (recognize lib speaker_audio sample_rate None st2)
    as [[speaker|e] st3] eqn:Hs; [|discriminate].
  cbn [ret]. intros [= <- <-].
  exists mic, st2, speaker. rewrite !with_source_map. auto.
Qed.

(** What a transcription that returns has run, after the loading. *)
Lemma transcribe_loaded_ok language russian_model english_model audio
    sample_rate st segments full_text st' :
  transcribe_loaded lib language russian_model english_model audio
    sample_rate st = (Ok (segments, full_text), st') ->
  full_text = Py.join (Py.lit " ") (List.map text segments)
  /\ exists loaded st1,
       initialize lib (with_fresh_engine language russian_model english_model st)
       = (Ok loaded, st1)
       /\ match audio with
          | Np.Arr1 data =>
              recognize lib data sample_rate None st1 = (Ok segments, st')
          | Np.Arr2 ncols rows =>
              if Nat.eqb ncols 1
              then recognize lib (Np.column 0 rows) sample_rate None st1
                   = (Ok segments, st')
              else
                (1 < ncols)%nat
                /\ recognize_stereo lib (Np.column 0 rows) (Np.column 1 rows)
                     sample_rate
                     (if Nat.ltb 2 ncols
                      then warned WARN_CHANNELS [ArgInt (Z.of_nat ncols)] st1
                      else st1)
                   = (Ok segments, st')
          end.
Proof.
  unfold transcribe_loaded. unfold bind at 1, set_engine.
  fold (with_fresh_engine language russian_model english_model st).
  unfold bind at 1.
  destruct (initialize lib _) as [[loaded|e] st1]; [|discriminate].
  unfold bind at 1.
  match goal with
  | |- (let (r, s) := ?m st1 in _) = _ -> _ =>
      destruct (m st1) as [[segs|e] s2] eqn:Hseg; [|discriminate]
  end.
  cbn [ret]. intros [= <- <- <-]. split; [reflexivity|].
  exists loaded, st1. split; [reflexivity|].
  destruct audio as [data|ncols rows]; [exact Hseg|].
  destruct (Nat.eqb ncols 1) eqn:E1; [exact Hseg|].
  unfold bind at 1 in Hseg.
  destruct (Nat.ltb 2 ncols) eqn:E2.
  - unfold logger_warning at 1 in Hseg.
    fold (warned WARN_CHANNELS [ArgInt (Z.of_nat ncols)] st1) in Hseg.
    unfold bind at 1, lift, Np.take_column in Hseg.
    destruct (Nat.ltb 0 ncols); [|discriminate].
    unfold bind at 1 in Hseg.
    destruct (Nat.ltb 1 ncols) eqn:E3; [|discriminate].
    apply Nat.ltb_lt in E3. split; [exact E3|exact Hseg].
  - unfold ret at 1 in Hseg.
    unfold bind at 1, lift, Np.take_column in Hseg.
    destruct (Nat.ltb 0 ncols); [|discriminate].
    unfold bind at 1 in Hseg.
    destruct (Nat.ltb 1 ncols) eqn:E3; [|discriminate].
    apply Nat.ltb_lt in E3. split; [exact E3|exact Hseg].
Qed.

(** A transcription that returns has decoded the file and resampled it. *)
Lemma transcribe_ok path language russian_model english_model st
    segments full_text st' :
  transcribe lib path language russian_model english_model st
  = (Ok (segments, full_text), st') ->
  exists audio sample_rate audio16 rate16,
    sf_read lib path = Returns (audio, sample_rate)
    /\ _resample_to_16k audio sample_rate = Ok (audio16, rate16)
    /\ transcribe_loaded lib language russian_model english_model
         audio16 rate16 st = (Ok (segments, full_text), st').
Proof.
  rewrite transcribe_eq. unfold bind at 1, lift.
  destruct (sf_read lib path) as [[audio sample_rate]|msg] eqn:Hread;
    cbn [outcome]; [|discriminate].
  unfold bind at 1.
  destruct (sample_rate =? 0)%Z; [discriminate|].
  unfold ret at 1. unfold bind at 1, lift.
  destruct (_resample_to_16k audio sample_rate)
    as [[audio16 rate16]|e] eqn:Hres; [|discriminate].
  intros H. exists audio, sample_rate, audio16, rate16. auto.
Qed.

(** C5. The full text of a transcript is its segment texts, in the order
    of the segments, joined with one space; and every segment of the
    transcript has text left once trimmed: a segment whose text is empty
    or whitespace only is in no transcript. *)
Theorem transcribe_full_text (path language russian_model english_model : str)
    (st : State) (segments : list Segment) (full_text : str) (st' : State) :
  transcribe lib path language russian_model english_model st
  = (Ok (segments, full_text), st') ->
  full_text = Py.join (Py.lit " ") (List.map text segments)
  /\ Forall has_text segments.
Proof.
  intros H.
  destruct (transcribe_ok _ _ _ _ _ _ _ _ H)
    as [audio [sample_rate [audio16 [rate16 [_ [_ Hl]]]]]].
  destruct (transcribe_loaded_ok _ _ _ _ _ _ _ _ _ Hl)
    as [Hft [loaded [st1 [_ Hrec]]]].
  split; [exact Hft|].
  destruct audio16 as [data|ncols rows].
  - eapply recognize_have_text; eauto.
  - destruct (Nat.eqb ncols 1); [eapply recognize_have_text; eauto|].
    destruct Hrec as [_ Hrec].
    destruct (recognize_stereo_ok _ _ _ _ _ _ Hrec)
      as [mic [st2 [speaker [Hm [Hs ->]]]]].
    eapply Permutation_Forall; [symmetry; apply sorted_segments|].
    apply Forall_app. split; apply Forall_map.
    + eapply Forall_impl; [|eapply recognize_have_text; exact Hm]. auto.
    + eapply Forall_impl; [|eapply recognize_have_text; exact Hs]. auto.
Qed.

End Transcript.

(** The stereo recording of the test suite: the segment of blanks is in
    neither the segments nor the full text. *)
Lemma transcribe_full_text_witness :
  Py.lit "Mic Speaker"
  = Py.join (Py.lit " ")
      (List.map text [Example.mic_segment; Example.speaker_segment])
  /\ Forall has_text [Example.mic_segment; Example.speaker_segment].
Proof.
  apply (transcribe_full_text (Example.recording Example.stereo_file)
           (Py.lit "stereo.wav") (Py.lit "en") (Py.lit "gigaam-v3-rnnt")
           (Py.lit "whisper-base") (Fixture.fresh (Py.lit "auto"))
           [Example.mic_segment; Example.speaker_segment]
           (Py.lit "Mic Speaker")
           (snd (transcribe (Example.recording Example.stereo_file)
                   (Py.lit "stereo.wav") (Py.lit "en")
                   (Py.lit "gigaam-v3-rnnt") (Py.lit "whisper-base")
                   (Fixture.fresh (Py.lit "auto"))))).
  vm_compute. reflexivity.
Defined.

(** ** C4: the transcription of two channels *)

Section Stereo.

Variable lib : Library.

Lemma resample_stereo_shape rows sample_rate audio16 rate16 :
  _resample_to_16k (Np.Arr2 2 rows) sample_rate = Ok (audio16, rate16) ->
  rate16 = 16000%Z
  /\ exists rows16,
       audio16 = Np.Arr2 2 rows16
       /\ (sample_rate = 16000%Z -> rows16 = rows).
Proof.
  destruct (Z.eq_dec sample_rate 16000) as [->|Hr].
  - cbn. intros [= <- <-]. split; [reflexivity|]. now exists rows.
  - rewrite resample_arr2 by (assumption || lia).
    destruct (resample_plan (length rows) sample_rate) as [indices|e];
      cbn [rbind]; [|discriminate].
    intros [= <- <-]. split; [reflexivity|].
    eexists. split; [reflexivity|]. intros; contradiction.
Qed.

(** C4. The transcription of a two-channel file runs [recognize] on two
    one-dimensional buffers, the first and the second channel of the
    resampled buffer, each of as many samples as the buffer has per channel
    (the decoded buffer itself at 16000 Hz); it tags the segments of the
    first with the mic label and those of the second with the speaker
    label, and returns them all, in ascending order of (start, end,
    source). *)
Theorem transcribe_stereo_sorted (path language russian_model english_model : str)
    (st : State) (rows : list (list float)) (sample_rate : Z)
    (segments : list Segment) (full_text : str) (st' : State) :
  sf_read lib path = Returns (Np.Arr2 2 rows, sample_rate) ->
  transcribe lib path language russian_model english_model st
  = (Ok (segments, full_text), st') ->
  exists rows16 loaded st1 mic st2 speaker,
    _resample_to_16k (Np.Arr2 2 rows) sample_rate
    = Ok (Np.Arr2 2 rows16, 16000%Z)
    /\ (sample_rate = 16000%Z -> rows16 = rows)
    /\ initialize lib
         (with_fresh_engine language russian_model english_model st)
       = (Ok loaded, st1)
    /\ length (Np.column 0 rows16) = length rows16
    /\ length (Np.column 1 rows16) = length rows16
    /\ recognize lib (Np.column 0 rows16) 16000 None st1 = (Ok mic, st2)
    /\ recognize lib (Np.column 1 rows16) 16000 None st2 = (Ok speaker, st')
    /\ Permutation segments
         (List.map (tagged MIC_SOURCE) mic
          ++ List.map (tagged SPEAKER_SOURCE) speaker)
    /\ StronglySorted segment_le segments.
Proof.
  intros Hread H.
  destruct (transcribe_ok _ _ _ _ _ _ _ _ _ H)
    as [audio [sr [audio16 [rate16 [Hread' [Hres Hl]]]]]].
  rewrite Hread in Hread'. injection Hread' as <- <-.
  destruct (resample_stereo_shape _ _ _ _ Hres) as [-> [rows16 [-> Hsame]]].
  destruct (transcribe_loaded_ok _ _ _ _ _ _ _ _ _ _ Hl)
    as [_ [loaded [st1 [Hinit Hrec]]]].
  cbn [Nat.eqb Nat.ltb Nat.leb] in Hrec. destruct Hrec as [_ Hrec].
  destruct (recognize_stereo_ok _ _ _ _ _ _ _ Hrec)
    as [mic [st2 [speaker [Hm [Hs ->]]]]].
  exists rows16, loaded, st1, mic, st2, speaker.
  repeat split; auto using column_length; apply sorted_segments.
Qed.

End Stereo.

(** The stereo recording of the test suite, transcribed. *)
Lemma transcribe_stereo_sorted_witness :
  exists rows16 loaded st1 mic st2 speaker,
    _resample_to_16k (Np.Arr2 2 Example.stereo_rows) 16000
    = Ok (Np.Arr2 2 rows16, 16000%Z)
    /\ (16000%Z = 16000%Z -> rows16 = Example.stereo_rows)
    /\ initialize (Example.recording Example.stereo_file)
         (with_fresh_engine (Py.lit "en") (Py.lit "gigaam-v3-rnnt")
            (Py.lit "whisper-base") (Fixture.fresh (Py.lit "auto")))
       = (Ok loaded, st1)
    /\ length (Np.column 0 rows16) = length rows16
    /\ length (Np.column 1 rows16) = length rows16
    /\ recognize (Example.recording Example.stereo_file)
         (Np.column 0 rows16) 16000 None st1 = (Ok mic, st2)
    /\ recognize (Example.recording Example.stereo_file)
         (Np.column 1 rows16) 16000 None st2
       = (Ok speaker,
          snd (transcribe (Example.recording Example.stereo_file)
                 (Py.lit "stereo.wav") (Py.lit "en") (Py.lit "gigaam-v3-rnnt")
                 (Py.lit "whisper-base") (Fixture.fresh (Py.lit "auto"))))
    /\ Permutation [Example.mic_segment; Example.speaker_segment]
         (List.map (tagged MIC_SOURCE) mic
          ++ List.map (tagged SPEAKER_SOURCE) speaker)
    /\ StronglySorted segment_le
         [Example.mic_segment; Example.speaker_segment].
Proof.
  apply (transcribe_stereo_sorted (Example.recording Example.stereo_file)
           (Py.lit "stereo.wav") (Py.lit "en") (Py.lit "gigaam-v3-rnnt")
           (Py.lit "whisper-base") (Fixture.fresh (Py.lit "auto"))
           Example.stereo_rows 16000
           [Example.mic_segment; Example.speaker_segment]
           (Py.lit "Mic Speaker")).
  - reflexivity.
  - vm_compute. reflexivity.
Defined.

(** ** What every operation of the engine preserves *)

Section Closure.

Variable lib : Library.

(** A relation between a state and a later one that holds across each
    elementary step of the engine holds across every operation. *)
Variable R : State -> State -> Prop.

Hypothesis R_refl : forall st, R st st.
Hypothesis R_trans : forall a b c, R a b -> R b c -> R a c.
Hypothesis R_call : forall c st, R st (record_call c st).
Hypothesis R_warned : forall f a st, R st (warned f a st).
Hypothesis R_language : forall l st, R st (with_active_language l st).
Hypothesis R_detector : forall v st, R st (with_detector v st).
Hypothesis R_loaded :
  forall lang name providers m marks st,
    supported lang -> R st (loaded lang name providers m marks st).

Lemma closure_calls cs : forall st, R st (record_calls cs st).
Proof.
  induction cs as [|c cs IH]; intros st.
  - rewrite record_calls_nil. apply R_refl.
  - rewrite <- record_calls_cons.
    eapply R_trans; [apply R_call|apply IH].
Qed.

Lemma closure_load_run lang name force_cpu st r st' :
  supported lang ->
  load_run lib lang name force_cpu st r st' -> R st st'.
Proof.
  intros Hsup H. destruct H.
  - now apply R_loaded.
  - apply R_call.
  - eapply R_trans; [apply R_call|].
    eapply R_trans; [apply R_warned|]. now apply R_loaded.
  - eapply R_trans; [apply R_call|].
    eapply R_trans; [apply R_warned|]. apply R_call.
Qed.

Lemma closure_load_model lang name force_cpu st :
  supported lang ->
  R st (snd (_load_model lib lang name force_cpu st)).
Proof.
  intros Hsup.
  destruct (_load_model lib lang name force_cpu st) as [r st'] eqn:E.
  apply load_model_run in E. cbn [snd].
  eapply closure_load_run; eauto.
Qed.

Lemma closure_recognize_except audio sample_rate lang msg st :
  R st (snd (recognize_except lib audio sample_rate lang (Raised msg) st)).
Proof.
  unfold recognize_except, bind at 1, get_engine at 1.
  destruct (Py.mem lang _ || negb _); [apply R_refl|].
  unfold bind at 1, _model_name_for_language, bind at 1, get_engine at 1.
  assert (Hgo : forall name, supported lang ->
    R st
      (snd
         ((logger_warning WARN_INFERENCE_RETRY [ArgStr name; ArgExc (Raised msg)] ;;
           _load_model lib lang name true ;;
           self <- get_engine ;;
           match Py.get (_models self) lang with
           | Some model' => _run_recognition lib model' audio sample_rate lang
           | None => raise (KeyError lang)
           end) st))).
  { intros name Hsup. unfold bind at 1, logger_warning at 1.
    unfold bind at 1.
    match goal with
    | |- context [_load_model lib lang name true ?s] =>
        eapply R_trans;
          [apply (R_warned WARN_INFERENCE_RETRY
                    [ArgStr name; ArgExc (Raised msg)] st)|];
        pose proof (closure_load_model lang name true s Hsup) as Hk;
        destruct (_load_model lib lang name true s) as [r s'] eqn:El
    end.
    cbn [snd] in Hk.
    destruct r; [|exact Hk].
    eapply R_trans; [exact Hk|].
    unfold bind at 1, get_engine at 1.
    destruct (Py.get _ lang); [|apply R_refl].
    rewrite run_recognition_eq. apply R_call. }
  destruct (Py.eqb lang (Py.lit "ru")) eqn:Eru;
    [|destruct (Py.eqb lang (Py.lit "en")) eqn:Een].
  - apply Hgo. left. now apply py_eqb_eq.
  - apply Hgo. right. now apply py_eqb_eq.
  - apply R_refl.
Qed.

Lemma closure_resolve_language audio sample_rate language st lang st1 :
  resolve_language lib audio sample_rate language st = (lang, st1) ->
  R st st1.
Proof.
  unfold resolve_language. destruct (Py.eqb _ _).
  - rewrite detect_language_eq. intros [= <- <-]. apply closure_calls.
  - intros [= <- <-]. apply R_refl.
Qed.

Lemma closure_recognize audio sample_rate language st :
  R st (snd (recognize lib audio sample_rate language st)).
Proof.
  destruct (resolve_language lib audio sample_rate language st)
    as [lang st1] eqn:Hres.
  rewrite (recognize_resolved _ _ _ _ _ _ _ Hres).
  eapply R_trans; [eapply closure_resolve_language; eauto|].
  destruct (stored_model st1 lang) as [model|]; [|apply R_refl].
  unfold try_except. rewrite run_recognition_eq.
  destruct (model_recognize lib (history st1) model audio sample_rate)
    as [raw|msg]; cbn [rmap outcome].
  - apply R_call.
  - eapply R_trans; [apply R_call|].
    apply closure_recognize_except.
Qed.

Lemma closure_set_language language st :
  R st (snd (set_language lib language st)).
Proof.
  unfold set_language, bind at 1, modify_engine, bind at 1, get_engine at 1,
    set_engine.
  eapply R_trans; [apply (R_language language st)|].
  unfold with_active_language.
  set (s := {| engine := with_language language (engine st);
               history := history st; log := log st |}).
  unfold bind at 1, get_engine at 1.
  assert (Hru : supported (Py.lit "ru")) by now left.
  assert (Hen : supported (Py.lit "en")) by now right.
  assert (Hload : forall lang name s0,
    supported lang ->
    R s0
      (snd ((if negb (Py.has (_models (engine s0)) lang)
             then _load_model lib lang name false
             else ret tt) s0))).
  { intros lang name s0 Hsup.
    destruct (Py.has (_models (engine s0)) lang); cbn [negb].
    - apply R_refl.
    - now apply closure_load_model. }
  destruct (Py.eqb language (Py.lit "ru")
            && negb (Py.has (_models (engine s)) (Py.lit "ru"))).
  { now apply closure_load_model. }
  destruct (Py.eqb language (Py.lit "en")
            && negb (Py.has (_models (engine s)) (Py.lit "en"))).
  { now apply closure_load_model. }
  destruct (Py.eqb language (Py.lit "auto")); [|apply R_refl].
  unfold bind at 1.
  pose proof (Hload (Py.lit "ru") (_russian_model_name (engine s)) s Hru) as K1.
  destruct ((if negb (Py.has (_models (engine s)) (Py.lit "ru"))
             then _load_model lib (Py.lit "ru") (_russian_model_name (engine s)) false
             else ret tt) s) as [r1 s1].
  cbn [snd] in K1. destruct r1; [|exact K1].
  eapply R_trans; [exact K1|].
  unfold bind at 1, get_engine at 1.
  apply Hload. exact Hen.
Qed.

Lemma closure_initialize st : R st (snd (initialize lib st)).
Proof.
  unfold initialize, bind at 1, onnx_asr_load_vad.
  destruct (load_vad lib (history st) (Py.lit "silero")) as [vad|msg];
    cbn [outcome].
  2: { apply R_call. }
  unfold bind at 1, modify_engine, bind at 1, get_engine at 1, set_engine.
  cbn [engine record_call history log].
  set (s := {| engine := with_vad_attr (Some vad) (engine st);
               history := history st ++ [LoadVad (Py.lit "silero")];
               log := log st |}).
  assert (Hs : R st s).
  { eapply R_trans; [apply (R_call (LoadVad (Py.lit "silero")) st)|].
    apply (R_detector vad (record_call (LoadVad (Py.lit "silero")) st)). }
  eapply R_trans; [exact Hs|].
  unfold bind at 1, get_engine at 1.
  assert (Hload : forall (cond : bool) lang name (acc : list str) s0,
    supported lang ->
    R s0
      (snd ((if cond
             then _load_model lib lang name false ;; ret (acc ++ [name])
             else ret acc) s0))).
  { intros cond lang name acc s0 Hsup. destruct cond; [|apply R_refl].
    unfold bind.
    pose proof (closure_load_model lang name false s0 Hsup) as Hk.
    destruct (_load_model lib lang name false s0) as [r s'].
    destruct r; exact Hk. }
  unfold bind at 1.
  pose proof (Hload (Py.eqb (_language (engine s)) (Py.lit "ru")
                     || Py.eqb (_language (engine s)) (Py.lit "auto"))
                (Py.lit "ru") (_russian_model_name (engine s)) [] s
                (or_introl eq_refl)) as K1.
  destruct ((if Py.eqb (_language (engine s)) (Py.lit "ru")
                || Py.eqb (_language (engine s)) (Py.lit "auto")
             then _load_model lib (Py.lit "ru") (_russian_model_name (engine s)) false ;;
                  ret ([] ++ [_russian_model_name (engine s)])
             else ret []) s) as [r1 s1] eqn:E1.
  cbn [snd] in K1. destruct r1 as [loaded1|e1]; [|exact K1].
  eapply R_trans; [exact K1|].
  unfold bind at 1.
  pose proof (Hload (Py.eqb (_language (engine s)) (Py.lit "en")
                     || Py.eqb (_language (engine s)) (Py.lit "auto"))
                (Py.lit "en") (_english_model_name (engine s)) loaded1 s1
                (or_intror eq_refl)) as K2.
  destruct ((if Py.eqb (_language (engine s)) (Py.lit "en")
                || Py.eqb (_language (engine s)) (Py.lit "auto")
             then _load_model lib (Py.lit "en") (_english_model_name (engine s)) false ;;
                  ret (loaded1 ++ [_english_model_name (engine s)])
             else ret loaded1) s1) as [r2 s2] eqn:E2.
  cbn [snd] in K2. destruct r2; exact K2.
Qed.

Lemma closure_operation op st : R st (run_operation lib op st).
Proof.
  destruct op as [|audio sample_rate language|language]; cbn [run_operation].
  - apply closure_initialize.
  - apply closure_recognize.
  - apply closure_set_language.
Qed.

Lemma closure_operations ops : forall st, R st (run_operations lib ops st).
Proof.
  induction ops as [|op ops IH]; intros st; cbn.
  - apply R_refl.
  - eapply R_trans; [apply closure_operation|apply IH].
Qed.

End Closure.

(** ** The models an engine holds *)

Lemma py_has_in V (d : Py.dict V) k :
  Py.has d k = true <-> In k (List.map fst d).
Proof.
  unfold Py.has. induction d as [|[k' v'] d IH]; cbn.
  - split; [discriminate|tauto].
  - destruct (Py.eqb k k') eqn:E.
    + apply py_eqb_eq in E. subst k'. split; auto.
    + apply py_eqb_neq in E. rewrite IH. split; [auto|].
      intros [H|H]; [congruence|exact H].
Qed.

Lemma py_set_keys V (d : Py.dict V) k v :
  List.map fst (Py.set d k v)
  = if Py.has d k then List.map fst d else List.map fst d ++ [k].
Proof.
  unfold Py.has. induction d as [|[k' v'] d IH]; cbn; [reflexivity|].
  destruct (Py.eqb k k') eqn:E; cbn; [reflexivity|].
  rewrite IH. now destruct (Py.get d k).
Qed.

Lemma py_get_none_has V (d : Py.dict V) k :
  Py.get d k = None <-> Py.has d k = false.
Proof. unfold Py.has. destruct (Py.get d k); split; congruence. Qed.

Section Models.

Variable lib : Library.

(** A load that returns has stored one model, under its language, and has
    left the detector, the language and the model names of the engine as
    they were. *)
Lemma load_model_returns lang model_name force_cpu st st' :
  _load_model lib lang model_name force_cpu st = (Ok tt, st') ->
  exists m,
    _models (engine st')
    = Py.set (_models (engine st)) lang (with_vad m (_vad (engine st)))
    /\ _vad (engine st') = _vad (engine st)
    /\ _language (engine st') = _language (engine st)
    /\ _russian_model_name (engine st') = _russian_model_name (engine st)
    /\ _english_model_name (engine st') = _english_model_name (engine st).
Proof.
  intros H. apply load_model_run in H.
  inversion H; subst; exists m; cbn; auto.
Qed.

(** A load that raises has raised what the library raised, and has left
    the engine as it was. *)
Lemma load_model_raises lang model_name force_cpu st e st' :
  _load_model lib lang model_name force_cpu st = (Err e, st') ->
  from_library e /\ engine st' = engine st
  /\ exists calls, calls <> [] /\ history st' = history st ++ calls.
Proof.
  intros H. apply load_model_run in H.
  inversion H; subst; (split; [eexists; reflexivity|]); cbn;
    (split; [reflexivity|]).
  - eexists; split; [|reflexivity]. discriminate.
  - rewrite <- app_assoc. eexists; split; [|reflexivity]. discriminate.
Qed.

Lemma models_order_loaded lang name providers m marks st :
  exists more,
    model_languages (loaded lang name providers m marks st)
    = model_languages st ++ more.
Proof.
  unfold model_languages. cbn. rewrite py_set_keys.
  destruct (Py.has _ lang); [exists []; now rewrite app_nil_r|now exists [lang]].
Qed.

(** The stored models keep their places in the dictionary. *)
Lemma models_order_operations ops st :
  exists more,
    model_languages (run_operations lib ops st) = model_languages st ++ more.
Proof.
  apply (closure_operations lib
           (fun a b => exists more, model_languages b = model_languages a ++ more)).
  - intros a. exists []. now rewrite app_nil_r.
  - intros a b c [m1 H1] [m2 H2]. exists (m1 ++ m2).
    now rewrite H2, H1, app_assoc.
  - intros c a. exists []. cbn. now rewrite app_nil_r.
  - intros f x a. exists []. cbn. now rewrite app_nil_r.
  - intros l a. exists []. cbn. now rewrite app_nil_r.
  - intros v a. exists []. cbn. now rewrite app_nil_r.
  - intros lang name providers m marks a _. apply models_order_loaded.
Qed.

Lemma models_nodup_operation op st :
  NoDup (model_languages st) ->
  NoDup (model_languages (run_operation lib op st)).
Proof.
  apply (closure_operation lib
           (fun a b => NoDup (model_languages a) -> NoDup (model_languages b)));
    auto.
  intros lang name providers m marks a _ Ha.
  unfold model_languages in *. cbn. rewrite py_set_keys.
  destruct (Py.has _ lang) eqn:E; [exact Ha|].
  apply NoDup_app; [exact Ha|repeat constructor; auto|].
  intros k Hin [->|[]].
  apply py_has_in in Hin. congruence.
Qed.

Lemma detectors_loaded lang name providers m marks st :
  detectors_composed st ->
  detectors_composed (loaded lang name providers m marks st).
Proof.
  intros [Hv Hm]. split; [exact Hv|].
  intros l model. unfold stored_model. cbn.
  destruct (Py.eqb l lang) eqn:E.
  - apply py_eqb_eq in E. subst l. rewrite py_get_set_same.
    intros [= <-]. exact Hv.
  - apply py_eqb_neq in E. rewrite py_get_set_other by exact E.
    apply Hm.
Qed.

Lemma detectors_operations ops st :
  detectors_composed st -> detectors_composed (run_operations lib ops st).
Proof.
  apply (closure_operations lib
           (fun a b => detectors_composed a -> detectors_composed b)); auto.
  - intros v a [_ Hm]. split; [discriminate|exact Hm].
  - intros lang name providers m marks a _. apply detectors_loaded.
Qed.

End Models.

(** ** [initialize] *)

Section Initialize.

Variable lib : Library.

(** One of the two conditional loads of [initialize]. *)
Lemma scoped_load_returns (cond : bool) lang name (acc : list str) s0 names s1 :
  (if cond
   then _load_model lib lang name false ;; ret (acc ++ [name])
   else ret acc) s0 = (Ok names, s1) ->
  names = acc ++ (if cond then [name] else [])
  /\ (if cond
      then exists m,
             _models (engine s1)
             = Py.set (_models (engine s0)) lang
                 (with_vad m (_vad (engine s0)))
      else _models (engine s1) = _models (engine s0))
  /\ _vad (engine s1) = _vad (engine s0)
  /\ _language (engine s1) = _language (engine s0).
Proof.
  destruct cond.
  - unfold bind.
    destruct (_load_model lib lang name false s0) as [[[]|e] s'] eqn:El;
      [|discriminate].
    intros [= <- <-].
    destruct (load_model_returns _ _ _ _ _ _ El) as [m [Hm [Hv [Hl _]]]].
    split; [reflexivity|]. split; [now exists m|]. auto.
  - intros [= <- <-]. rewrite app_nil_r. auto.
Qed.

(** What a run of [initialize] that returns has done. *)
Lemma initialize_returns st names st' :
  initialize lib st = (Ok names, st') ->
  let scope := languages_in_scope (_language (engine st)) in
  exists vad,
    load_vad lib (history st) (Py.lit "silero") = Returns vad
    /\ _vad (engine st') = Some vad
    /\ _language (engine st') = _language (engine st)
    /\ names = List.map (model_name_of (engine st)) scope
    /\ (forall l, In l scope ->
          exists m, stored_model st' l = Some (with_vad m (Some vad)))
    /\ (forall l, ~ In l scope -> stored_model st' l = stored_model st l)
    /\ model_languages st'
       = model_languages st
         ++ List.filter (fun l => negb (Py.has (_models (engine st)) l)) scope.
Proof.
  unfold initialize, bind at 1, onnx_asr_load_vad.
  destruct (load_vad lib (history st) (Py.lit "silero")) as [vad|msg];
    cbn [outcome]; [|discriminate].
  unfold bind at 1, modify_engine, bind at 1, get_engine at 1, set_engine.
  cbn [engine record_call history log].
  set (s := {| engine := with_vad_attr (Some vad) (engine st);
               history := history st ++ [LoadVad (Py.lit "silero")];
               log := log st |}).
  unfold bind at 1, get_engine at 1.
  unfold bind at 1.
  destruct ((if Py.eqb (_language (engine s)) (Py.lit "ru")
                || Py.eqb (_language (engine s)) (Py.lit "auto")
             then _load_model lib (Py.lit "ru") (_russian_model_name (engine s)) false ;;
                  ret ([] ++ [_russian_model_name (engine s)])
             else ret []) s) as [[names1|e1] s1] eqn:E1; [|discriminate].
  apply scoped_load_returns in E1. destruct E1 as [N1 [M1 [V1 L1]]].
  unfold bind at 1.
  destruct ((if Py.eqb (_language (engine s)) (Py.lit "en")
                || Py.eqb (_language (engine s)) (Py.lit "auto")
             then _load_model lib (Py.lit "en") (_english_model_name (engine s)) false ;;
                  ret (names1 ++ [_english_model_name (engine s)])
             else ret names1) s1) as [[names2|e2] s2] eqn:E2; [|discriminate].
  apply scoped_load_returns in E2. destruct E2 as [N2 [M2 [V2 L2]]].
  intros [= <- <-].
  exists vad. split; [reflexivity|].
  split; [now rewrite V2, V1|]. split; [now rewrite L2, L1|].
  unfold languages_in_scope, stored_model, model_languages.
  change (_language (engine s)) with (_language (engine st)) in *.
  change (_russian_model_name (engine s))
    with (_russian_model_name (engine st)) in *.
  change (_english_model_name (engine s))
    with (_english_model_name (engine st)) in *.
  change (_models (engine s)) with (_models (engine st)) in *.
  change (_vad (engine s)) with (Some vad) in *.
  rewrite V1 in M2.
  assert (Hne : Py.lit "ru" <> Py.lit "en") by discriminate.
  assert (Hen : Py.lit "en" <> Py.lit "ru") by discriminate.
  destruct (Py.eqb (_language (engine st)) (Py.lit "ru")
            || Py.eqb (_language (engine st)) (Py.lit "auto"));
    destruct (Py.eqb (_language (engine st)) (Py.lit "en")
              || Py.eqb (_language (engine st)) (Py.lit "auto"));
    subst names2 names1; cbn [app List.map List.filter].
  - destruct M1 as [m1 M1]. destruct M2 as [m2 M2]. rewrite M2, M1.
    split; [reflexivity|]. split; [|split].
    + intros l [<-|[<-|[]]].
      * exists m1. rewrite py_get_set_other by exact Hne.
        apply py_get_set_same.
      * exists m2. apply py_get_set_same.
    + intros l Hl. rewrite !py_get_set_other; auto.
      * intros ->. apply Hl. now left.
      * intros ->. apply Hl. right. now left.
    + rewrite !py_set_keys, py_has_set. cbn [Py.eqb Py.lit List.map].
      change (Py.eqb (Py.lit "en") (Py.lit "ru")) with false.
      cbn [orb].
      destruct (Py.has (_models (engine st)) (Py.lit "ru"));
        destruct (Py.has (_models (engine st)) (Py.lit "en"));
        cbn [negb app]; rewrite <- ?app_assoc, ?app_nil_r; reflexivity.
  - destruct M1 as [m1 M1]. rewrite M2, M1.
    split; [reflexivity|]. split; [|split].
    + intros l [<-|[]]. exists m1. apply py_get_set_same.
    + intros l Hl. rewrite py_get_set_other; auto.
      intros ->. apply Hl. now left.
    + rewrite py_set_keys.
      destruct (Py.has (_models (engine st)) (Py.lit "ru"));
        cbn [negb app]; rewrite ?app_nil_r; reflexivity.
  - destruct M2 as [m2 M2]. rewrite M2, M1.
    split; [reflexivity|]. split; [|split].
    + intros l [<-|[]]. exists m2. apply py_get_set_same.
    + intros l Hl. rewrite py_get_set_other; auto.
      intros ->. apply Hl. now left.
    + rewrite py_set_keys.
      destruct (Py.has (_models (engine st)) (Py.lit "en"));
        cbn [negb app]; rewrite ?app_nil_r; reflexivity.
  - rewrite M2, M1. split; [reflexivity|]. split; [|split].
    + intros l [].
    + reflexivity.
    + now rewrite app_nil_r.
Qed.

End Initialize.

Section InitializeFacts.

Variable lib : Library.

(** X1. A run of [initialize] that returns has loaded the detector
    "silero" and set it on the engine; it has stored, for "ru" and then for
    "en", each when it is the configured language or that language is
    "auto", a model composed with this detector; it returns the names of
    these models in this order; and it has touched the model of no other
    language, the stored models keeping their places with the new ones
    after them.  So an engine configured for any other language code
    initialises with no model at all. *)
Theorem initialize_loads_scope (st : State) (names : list str) (st' : State) :
  initialize lib st = (Ok names, st') ->
  let scope := languages_in_scope (_language (engine st)) in
  exists vad,
    load_vad lib (history st) (Py.lit "silero") = Returns vad
    /\ _vad (engine st') = Some vad
    /\ _language (engine st') = _language (engine st)
    /\ names = List.map (model_name_of (engine st)) scope
    /\ (forall l, In l scope ->
          exists m, stored_model st' l = Some (with_vad m (Some vad)))
    /\ (forall l, ~ In l scope -> stored_model st' l = stored_model st l)
    /\ model_languages st'
       = model_languages st
         ++ List.filter (fun l => negb (Py.has (_models (engine st)) l)) scope
    /\ (_language (engine st) <> Py.lit "ru" ->
        _language (engine st) <> Py.lit "en" ->
        _language (engine st) <> Py.lit "auto" ->
        names = [] /\ _models (engine st') = _models (engine st)).
Proof.
  intros H scope.
  destruct (initialize_returns lib _ _ _ H)
    as [vad [Hv [Hvad [Hl [Hn [Hin [Hout Hkeys]]]]]]].
  exists vad. repeat (split; [assumption|]).
  intros Hru Hen Hauto.
  apply py_eqb_neq in Hru, Hen, Hauto.
  unfold languages_in_scope in Hn, Hkeys. rewrite Hru, Hen, Hauto in Hn, Hkeys.
  cbn in Hn, Hkeys. split; [exact Hn|].
  clear - H Hru Hen Hauto.
  revert H. unfold initialize, bind at 1, onnx_asr_load_vad.
  destruct (load_vad lib (history st) (Py.lit "silero")) as [vad|msg];
    cbn [outcome]; [|discriminate].
  unfold bind at 1, modify_engine, bind at 1, get_engine at 1, set_engine.
  cbn [engine record_call history log].
  unfold bind at 1, get_engine at 1.
  cbn [engine with_vad_attr _language].
  rewrite Hru, Hen, Hauto. cbn. intros [= _ <-]. reflexivity.
Qed.

(** One of the two conditional loads of [initialize], when it raises. *)
Lemma scoped_load_raises (cond : bool) lang name (acc : list str) s0 e0 s1 :
  (if cond
   then _load_model lib lang name false ;; ret (acc ++ [name])
   else ret acc) s0 = (Err e0, s1) ->
  cond = true /\ from_library e0 /\ engine s1 = engine s0.
Proof.
  destruct cond; [|discriminate].
  unfold bind.
  destruct (_load_model lib lang name false s0) as [[[]|e1] s2] eqn:El;
    [discriminate|].
  intros [= <- <-].
  destruct (load_model_raises lib _ _ _ _ _ _ El) as [Hf [He _]]. auto.
Qed.

(** [initialize] raises nothing but what a library raised. *)
Lemma initialize_error st e st' :
  initialize lib st = (Err e, st') -> from_library e.
Proof.
  unfold initialize, bind at 1, onnx_asr_load_vad.
  destruct (load_vad lib (history st) (Py.lit "silero")) as [vad|msg];
    cbn [outcome].
  2: { intros [= <- _]. now exists msg. }
  unfold bind at 1, modify_engine, bind at 1, get_engine at 1, set_engine.
  unfold bind at 1, get_engine at 1.
  unfold bind at 1.
  match goal with
  | |- (let (r, s) := ?m ?s0 in _) = _ -> _ =>
      destruct (m s0) as [[names1|e1] s1] eqn:E1
  end.
  - unfold bind at 1.
    match goal with
    | |- (let (r, s) := ?m s1 in _) = _ -> _ =>
        destruct (m s1) as [[names2|e2] s2] eqn:E2; [discriminate|]
    end.
    intros [= <- _]. now destruct (scoped_load_raises _ _ _ _ _ _ _ E2) as [_ [Hf _]].
  - intros [= <- _]. now destruct (scoped_load_raises _ _ _ _ _ _ _ E1) as [_ [Hf _]].
Qed.

(** X2. A run of [initialize] that raises has raised what a library raised.
    When the detector cannot be loaded its error is the one raised, after
    that single call and with the engine as it was; otherwise the detector
    stays set on the engine, and the engine was configured for "ru", "en"
    or "auto": with any other language nothing can fail past the
    detector. *)
Theorem initialize_raises (st : State) (e : Exception) (st' : State) :
  initialize lib st = (Err e, st') ->
  from_library e
  /\ (forall msg,
        load_vad lib (history st) (Py.lit "silero") = Raises msg ->
        e = Raised msg
        /\ st' = record_call (LoadVad (Py.lit "silero")) st)
  /\ (forall vad,
        load_vad lib (history st) (Py.lit "silero") = Returns vad ->
        _vad (engine st') = Some vad
        /\ languages_in_scope (_language (engine st)) <> []).
Proof.
  intros H. split; [exact (initialize_error _ _ _ H)|]. revert H.
  unfold initialize, bind at 1, onnx_asr_load_vad.
  destruct (load_vad lib (history st) (Py.lit "silero")) as [vad|msg];
    cbn [outcome].
  2: { intros [= <- <-]. split; [|discriminate]. now intros msg' [= <-]. }
  unfold bind at 1, modify_engine, bind at 1, get_engine at 1, set_engine.
  cbn [engine record_call history log].
  set (s := {| engine := with_vad_attr (Some vad) (engine st);
               history := history st ++ [LoadVad (Py.lit "silero")];
               log := log st |}).
  unfold bind at 1, get_engine at 1.
  unfold languages_in_scope.
  change (_language (engine s)) with (_language (engine st)).
  unfold bind at 1.
  destruct ((if Py.eqb (_language (engine st)) (Py.lit "ru")
                || Py.eqb (_language (engine st)) (Py.lit "auto")
             then _load_model lib (Py.lit "ru") (_russian_model_name (engine s)) false ;;
                  ret ([] ++ [_russian_model_name (engine s)])
             else ret []) s) as [[names1|e1] s1] eqn:E1.
  - apply scoped_load_returns in E1. destruct E1 as [_ [_ [V1 _]]].
    unfold bind at 1.
    destruct ((if Py.eqb (_language (engine st)) (Py.lit "en")
                  || Py.eqb (_language (engine st)) (Py.lit "auto")
               then _load_model lib (Py.lit "en") (_english_model_name (engine s)) false ;;
                    ret (names1 ++ [_english_model_name (engine s)])
               else ret names1) s1) as [[names2|e2] s2] eqn:E2;
      [discriminate|].
    intros [= <- <-].
    destruct (scoped_load_raises _ _ _ _ _ _ _ E2) as [C2 [_ He]].
    split; [discriminate|].
    intros vad' [= <-]. split; [now rewrite He, V1|].
    rewrite C2. intros Habs. apply app_eq_nil in Habs.
    destruct Habs; discriminate.
  - intros [= <- <-].
    destruct (scoped_load_raises _ _ _ _ _ _ _ E1) as [C1 [_ He]].
    split; [discriminate|].
    intros vad' [= <-]. split; [now rewrite He|].
    rewrite C1. discriminate.
Qed.

(** X3. Once an engine just created has been initialised, every model it
    ever stores has the detector composed in, whatever operations follow and
    whether they return or raise. *)
Theorem initialised_models_have_detector
    (russian_model english_model language : str) (calls : list Call)
    (warnings : list Warning) (names : list str) (st1 : State)
    (ops : list Operation) :
  initialize lib
    {| engine := ASREngine_init russian_model english_model language;
       history := calls; log := warnings |} = (Ok names, st1) ->
  detectors_composed (run_operations lib ops st1).
Proof.
  intros H. apply detectors_operations.
  destruct (initialize_returns lib _ _ _ H)
    as [vad [_ [Hvad [_ [_ [Hin [_ Hkeys]]]]]]].
  split; [rewrite Hvad; discriminate|].
  intros l model Hl.
  assert (Hhas : In l (model_languages st1)).
  { apply py_has_in. unfold Py.has. unfold stored_model in Hl. now rewrite Hl. }
  rewrite Hkeys in Hhas. cbn [model_languages engine ASREngine_init _models
    List.map app Py.has Py.get negb] in Hhas.
  apply filter_In in Hhas. destruct Hhas as [Hscope _].
  destruct (Hin l Hscope) as [m Hm]. rewrite Hm in Hl.
  injection Hl as <-. discriminate.
Qed.

(** X4. No operation of the engine removes a model or moves one in the
    dictionary: after any sequence of operations, returning or raising, the
    languages that have a model are those that had one, in the same order,
    followed by the languages loaded since. *)
Theorem operations_keep_models (ops : list Operation) (st : State) :
  (exists more,
      model_languages (run_operations lib ops st) = model_languages st ++ more)
  /\ (forall l,
        Py.has (_models (engine st)) l = true ->
        Py.has (_models (engine (run_operations lib ops st))) l = true).
Proof.
  pose proof (models_order_operations lib ops st) as [more H].
  split; [now exists more|].
  intros l Hl. apply py_has_in. apply py_has_in in Hl.
  fold (model_languages (run_operations lib ops st)). rewrite H.
  apply in_or_app. now left.
Qed.

(** X5. In every state of an engine, from its creation on, the languages
    that have a model are distinct and among "ru" and "en", so that the
    engine holds two models at most, and every language marked CPU-only has
    a model. *)
Theorem reachable_models_supported (st : State) :
  reachable lib st ->
  NoDup (model_languages st)
  /\ (forall l, In l (model_languages st) -> supported l)
  /\ (length (_models (engine st)) <= 2)%nat
  /\ (forall l, cpu_only st l = true -> In l (model_languages st)).
Proof.
  intros Hr.
  assert (Hnd : NoDup (model_languages st)).
  { induction Hr as [rm em language calls warnings|st op Hr IH].
    - constructor.
    - now apply models_nodup_operation. }
  destruct (reachable_inv lib st Hr) as [Hsup Hmarks].
  assert (Hin : forall l, In l (model_languages st) -> supported l).
  { intros l Hl. apply Hsup. now apply py_has_in. }
  split; [exact Hnd|]. split; [exact Hin|]. split.
  - assert (Hincl : incl (model_languages st) [Py.lit "ru"; Py.lit "en"]).
    { intros l Hl. destruct (Hin l Hl) as [-> | ->]; cbn; auto. }
    pose proof (NoDup_incl_length Hnd Hincl) as Hlen.
    unfold model_languages in Hlen. rewrite length_map in Hlen. exact Hlen.
  - intros l Hl. apply py_has_in. now apply Hmarks.
Qed.

End InitializeFacts.

(** An engine for "auto", initialised against a library that loads every
    model, holds the English model with the detector composed in. *)
Lemma initialize_loads_scope_witness :
  exists m,
    stored_model (Scenario.initialised (Scenario.obliging []) (Py.lit "auto"))
      (Py.lit "en")
    = Some (with_vad m (Some 0%nat)).
Proof.
  assert (H : initialize (Scenario.obliging []) (Fixture.fresh (Py.lit "auto"))
              = (Ok [Py.lit "gigaam-v3-rnnt"; Py.lit "whisper-base"],
                 Scenario.initialised (Scenario.obliging []) (Py.lit "auto")))
    by (vm_compute; reflexivity).
  destruct (initialize_loads_scope _ _ _ _ H)
    as [vad [Hv [_ [_ [_ [Hin _]]]]]].
  injection Hv as <-. apply Hin. right. left. reflexivity.
Defined.

(** Without a detector the initialisation stops at once. *)
Lemma initialize_raises_witness :
  from_library (Raised (Py.lit "silero: no such model"))
  /\ Scenario.initialised Scenario.no_detector (Py.lit "ru")
     = record_call (LoadVad (Py.lit "silero")) (Fixture.fresh (Py.lit "ru")).
Proof.
  assert (H : initialize Scenario.no_detector (Fixture.fresh (Py.lit "ru"))
              = (Err (Raised (Py.lit "silero: no such model")),
                 Scenario.initialised Scenario.no_detector (Py.lit "ru")))
    by (vm_compute; reflexivity).
  destruct (initialize_raises _ _ _ _ H) as [Hlib [Hvad _]].
  split; [exact Hlib|].
  apply (Hvad (Py.lit "silero: no such model")). reflexivity.
Defined.

(** A Russian engine keeps the detector in its models through a switch to
    "auto", which loads the English model, and a recognition. *)
Lemma initialised_models_have_detector_witness :
  detectors_composed
    (run_operations (Scenario.obliging [])
       [OpSetLanguage (Py.lit "auto"); OpRecognize Example.clip 16000 None]
       (Scenario.initialised (Scenario.obliging []) (Py.lit "ru"))).
Proof.
  apply (initialised_models_have_detector (Scenario.obliging [])
           (Py.lit "gigaam-v3-rnnt") (Py.lit "whisper-base") (Py.lit "ru")
           [] [] [Py.lit "gigaam-v3-rnnt"]).
  vm_compute. reflexivity.
Defined.

(** The engine of the examples, fallen back to the CPU for Russian. *)
Lemma reachable_models_supported_witness :
  NoDup (model_languages Example.fallen_back)
  /\ (forall l, In l (model_languages Example.fallen_back) -> supported l)
  /\ (length (_models (engine Example.fallen_back)) <= 2)%nat
  /\ (forall l,
        cpu_only Example.fallen_back l = true ->
        In l (model_languages Example.fallen_back)).
Proof.
  apply (reachable_models_supported Example.failing_coreml).
  apply (reach_step Example.failing_coreml _
           (OpRecognize Example.clip 16000 None)
           (reach_step Example.failing_coreml _ OpInitialize
              (reach_init Example.failing_coreml
                 (Py.lit "gigaam-v3-rnnt") (Py.lit "whisper-base")
                 (Py.lit "ru") [] []))).
Defined.

(** ** [set_language] *)

Section SetLanguage.

Variable lib : Library.

(** The load of a language that has no model yet. *)
Lemma load_missing_facts lang name s0 r s1 :
  (if negb (Py.has (_models (engine s0)) lang)
   then _load_model lib lang name false
   else ret tt) s0 = (r, s1) ->
  _language (engine s1) = _language (engine s0)
  /\ (forall l, Py.has (_models (engine s0)) l = true ->
        stored_model s1 l = stored_model s0 l)
  /\ (r = Ok tt -> Py.has (_models (engine s1)) lang = true)
  /\ (forall e, r = Err e ->
        from_library e /\ stored_model s1 lang = None)
  /\ (Py.has (_models (engine s0)) lang = true -> r = Ok tt /\ s1 = s0).
Proof.
  destruct (Py.has (_models (engine s0)) lang) eqn:Eh; cbn [negb].
  - intros [= <- <-]. repeat split; auto; discriminate.
  - intros H. destruct r as [[]|e].
    + destruct (load_model_returns lib _ _ _ _ _ H) as [m [Hm [_ [Hl _]]]].
      split; [exact Hl|]. split; [|split; [|split]].
      * intros l Hl'. unfold stored_model. rewrite Hm.
        apply py_get_set_other. intros ->. congruence.
      * intros _. rewrite Hm, py_has_set, py_eqb_refl. reflexivity.
      * discriminate.
      * discriminate.
    + destruct (load_model_raises lib _ _ _ _ _ _ H) as [Hf [He _]].
      split; [now rewrite He|]. split; [|split; [|split]].
      * intros l _. unfold stored_model. now rewrite He.
      * discriminate.
      * intros e' [= <-]. split; [exact Hf|].
        unfold stored_model. rewrite He. now apply py_get_none_has.
      * discriminate.
Qed.

(** What a run of [set_language] does, returning or raising. *)
Lemma set_language_facts language st r st' :
  set_language lib language st = (r, st') ->
  let scope := languages_in_scope language in
  _language (engine st') = language
  /\ (forall l, Py.has (_models (engine st)) l = true ->
        stored_model st' l = stored_model st l)
  /\ (r = Ok tt ->
      forall l, In l scope -> Py.has (_models (engine st')) l = true)
  /\ (forall e, r = Err e ->
        from_library e /\ exists l, In l scope /\ stored_model st' l = None)
  /\ ((forall l, In l scope -> Py.has (_models (engine st)) l = true) ->
      r = Ok tt /\ st' = with_active_language language st).
Proof.
  cbv zeta. unfold languages_in_scope.
  destruct (Py.eqb language (Py.lit "ru")) eqn:Eru.
  { apply py_eqb_eq in Eru. subst language.
    unfold set_language, bind at 1, modify_engine, bind at 1, get_engine at 1,
      set_engine.
    fold (with_active_language (Py.lit "ru") st).
    set (s := with_active_language (Py.lit "ru") st).
    unfold bind at 1, get_engine at 1.
    change (Py.eqb (Py.lit "ru") (Py.lit "ru")) with true.
    change (Py.eqb (Py.lit "ru") (Py.lit "en")) with false.
    change (Py.eqb (Py.lit "ru") (Py.lit "auto")) with false.
    cbn [andb orb app].
    intros H.
    assert (H' : (if negb (Py.has (_models (engine s)) (Py.lit "ru"))
                  then _load_model lib (Py.lit "ru")
                         (_russian_model_name (engine s)) false
                  else ret tt) s = (r, st')).
    { destruct (Py.has (_models (engine s)) (Py.lit "ru")); exact H. }
    destruct (load_missing_facts _ _ _ _ _ H') as [F1 [F2 [F3 [F4 F5]]]].
    split; [now rewrite F1|]. split; [|split; [|split]].
    - intros l Hl. now rewrite F2.
    - intros Hr l [<-|[]]. auto.
    - intros e He. destruct (F4 e He) as [Hf Hn]. split; [exact Hf|].
      exists (Py.lit "ru"). split; [now left|exact Hn].
    - intros Hall. apply F5. apply Hall. now left. }
  destruct (Py.eqb language (Py.lit "en")) eqn:Een.
  { apply py_eqb_eq in Een. subst language.
    unfold set_language, bind at 1, modify_engine, bind at 1, get_engine at 1,
      set_engine.
    fold (with_active_language (Py.lit "en") st).
    set (s := with_active_language (Py.lit "en") st).
    unfold bind at 1, get_engine at 1.
    change (Py.eqb (Py.lit "en") (Py.lit "ru")) with false.
    change (Py.eqb (Py.lit "en") (Py.lit "en")) with true.
    change (Py.eqb (Py.lit "en") (Py.lit "auto")) with false.
    cbn [andb orb app].
    intros H.
    assert (H' : (if negb (Py.has (_models (engine s)) (Py.lit "en"))
                  then _load_model lib (Py.lit "en")
                         (_english_model_name (engine s)) false
                  else ret tt) s = (r, st')).
    { destruct (Py.has (_models (engine s)) (Py.lit "en")); exact H. }
    destruct (load_missing_facts _ _ _ _ _ H') as [F1 [F2 [F3 [F4 F5]]]].
    split; [now rewrite F1|]. split; [|split; [|split]].
    - intros l Hl. now rewrite F2.
    - intros Hr l [<-|[]]. auto.
    - intros e He. destruct (F4 e He) as [Hf Hn]. split; [exact Hf|].
      exists (Py.lit "en"). split; [now left|exact Hn].
    - intros Hall. apply F5. apply Hall. now left. }
  unfold set_language, bind at 1, modify_engine, bind at 1, get_engine at 1,
    set_engine.
  fold (with_active_language language st).
  unfold bind at 1, get_engine at 1.
  rewrite Eru, Een. cbn [andb orb].
  destruct (Py.eqb language (Py.lit "auto")) eqn:Eauto.
  2: { cbn [app]. intros [= <- <-].
       split; [reflexivity|]. split; [reflexivity|].
       split; [intros _ l []|]. split; [discriminate|]. auto. }
  cbn [app]. unfold bind at 1.
  set (s := with_active_language language st).
  destruct ((if negb (Py.has (_models (engine s)) (Py.lit "ru"))
             then _load_model lib (Py.lit "ru") (_russian_model_name (engine s)) false
             else ret tt) s) as [r1 s1] eqn:E1.
  destruct (load_missing_facts _ _ _ _ _ E1) as [F1 [F2 [F3 [F4 F5]]]].
  destruct r1 as [[]|e1].
  2: { intros [= <- <-]. split; [now rewrite F1|]. split; [|split; [|split]].
       - intros l Hl. now rewrite F2.
       - discriminate.
       - intros e [= <-]. destruct (F4 e1 eq_refl) as [Hf Hn].
         split; [exact Hf|]. exists (Py.lit "ru"). split; [now left|exact Hn].
       - intros Hall. destruct F5 as [F5 _]; [|discriminate].
         apply Hall. now left. }
  unfold bind at 1, get_engine at 1. intros E2.
  destruct (load_missing_facts _ _ _ _ _ E2) as [G1 [G2 [G3 [G4 G5]]]].
  assert (Hkept : forall l, Py.has (_models (engine s)) l = true ->
                            Py.has (_models (engine s1)) l = true).
  { intros l Hl. pose proof (F2 l Hl) as Hk. unfold stored_model in Hk.
    unfold Py.has in *. rewrite Hk. exact Hl. }
  split; [now rewrite G1, F1|]. split; [|split; [|split]].
  - intros l Hl. rewrite G2 by (apply Hkept; exact Hl). now rewrite F2.
  - intros Hr l [<-|[<-|[]]].
    + pose proof (F3 eq_refl) as Hru. pose proof (G2 _ Hru) as Hk.
      unfold stored_model in Hk. unfold Py.has in *. now rewrite Hk.
    + auto.
  - intros e He. destruct (G4 e He) as [Hf Hn]. split; [exact Hf|].
    exists (Py.lit "en"). split; [right; now left|exact Hn].
  - intros Hall.
    destruct F5 as [_ F5]; [apply Hall; now left|]. subst s1.
    apply G5. apply Hall. right. now left.
Qed.

End SetLanguage.

Section SetLanguageFacts.

Variable lib : Library.

(** X6. [set_language] records the language on the engine whether it
    returns or raises, and loads only what is missing: a model already
    stored is left as it is; when every language the new setting needs has
    a model, or the setting is no language the engine knows, it returns
    without a call into a library and changes nothing else; and when it
    returns, every language the setting needs has a model. *)
Theorem set_language_loads_missing_only (language : str) (st : State) :
  let run := set_language lib language st in
  let scope := languages_in_scope language in
  _language (engine (snd run)) = language
  /\ (forall l, Py.has (_models (engine st)) l = true ->
        stored_model (snd run) l = stored_model st l)
  /\ (fst run = Ok tt ->
      forall l, In l scope -> Py.has (_models (engine (snd run))) l = true)
  /\ ((forall l, In l scope -> Py.has (_models (engine st)) l = true) ->
      run = (Ok tt, with_active_language language st)).
Proof.
  cbv zeta.
  destruct (set_language lib language st) as [r st'] eqn:E.
  destruct (set_language_facts lib _ _ _ _ E) as [F1 [F2 [F3 [_ F5]]]].
  cbn [fst snd]. split; [exact F1|]. split; [exact F2|].
  split; [exact F3|].
  intros Hall. destruct (F5 Hall) as [-> ->]. reflexivity.
Qed.

(** X7. When [set_language] raises for "ru" or "en", it has raised what the
    library raised on the load of the missing model, and the engine is left
    switched to that language with no model for it: a [recognize] that names
    no language then raises the "no model loaded" error, with no call into
    a library. *)
Theorem set_language_failure_leaves_no_model (l : str) (st : State)
    (e : Exception) (st' : State) :
  supported l ->
  set_language lib l st = (Err e, st') ->
  from_library e
  /\ _language (engine st') = l
  /\ stored_model st' l = None
  /\ forall audio sample_rate,
       recognize lib audio sample_rate None st'
       = (Err (NoModelLoaded l), st').
Proof.
  intros Hsup H.
  destruct (set_language_facts lib _ _ _ _ H) as [F1 [_ [_ [F4 _]]]].
  destruct (F4 e eq_refl) as [Hf [l' [Hin Hnone]]].
  assert (l' = l).
  { destruct Hsup as [-> | ->]; cbn in Hin; destruct Hin as [<-|[]];
      reflexivity. }
  subst l'. split; [exact Hf|]. split; [exact F1|]. split; [exact Hnone|].
  intros audio sample_rate.
  assert (Hres : resolve_language lib audio sample_rate None st' = (l, st')).
  { unfold resolve_language. cbn [Py.or_else]. rewrite F1.
    destruct (supported_pinned _ Hsup) as [_ Hauto].
    apply py_eqb_neq in Hauto. now rewrite Hauto. }
  now rewrite (recognize_resolved _ _ _ _ _ _ _ Hres), Hnone.
Qed.

End SetLanguageFacts.

(** A Russian engine cannot be switched to English when the library loads
    no model: it stays switched, with nothing to recognise with. *)
Lemma set_language_failure_leaves_no_model_witness :
  recognize Scenario.no_models Example.clip 16000 None
    (run_operation Scenario.no_models (OpSetLanguage (Py.lit "en"))
       (Example.engine_with (Py.lit "ru")
          [(Py.lit "ru", Example.ru_model)] []))
  = (Err (NoModelLoaded (Py.lit "en")),
     run_operation Scenario.no_models (OpSetLanguage (Py.lit "en"))
       (Example.engine_with (Py.lit "ru")
          [(Py.lit "ru", Example.ru_model)] [])).
Proof.
  apply (set_language_failure_leaves_no_model Scenario.no_models (Py.lit "en")
           (Example.engine_with (Py.lit "ru")
              [(Py.lit "ru", Example.ru_model)] [])
           (Raised Fixture.unexpected_error)).
  - right. reflexivity.
  - vm_compute. reflexivity.
Defined.

(** ** [recognize] *)

Section RecognizeFacts.

Variable lib : Library.

Lemma resolve_language_same_engine audio sample_rate language st lang st1 :
  resolve_language lib audio sample_rate language st = (lang, st1) ->
  engine st1 = engine st.
Proof.
  unfold resolve_language. destruct (Py.eqb _ _).
  - rewrite detect_language_eq. now intros [= <- <-].
  - now intros [= <- <-].
Qed.

(** What [recognize] returns is what a model yielded, normalised for the
    resolved language. *)
Lemma recognize_ok_resolved audio sample_rate language st lang st1 segments st' :
  resolve_language lib audio sample_rate language st = (lang, st1) ->
  recognize lib audio sample_rate language st = (Ok segments, st') ->
  exists raw, segments = segments_of lang raw.
Proof.
  intros Hres. rewrite (recognize_resolved _ _ _ _ _ _ _ Hres).
  destruct (stored_model st1 lang) as [model|]; [|discriminate].
  unfold try_except. rewrite run_recognition_eq.
  destruct (model_recognize lib (history st1) model audio sample_rate)
    as [raw|msg]; cbn [rmap outcome].
  - intros [= <- _]. now exists raw.
  - intros H. eapply recognize_except_ok; eauto.
Qed.

Lemma segments_of_labelled lang raw : Forall (labelled lang) (segments_of lang raw).
Proof.
  unfold segments_of. apply Forall_forall. intros seg Hin.
  apply in_map_iff in Hin. destruct Hin as [r [<- _]]. now split.
Qed.

(** For a language the engine has a model name for, the [except] clause of
    [recognize] raises nothing but what the libraries raised. *)
Lemma recognize_except_supported audio sample_rate lang msg st e st' :
  supported lang ->
  recognize_except lib audio sample_rate lang (Raised msg) st = (Err e, st') ->
  from_library e.
Proof.
  intros Hsup.
  unfold recognize_except, bind at 1, get_engine at 1.
  destruct (Py.mem lang _ || negb _).
  { intros [= <- _]. now exists msg. }
  unfold bind at 1.
  rewrite model_name_for_language_supported by exact Hsup.
  unfold bind at 1, logger_warning at 1.
  unfold bind at 1.
  split_forced_load.
  2: { intros [= <- _]. now eexists. }
  unfold bind at 1, get_engine at 1.
  cbn [engine loaded _models with_models].
  rewrite py_get_set_same, run_recognition_eq.
  match goal with
  | |- context [outcome ?a] => destruct a
  end; cbn [rmap outcome]; [discriminate|].
  intros [= <- _]. now eexists.
Qed.

(** On an engine whose models are all for languages it knows, [recognize]
    raises what the libraries raised or the error for a language without a
    model. *)
Lemma recognize_inv_errors audio sample_rate language st lang st1 e st' :
  engine_inv (engine st) ->
  resolve_language lib audio sample_rate language st = (lang, st1) ->
  recognize lib audio sample_rate language st = (Err e, st') ->
  from_library e
  \/ (e = NoModelLoaded lang /\ stored_model st1 lang = None).
Proof.
  intros Hinv Hres. rewrite (recognize_resolved _ _ _ _ _ _ _ Hres).
  destruct (stored_model st1 lang) as [model|] eqn:Hm.
  2: { intros [= <- _]. right. auto. }
  intros H. left. revert H. unfold try_except. rewrite run_recognition_eq.
  destruct (model_recognize lib (history st1) model audio sample_rate)
    as [raw|msg]; cbn [rmap outcome]; [discriminate|].
  apply recognize_except_supported.
  destruct Hinv as [Hsup _]. apply Hsup.
  rewrite <- (resolve_language_same_engine _ _ _ _ _ _ Hres).
  unfold stored_model in Hm. unfold Py.has. now rewrite Hm.
Qed.

(** X8. Every segment [recognize] returns carries the language the request
    resolved to (the one asked for, else the one of the engine, else the one
    detected), has no source, and the segments are those the model yielded
    whose text is not blank, in the order the model yielded them, each with
    its text trimmed and a missing time read as zero. *)
Theorem recognize_labels_segments (st : State) (audio : list float)
    (sample_rate : Z) (language : option str) (lang : str) (st1 : State)
    (segments : list Segment) (st' : State) :
  resolve_language lib audio sample_rate language st = (lang, st1) ->
  recognize lib audio sample_rate language st = (Ok segments, st') ->
  Forall (labelled lang) segments
  /\ exists raw,
       segments = List.map (to_segment lang) (List.filter kept raw)
       /\ exists model,
            stored_model st' lang = Some model
            /\ last (history st') (LoadVad []) = Recognize model audio sample_rate
            /\ model_recognize lib (removelast (history st')) model audio
                 sample_rate = Returns raw.
Proof.
  intros Hres H.
  destruct (recognize_ok_resolved _ _ _ _ _ _ _ _ Hres H) as [raw0 H0].
  split; [subst segments; apply segments_of_labelled|].
  clear raw0 H0. revert H.
  rewrite (recognize_resolved _ _ _ _ _ _ _ Hres).
  destruct (stored_model st1 lang) as [model|] eqn:Hm; [|discriminate].
  unfold try_except. rewrite run_recognition_eq.
  destruct (model_recognize lib (history st1) model audio sample_rate)
    as [raw|msg] eqn:Hrec; cbn [rmap outcome].
  - intros [= <- <-]. exists raw. split; [reflexivity|]. exists model.
    unfold stored_model in *. cbn [record_call engine history].
    rewrite Hm, last_last, removelast_last. auto.
  - unfold recognize_except, bind at 1, get_engine at 1.
    destruct (Py.mem lang _ || negb _); [discriminate|].
    unfold bind at 1, _model_name_for_language, bind at 1, get_engine at 1.
    destruct (Py.eqb lang (Py.lit "ru")) eqn:Eru;
      [|destruct (Py.eqb lang (Py.lit "en")) eqn:Een].
    3: discriminate.
    all: unfold ret at 1; unfold bind at 1, logger_warning at 1;
      unfold bind at 1;
      split_forced_load; [|discriminate];
      unfold bind at 1, get_engine at 1;
      cbn [engine loaded _models with_models];
      rewrite py_get_set_same, run_recognition_eq;
      match goal with
      | |- context [outcome ?a] => destruct a as [raw'|msg'] eqn:Hrec'
      end; cbn [rmap outcome]; [|discriminate];
      intros [= <- <-]; exists raw'; (split; [reflexivity|]);
      eexists; unfold stored_model;
      cbn [record_call engine history loaded with_models _models];
      rewrite py_get_set_same, last_last, removelast_last;
      (split; [reflexivity|]); (split; [reflexivity|]); exact Hrec'.
Qed.

(** X9. For a language the engine has no model name for, a model stored
    under it that fails with the CoreML signature is not reloaded:
    [recognize] raises the "unknown language" error after that single
    inference, marks nothing and logs nothing.  No engine driven through
    its operations stores such a model. *)
Theorem recognize_unknown_language (st : State) (audio : list float)
    (sample_rate : Z) (language : option str) (lang : str) (st1 : State)
    (model : Model) (msg : str) :
  resolve_language lib audio sample_rate language st = (lang, st1) ->
  ~ supported lang ->
  stored_model st1 lang = Some model ->
  model_recognize lib (history st1) model audio sample_rate = Raises msg ->
  _is_coreml_runtime_failure (Raised msg) = true ->
  cpu_only st1 lang = false ->
  recognize lib audio sample_rate language st
  = (Err (UnknownLanguage lang),
     record_call (Recognize model audio sample_rate) st1)
  /\ ~ reachable lib st.
Proof.
  intros Hres Hsup Hm Hrec Hsig Hcpu. split.
  - rewrite (recognize_resolved _ _ _ _ _ _ _ Hres), Hm.
    unfold try_except. rewrite run_recognition_eq, Hrec. cbn [rmap outcome].
    unfold recognize_except, bind at 1, get_engine at 1.
    unfold cpu_only in Hcpu. cbn [record_call engine].
    rewrite Hcpu, Hsig. cbn [orb negb].
    unfold bind at 1, _model_name_for_language, bind at 1, get_engine at 1.
    destruct (Py.eqb lang (Py.lit "ru")) eqn:Eru.
    { exfalso. apply Hsup. left. now apply py_eqb_eq. }
    destruct (Py.eqb lang (Py.lit "en")) eqn:Een.
    { exfalso. apply Hsup. right. now apply py_eqb_eq. }
    reflexivity.
  - intros Hr. apply Hsup.
    destruct (reachable_inv lib st Hr) as [Hs _]. apply Hs.
    rewrite <- (resolve_language_same_engine _ _ _ _ _ _ Hres).
    unfold stored_model in Hm. unfold Py.has. now rewrite Hm.
Qed.

End RecognizeFacts.

(** What a Russian engine recognises is labelled Russian and has no
    source. *)
Lemma recognize_labels_segments_witness :
  Forall (labelled (Py.lit "ru"))
    [{| start := 0; end_ := 6 # 5; text := Example.privet;
        language := Py.lit "ru"; source := None |}].
Proof.
  apply (recognize_labels_segments (Scenario.obliging [])
           (Example.engine_with (Py.lit "ru")
              [(Py.lit "ru", Example.ru_model)] [])
           Example.clip 16000 None (Py.lit "ru")
           (Example.engine_with (Py.lit "ru")
              [(Py.lit "ru", Example.ru_model)] [])
           _
           (snd (recognize (Scenario.obliging []) Example.clip 16000 None
                   (Example.engine_with (Py.lit "ru")
                      [(Py.lit "ru", Example.ru_model)] [])))).
  - reflexivity.
  - vm_compute. reflexivity.
Defined.

(** A model put under "fr" by hand fails on CoreML: the engine knows no
    model name to reload. *)
Lemma recognize_unknown_language_witness :
  recognize
    (Fixture.scripted [] [Raises Fixture.coreml_error] Fixture.no_file)
    Example.clip 16000 None
    (Example.engine_with (Py.lit "fr") [(Py.lit "fr", Example.ru_model)] [])
  = (Err (UnknownLanguage (Py.lit "fr")),
     record_call (Recognize Example.ru_model Example.clip 16000)
       (Example.engine_with (Py.lit "fr")
          [(Py.lit "fr", Example.ru_model)] [])).
Proof.
  apply (recognize_unknown_language
           (Fixture.scripted [] [Raises Fixture.coreml_error] Fixture.no_file)
           (Example.engine_with (Py.lit "fr")
              [(Py.lit "fr", Example.ru_model)] [])
           Example.clip 16000 None (Py.lit "fr")
           (Example.engine_with (Py.lit "fr")
              [(Py.lit "fr", Example.ru_model)] [])
           Example.ru_model Fixture.coreml_error).
  - reflexivity.
  - intros [H|H]; discriminate.
  - reflexivity.
  - reflexivity.
  - vm_compute. reflexivity.
  - reflexivity.
Defined.

(** ** What a transcription raises *)

Section TranscribeErrors.

Variable lib : Library.

Lemma detect_fold_lang items sample sample_rate :
  forall h best,
    fst (detect_fold lib h items sample sample_rate best) = fst best
    \/ In (fst (detect_fold lib h items sample sample_rate best))
         (List.map fst items).
Proof.
  induction items as [|[lang model] items' IH]; intros h best;
    cbn [detect_fold List.map fst In]; cbv zeta.
  - now left.
  - match goal with
    | |- context [detect_fold lib ?h' items' sample sample_rate ?b] =>
        destruct (IH h' b) as [H|H]
    end.
    + rewrite H. destruct (Nat.ltb _ _); cbn [fst]; auto.
    + auto.
Qed.

(** A request that names no language resolves, on a ready engine, to a
    language that has a model. *)
Lemma resolve_ready audio sample_rate st lang st1 :
  ready st ->
  resolve_language lib audio sample_rate None st = (lang, st1) ->
  Py.has (_models (engine st1)) lang = true.
Proof.
  intros [Hne Hall] Hres.
  rewrite (resolve_language_same_engine _ _ _ _ _ _ _ Hres).
  revert Hres. unfold resolve_language. cbn [Py.or_else].
  assert (Hor : Py.or_else None (_language (engine st)) = _language (engine st)).
  { reflexivity. }
  destruct (Py.eqb (_language (engine st)) (Py.lit "auto")) eqn:Eauto.
  - rewrite detect_language_eq. intros [= <- _].
    destruct (detect_fold_lang (_models (engine st))
                (detection_sample audio sample_rate) sample_rate
                (history st) (Py.lit "en", 0%nat)) as [H|H].
    + rewrite H. cbn [fst]. apply Hall. unfold languages_in_scope.
      rewrite Eauto, !orb_true_r. cbn. auto.
    + now apply py_has_in.
  - intros [= <- _]. apply Hall.
    unfold languages_in_scope in *. rewrite Eauto, !orb_false_r in *.
    destruct (Py.eqb (_language (engine st)) (Py.lit "ru")) eqn:Eru.
    { apply py_eqb_eq in Eru. rewrite Eru. now left. }
    destruct (Py.eqb (_language (engine st)) (Py.lit "en")) eqn:Een.
    { apply py_eqb_eq in Een. rewrite Een. now left. }
    now contradiction Hne.
Qed.

(** On a ready engine, a recognition that names no language raises
    nothing but what the libraries raised. *)
Lemma recognize_ready_errors audio sample_rate st e st' :
  engine_inv (engine st) -> ready st ->
  recognize lib audio sample_rate None st = (Err e, st') ->
  from_library e.
Proof.
  intros Hinv Hready H.
  destruct (resolve_language lib audio sample_rate None st)
    as [lang st1] eqn:Hres.
  destruct (recognize_inv_errors lib _ _ _ _ _ _ _ _ Hinv Hres H)
    as [Hf|[_ Hnone]]; [exact Hf|].
  pose proof (resolve_ready _ _ _ _ _ Hready Hres) as Hhas.
  apply py_get_none_has in Hnone. congruence.
Qed.

(** [recognize] keeps the language of the engine and its models. *)
Lemma recognize_keeps_ready audio sample_rate language st :
  ready st -> ready (snd (recognize lib audio sample_rate language st)).
Proof.
  assert (H : _language (engine (snd (recognize lib audio sample_rate language st)))
              = _language (engine st)
              /\ forall l, Py.has (_models (engine st)) l = true ->
                   Py.has (_models (engine (snd (recognize lib audio sample_rate
                                                   language st)))) l = true).
  { apply (closure_recognize lib
             (fun a b =>
                _language (engine b) = _language (engine a)
                /\ forall l, Py.has (_models (engine a)) l = true ->
                     Py.has (_models (engine b)) l = true)).
    - intros a. auto.
    - intros a b c [L1 H1] [L2 H2]. split; [congruence|auto].
    - intros c a. cbn. auto.
    - intros f x a. cbn. auto.
    - intros lang name providers m marks a _. cbn. split; [reflexivity|].
      intros l Hl. rewrite py_has_set, Hl. apply orb_true_r. }
  destruct H as [HL HM]. intros [Hne Hall]. split; rewrite HL; auto.
Qed.

End TranscribeErrors.

Section TranscribeRaises.

Variable lib : Library.

Lemma comprehension_errors {A B} (P : Exception -> Prop) (f : A -> result B)
    xs e :
  (forall x e', f x = Err e' -> P e') ->
  comprehension f xs = Err e -> P e.
Proof.
  intros Hf. induction xs as [|x xs IH]; cbn; [discriminate|].
  destruct (f x) as [y|e1] eqn:E; cbn.
  - destruct (comprehension f xs) as [ys|e2]; cbn; [discriminate|].
    intros [= <-]. now apply IH.
  - intros [= <-]. eapply Hf; eauto.
Qed.

Lemma interp_errors x xp fp e : Np.interp x xp fp = Err e -> from_library e.
Proof.
  unfold Np.interp. destruct xp; [intros [= <-]; now eexists|].
  destruct (Nat.eqb _ _); [discriminate|]. intros [= <-]. now eexists.
Qed.

(** The resampler raises the division by a zero rate or what numpy
    raises. *)
Lemma resample_errors audio sample_rate e :
  _resample_to_16k audio sample_rate = Err e ->
  e = ZeroDivisionError \/ from_library e.
Proof.
  unfold _resample_to_16k.
  destruct (sample_rate =? 16000)%Z; [discriminate|].
  destruct (sample_rate =? 0)%Z; [intros [= <-]; now left|].
  destruct (Np.int_of_float _) as [new_length|].
  2: { intros [= <-]. right. now eexists. }
  intros H. right. revert H. unfold Np.linspace.
  destruct (new_length <? 0)%Z; cbn [rbind].
  { intros [= <-]. now eexists. }
  destruct audio as [data|ncols rows].
  - destruct (Np.interp _ _ data) as [resampled|e1] eqn:E; cbn [rbind];
      [discriminate|].
    intros [= <-]. eapply interp_errors; eauto.
  - destruct (comprehension _ (seq 0 ncols)) as [channels|e1] eqn:E;
      cbn [rbind].
    + unfold Np.stack. destruct channels; cbn [rbind]; [|discriminate].
      intros [= <-]. now eexists.
    + intros [= <-].
      apply (comprehension_errors from_library _ _ _
               (fun x e' => interp_errors _ _ _ e') E).
Qed.

Lemma initialize_ready st names st1 :
  initialize lib st = (Ok names, st1) ->
  languages_in_scope (_language (engine st)) <> [] ->
  ready st1.
Proof.
  intros H Hne.
  destruct (initialize_returns lib _ _ _ H)
    as [vad [_ [_ [Hl [_ [Hin _]]]]]].
  split; rewrite Hl; [exact Hne|].
  intros l Hl'. destruct (Hin l Hl') as [m Hm].
  unfold stored_model in Hm. unfold Py.has. now rewrite Hm.
Qed.

(** An engine set to a language it does not know, and holding no model,
    refuses a recognition that names no language. *)
Lemma recognize_unconfigured audio sample_rate st :
  languages_in_scope (_language (engine st)) = [] ->
  _models (engine st) = [] ->
  recognize lib audio sample_rate None st
  = (Err (NoModelLoaded (_language (engine st))), st).
Proof.
  intros Hscope Hmodels.
  assert (Hres : resolve_language lib audio sample_rate None st
                 = (_language (engine st), st)).
  { unfold resolve_language. cbn [Py.or_else].
    destruct (Py.eqb (_language (engine st)) (Py.lit "auto")) eqn:E;
      [|reflexivity].
    unfold languages_in_scope in Hscope. rewrite E, !orb_true_r in Hscope.
    discriminate. }
  rewrite (recognize_resolved _ _ _ _ _ _ _ Hres).
  unfold stored_model. now rewrite Hmodels.
Qed.

(** The two states of an engine after its initialisation. *)
Lemma recognize_initialised_errors audio sample_rate st e st' :
  (engine_inv (engine st) /\ ready st)
  \/ (languages_in_scope (_language (engine st)) = []
      /\ _models (engine st) = []) ->
  recognize lib audio sample_rate None st = (Err e, st') ->
  from_library e
  \/ (e = NoModelLoaded (_language (engine st))
      /\ languages_in_scope (_language (engine st)) = []).
Proof.
  intros [[Hinv Hready]|[Hscope Hmodels]] H.
  - left. eapply recognize_ready_errors; eauto.
  - rewrite recognize_unconfigured in H by assumption.
    injection H as <- _. right. auto.
Qed.

Lemma recognize_initialised_ok audio sample_rate st segments st' :
  (engine_inv (engine st) /\ ready st)
  \/ (languages_in_scope (_language (engine st)) = []
      /\ _models (engine st) = []) ->
  recognize lib audio sample_rate None st = (Ok segments, st') ->
  engine_inv (engine st') /\ ready st'.
Proof.
  intros [[Hinv Hready]|[Hscope Hmodels]] H.
  - change st' with (snd (Ok segments, st')). rewrite <- H. split.
    + destruct (recognize_keeps lib [] audio sample_rate None st) as [_ K].
      now apply K.
    + now apply recognize_keeps_ready.
  - rewrite recognize_unconfigured in H by assumption. discriminate.
Qed.

End TranscribeRaises.

Section TranscribeOutcome.

Variable lib : Library.

(** The state of the engine of a transcription once initialised. *)
Lemma transcribe_initialised language russian_model english_model st names st1 :
  initialize lib (with_fresh_engine language russian_model english_model st)
  = (Ok names, st1) ->
  _language (engine st1) = language
  /\ ((engine_inv (engine st1) /\ ready st1)
      \/ (languages_in_scope (_language (engine st1)) = []
          /\ _models (engine st1) = [])).
Proof.
  intros H.
  destruct (initialize_returns lib _ _ _ H)
    as [vad [_ [_ [Hl [_ [_ [_ Hkeys]]]]]]].
  cbn [with_fresh_engine engine ASREngine_init _language] in Hl.
  split; [exact Hl|]. rewrite Hl.
  destruct (languages_in_scope language) as [|l0 scope] eqn:Hscope.
  - right. split; [reflexivity|].
    cbn [with_fresh_engine engine ASREngine_init _language] in Hkeys.
    rewrite Hscope in Hkeys. cbn in Hkeys.
    unfold model_languages in Hkeys. now apply map_eq_nil in Hkeys.
  - left. split.
    + change st1 with (snd (Ok names, st1)). rewrite <- H.
      apply (reachable_inv lib).
      apply (reach_step lib _ OpInitialize
               (reach_init lib russian_model english_model language
                  (history st) (log st))).
    + apply (initialize_ready lib _ _ _ H).
      cbn [with_fresh_engine engine ASREngine_init _language].
      rewrite Hscope. discriminate.
Qed.

(** What the transcription of a decoded and resampled buffer raises. *)
Lemma transcribe_loaded_errors language russian_model english_model audio
    sample_rate st e st' :
  transcribe_loaded lib language russian_model english_model audio
    sample_rate st = (Err e, st') ->
  from_library e
  \/ (e = NoModelLoaded language /\ languages_in_scope language = []).
Proof.
  unfold transcribe_loaded. unfold bind at 1, set_engine.
  fold (with_fresh_engine language russian_model english_model st).
  unfold bind at 1.
  destruct (initialize lib _) as [[names|e0] st1] eqn:Hinit.
  2: { intros [= <- <-]. left.
       exact (initialize_error lib _ _ _ Hinit). }
  destruct (transcribe_initialised _ _ _ _ _ _ Hinit) as [Hl Hq].
  unfold bind at 1.
  match goal with
  | |- (let (r, s) := ?m st1 in _) = _ -> _ =>
      destruct (m st1) as [[segs|e1] s2] eqn:Hseg; [discriminate|]
  end.
  intros [= <- <-]. rewrite <- Hl.
  assert (Hmono : forall data,
    recognize lib data sample_rate None st1 = (Err e1, s2) ->
    from_library e1
    \/ (e1 = NoModelLoaded (_language (engine st1))
        /\ languages_in_scope (_language (engine st1)) = [])).
  { intros data. now apply recognize_initialised_errors. }
  destruct audio as [data|ncols rows]; [now apply (Hmono data)|].
  destruct (Nat.eqb ncols 1); [now apply (Hmono (Np.column 0 rows))|].
  clear Hmono. unfold bind at 1 in Hseg.
  assert (Hstereo : forall s1,
    engine s1 = engine st1 ->
    (mic_audio <- lift (Np.take_column 0 (Np.Arr2 ncols rows)) ;;
     speaker_audio <- lift (Np.take_column 1 (Np.Arr2 ncols rows)) ;;
     recognize_stereo lib mic_audio speaker_audio sample_rate) s1
    = (Err e1, s2) ->
    from_library e1
    \/ (e1 = NoModelLoaded (_language (engine st1))
        /\ languages_in_scope (_language (engine st1)) = [])).
  { intros s1 Hs1. unfold bind at 1, lift, Np.take_column.
    destruct (Nat.ltb 0 ncols).
    2: { intros [= <- _]. left. now eexists. }
    unfold bind at 1.
    destruct (Nat.ltb 1 ncols).
    2: { intros [= <- _]. left. now eexists. }
    unfold recognize_stereo, bind at 1.
    assert (Hq1 : (engine_inv (engine s1) /\ ready s1)
                  \/ (languages_in_scope (_language (engine s1)) = []
                      /\ _models (engine s1) = [])).
    { unfold ready. rewrite Hs1. exact Hq. }
    destruct (recognize lib (Np.column 0 rows) sample_rate None s1)
      as [[mic|e2] st2] eqn:Hmic.
    2: { intros [= <- _]. rewrite <- Hs1.
         eapply recognize_initialised_errors; eauto. }
    pose proof (recognize_initialised_ok lib _ _ _ _ _ Hq1 Hmic) as Hq2.
    unfold bind at 1.
    destruct (recognize lib (Np.column 1 rows) sample_rate None st2)
      as [[speaker|e2] st3] eqn:Hspeaker; [discriminate|].
    intros [= <- _]. left.
    destruct Hq2 as [Hinv2 Hready2].
    eapply recognize_ready_errors; eauto. }
  destruct (Nat.ltb 2 ncols).
  - unfold logger_warning at 1 in Hseg.
    now apply Hstereo in Hseg.
  - unfold ret at 1 in Hseg. now apply Hstereo in Hseg.
Qed.

(** X10. A transcription raises nothing but what a library or the Python
    runtime raised (the decoder of the file, numpy, the conversion of the new
    length, onnx_asr), the division by the zero sample rate of a file, or
    the "no model loaded" error for the configured language when that
    language is none of "ru", "en" and "auto".  It raises no "unknown
    language" error and no [KeyError], and on a configured language that
    the engine knows no "no model loaded" error. *)
Theorem transcribe_errors (path language russian_model english_model : str)
    (st : State) (e : Exception) (st' : State) :
  transcribe lib path language russian_model english_model st
  = (Err e, st') ->
  from_library e
  \/ e = ZeroDivisionError
  \/ (e = NoModelLoaded language
      /\ language <> Py.lit "ru" /\ language <> Py.lit "en"
      /\ language <> Py.lit "auto").
Proof.
  rewrite transcribe_eq. unfold bind at 1, lift.
  destruct (sf_read lib path) as [[audio sample_rate]|msg];
    cbn [outcome].
  2: { intros [= <- _]. left. now eexists. }
  unfold bind at 1.
  destruct (sample_rate =? 0)%Z.
  { intros [= <- _]. right. now left. }
  unfold ret at 1. unfold bind at 1, lift.
  destruct (_resample_to_16k audio sample_rate)
    as [[audio16 rate16]|e1] eqn:Hres.
  2: { intros [= <- _].
       destruct (resample_errors _ _ _ Hres) as [H|H]; auto. }
  intros H.
  destruct (transcribe_loaded_errors _ _ _ _ _ _ _ _ H) as [Hf|[He Hscope]];
    [now left|].
  right. right. split; [exact He|].
  unfold languages_in_scope in Hscope.
  repeat split; intros ->; discriminate.
Qed.

End TranscribeOutcome.

Section TranscribeLabels.

Variable lib : Library.

Lemma scope_nonempty (lang : str) :
  languages_in_scope lang <> [] ->
  lang = Py.lit "ru" \/ lang = Py.lit "en" \/ lang = Py.lit "auto".
Proof.
  unfold languages_in_scope.
  destruct (Py.eqb lang (Py.lit "ru")) eqn:Eru;
    [left; now apply py_eqb_eq|].
  destruct (Py.eqb lang (Py.lit "en")) eqn:Een;
    [right; left; now apply py_eqb_eq|].
  destruct (Py.eqb lang (Py.lit "auto")) eqn:Eauto;
    [right; right; now apply py_eqb_eq|].
  intros H. now contradiction H.
Qed.

Lemma recognize_keeps_language audio sample_rate language st :
  _language (engine (snd (recognize lib audio sample_rate language st)))
  = _language (engine st).
Proof.
  apply (closure_recognize lib
           (fun a b => _language (engine b) = _language (engine a)));
    try reflexivity.
  intros a b c H1 H2. congruence.
Qed.

(** The segments of a recognition that names no language, on an engine set
    to a language other than "auto". *)
Lemma recognize_default_labelled audio sample_rate st segments st' :
  _language (engine st) <> Py.lit "auto" ->
  recognize lib audio sample_rate None st = (Ok segments, st') ->
  Forall (labelled (_language (engine st))) segments.
Proof.
  intros Hauto H.
  assert (Hres : resolve_language lib audio sample_rate None st
                 = (_language (engine st), st)).
  { unfold resolve_language. cbn [Py.or_else].
    apply py_eqb_neq in Hauto. now rewrite Hauto. }
  destruct (recognize_ok_resolved lib _ _ _ _ _ _ _ _ Hres H) as [raw ->].
  apply segments_of_labelled.
Qed.

Lemma recognize_untagged audio sample_rate language st segments st' :
  recognize lib audio sample_rate language st = (Ok segments, st') ->
  Forall untagged segments.
Proof.
  intros H.
  destruct (resolve_language lib audio sample_rate language st)
    as [lang st1] eqn:Hres.
  destruct (recognize_ok_resolved lib _ _ _ _ _ _ _ _ Hres H) as [raw ->].
  eapply Forall_impl; [|apply segments_of_labelled].
  intros seg [_ Hs]. exact Hs.
Qed.

(** X11. In a transcript, the segments of a buffer of one channel have no
    source and are those of the single recognition of its samples, in the
    order the engine returned them; the segments of a buffer of more
    channels are each tagged "mic/speak" or "speaker/speak".  When the
    configured language is not "auto", every segment is labelled with it;
    and a transcription returns for no configured language but "ru", "en"
    and "auto". *)
Theorem transcribe_labels (path configured russian_model english_model : str)
    (st : State) (segments : list Segment) (full_text : str) (st' : State)
    (audio : Np.ndarray) (sample_rate : Z) (audio16 : Np.ndarray)
    (rate16 : Z) :
  transcribe lib path configured russian_model english_model st
  = (Ok (segments, full_text), st') ->
  sf_read lib path = Returns (audio, sample_rate) ->
  _resample_to_16k audio sample_rate = Ok (audio16, rate16) ->
  match mono_samples audio16 with
  | Some samples =>
      Forall untagged segments
      /\ exists st1,
           recognize lib samples rate16 None st1 = (Ok segments, st')
  | None => Forall tagged_by_channel segments
  end
  /\ (configured <> Py.lit "auto" -> Forall (in_language configured) segments)
  /\ (configured = Py.lit "ru" \/ configured = Py.lit "en"
      \/ configured = Py.lit "auto").
Proof.
  intros H Hread Hres.
  destruct (transcribe_ok lib _ _ _ _ _ _ _ _ H)
    as [audio0 [rate0 [audio1 [rate1 [Hread' [Hres' Hl]]]]]].
  rewrite Hread in Hread'. injection Hread' as <- <-.
  rewrite Hres in Hres'. injection Hres' as <- <-.
  destruct (transcribe_loaded_ok lib _ _ _ _ _ _ _ _ _ Hl)
    as [_ [names [st1 [Hinit Hrec]]]].
  destruct (transcribe_initialised lib _ _ _ _ _ _ Hinit) as [Hlang Hq].
  assert (Hmono : forall samples,
    recognize lib samples rate16 None st1 = (Ok segments, st') ->
    (Forall untagged segments
     /\ exists st1,
          recognize lib samples rate16 None st1 = (Ok segments, st'))
    /\ (configured <> Py.lit "auto" ->
        Forall (in_language configured) segments)
    /\ (configured = Py.lit "ru" \/ configured = Py.lit "en"
        \/ configured = Py.lit "auto")).
  { intros samples Hr. split; [split|split].
    - eapply recognize_untagged; eauto.
    - now exists st1.
    - intros Hauto. rewrite <- Hlang in Hauto.
      pose proof (recognize_default_labelled _ _ _ _ _ Hauto Hr) as Hlab.
      rewrite Hlang in Hlab.
      eapply Forall_impl; [|exact Hlab]. intros seg [Hs _]. exact Hs.
    - destruct (recognize_initialised_ok lib _ _ _ _ _ Hq Hr) as [_ [Hne _]].
      pose proof (recognize_keeps_language samples rate16 None st1) as Hk.
      rewrite Hr in Hk. cbn [snd] in Hk. rewrite Hk, Hlang in Hne.
      now apply scope_nonempty. }
  destruct audio16 as [data|ncols rows]; cbn [mono_samples];
    [now apply Hmono|].
  destruct (Nat.eqb ncols 1); [now apply Hmono|].
  clear Hmono. destruct Hrec as [_ Hrec].
  set (s1 := if Nat.ltb 2 ncols
             then warned WARN_CHANNELS [ArgInt (Z.of_nat ncols)] st1
             else st1) in *.
  assert (Hs1 : engine s1 = engine st1).
  { unfold s1. now destruct (Nat.ltb 2 ncols). }
  destruct (recognize_stereo_ok lib _ _ _ _ _ _ Hrec)
    as [mic [st2 [speaker [Hmic [Hspeaker ->]]]]].
  assert (Hperm : forall P : Segment -> Prop,
    Forall P (List.map (tagged MIC_SOURCE) mic
              ++ List.map (tagged SPEAKER_SOURCE) speaker) ->
    Forall P (sorted sort_key key_ltb
                (List.map (tagged MIC_SOURCE) mic
                 ++ List.map (tagged SPEAKER_SOURCE) speaker))).
  { intros P. apply Permutation_Forall. apply Permutation_sym.
    apply (proj1 (sorted_segments _)). }
  assert (Hq1 : (engine_inv (engine s1) /\ ready s1)
                \/ (languages_in_scope (_language (engine s1)) = []
                    /\ _models (engine s1) = [])).
  { unfold ready. rewrite Hs1. exact Hq. }
  pose proof (recognize_keeps_language (Np.column 0 rows) rate16 None s1) as Hk.
  rewrite Hmic in Hk. cbn [snd] in Hk. rewrite Hs1, Hlang in Hk.
  split; [|split].
  - apply Hperm. apply Forall_app. split; apply Forall_forall;
      intros seg Hin; apply in_map_iff in Hin; destruct Hin as [x [<- _]].
    + now left.
    + now right.
  - intros Hauto. apply Hperm. apply Forall_app. split.
    + assert (Ha : _language (engine s1) <> Py.lit "auto")
        by now rewrite Hs1, Hlang.
      pose proof (recognize_default_labelled _ _ _ _ _ Ha Hmic) as Hlab.
      rewrite Hs1, Hlang in Hlab.
      apply Forall_forall. intros seg Hin. apply in_map_iff in Hin.
      destruct Hin as [x [<- Hx]].
      rewrite Forall_forall in Hlab. now destruct (Hlab x Hx).
    + assert (Ha : _language (engine st2) <> Py.lit "auto")
        by now rewrite Hk.
      pose proof (recognize_default_labelled _ _ _ _ _ Ha Hspeaker) as Hlab.
      rewrite Hk in Hlab.
      apply Forall_forall. intros seg Hin. apply in_map_iff in Hin.
      destruct Hin as [x [<- Hx]].
      rewrite Forall_forall in Hlab. now destruct (Hlab x Hx).
  - destruct (recognize_initialised_ok lib _ _ _ _ _ Hq1 Hmic) as [_ [Hne _]].
    rewrite Hk in Hne. now apply scope_nonempty.
Qed.

End TranscribeLabels.

Section UnsupportedLanguage.

Variable lib : Library.

(** With a configured language that is none of "ru", "en" and "auto",
    [initialize] loads the detector and nothing else. *)
Lemma initialize_unscoped st vad :
  languages_in_scope (_language (engine st)) = [] ->
  load_vad lib (history st) (Py.lit "silero") = Returns vad ->
  initialize lib st
  = (Ok [], with_detector vad (record_call (LoadVad (Py.lit "silero")) st)).
Proof.
  intros Hscope Hvad.
  unfold initialize, bind at 1, onnx_asr_load_vad. rewrite Hvad.
  cbn [outcome].
  unfold bind at 1, modify_engine, bind at 1, get_engine at 1, set_engine.
  cbn [engine record_call history log].
  unfold bind at 1, get_engine at 1.
  cbn [engine with_vad_attr _language].
  unfold languages_in_scope in Hscope.
  apply app_eq_nil in Hscope. destruct Hscope as [H1 H2].
  destruct (Py.eqb (_language (engine st)) (Py.lit "ru")
            || Py.eqb (_language (engine st)) (Py.lit "auto"));
    [discriminate|].
  destruct (Py.eqb (_language (engine st)) (Py.lit "en")
            || Py.eqb (_language (engine st)) (Py.lit "auto"));
    [discriminate|].
  reflexivity.
Qed.

(** X12. A transcription configured for a language code that is none of
    "ru", "en" and "auto" is refused only at the recognition: when the file
    decodes, at a rate other than zero, to a buffer of at least one channel
    that the resampler accepts, and the detector loads, it raises the "no
    model loaded" error for that code, having called the library once, for
    the detector, and loaded no model. *)
Theorem transcribe_unsupported_language
    (path configured russian_model english_model : str) (st : State)
    (audio : Np.ndarray) (sample_rate : Z) (audio16 : Np.ndarray)
    (rate16 : Z) (vad : VadObject) :
  configured <> Py.lit "ru" ->
  configured <> Py.lit "en" ->
  configured <> Py.lit "auto" ->
  sf_read lib path = Returns (audio, sample_rate) ->
  sample_rate <> 0%Z ->
  _resample_to_16k audio sample_rate = Ok (audio16, rate16) ->
  has_channels audio16 ->
  load_vad lib (history st) (Py.lit "silero") = Returns vad ->
  exists st',
    transcribe lib path configured russian_model english_model st
    = (Err (NoModelLoaded configured), st')
    /\ history st' = history st ++ [LoadVad (Py.lit "silero")]
    /\ _models (engine st') = []
    /\ _vad (engine st') = Some vad.
Proof.
  intros Hru Hen Hauto Hread Hrate Hres Hch Hvad.
  apply py_eqb_neq in Hru, Hen, Hauto.
  assert (Hscope : languages_in_scope configured = []).
  { unfold languages_in_scope. now rewrite Hru, Hen, Hauto. }
  rewrite transcribe_eq. unfold bind at 1, lift. rewrite Hread.
  cbn [outcome]. unfold bind at 1.
  apply Z.eqb_neq in Hrate. rewrite Hrate.
  unfold ret at 1. unfold bind at 1, lift. rewrite Hres.
  unfold transcribe_loaded. unfold bind at 1, set_engine.
  fold (with_fresh_engine configured russian_model english_model st).
  unfold bind at 1.
  rewrite (initialize_unscoped
             (with_fresh_engine configured russian_model english_model st)
             vad Hscope Hvad).
  set (s1 := with_detector vad
               (record_call (LoadVad (Py.lit "silero"))
                  (with_fresh_engine configured russian_model english_model st))).
  assert (Hgo : forall s samples,
    engine s = engine s1 ->
    recognize lib samples rate16 None s = (Err (NoModelLoaded configured), s)).
  { intros s samples Hs.
    pose proof (recognize_unconfigured lib samples rate16 s) as Hr.
    rewrite Hs in Hr. apply Hr; [exact Hscope|reflexivity]. }
  unfold bind at 1.
  destruct audio16 as [data|ncols rows].
  - rewrite (Hgo s1 data eq_refl). exists s1. auto.
  - destruct (Nat.eqb ncols 1) eqn:E1.
    + rewrite (Hgo s1 _ eq_refl). exists s1. auto.
    + cbn [has_channels] in Hch. apply Nat.eqb_neq in E1.
      assert (H0 : Nat.ltb 0 ncols = true) by (apply Nat.ltb_lt; lia).
      assert (H1 : Nat.ltb 1 ncols = true) by (apply Nat.ltb_lt; lia).
      unfold bind at 1.
      destruct (Nat.ltb 2 ncols).
      * unfold logger_warning at 1.
        unfold bind at 1, lift, Np.take_column. rewrite H0.
        unfold bind at 1. rewrite H1.
        unfold recognize_stereo, bind at 1.
        rewrite Hgo by reflexivity. eexists. split; [reflexivity|]. auto.
      * unfold ret at 1.
        unfold bind at 1, lift, Np.take_column. rewrite H0.
        unfold bind at 1. rewrite H1.
        unfold recognize_stereo, bind at 1.
        rewrite Hgo by reflexivity. eexists. split; [reflexivity|]. auto.
Qed.

End UnsupportedLanguage.

(** A missing file: the error of the decoder is the one raised. *)
Lemma transcribe_errors_witness :
  from_library (Raised (Py.lit "Error opening file"))
  \/ Raised (Py.lit "Error opening file") = ZeroDivisionError
  \/ (Raised (Py.lit "Error opening file") = NoModelLoaded (Py.lit "ru")
      /\ Py.lit "ru" <> Py.lit "ru" /\ Py.lit "ru" <> Py.lit "en"
      /\ Py.lit "ru" <> Py.lit "auto").
Proof.
  apply (transcribe_errors (Scenario.obliging Recordings.files)
           (Py.lit "missing.wav") (Py.lit "ru") (Py.lit "gigaam-v3-rnnt")
           (Py.lit "whisper-base") (Fixture.fresh (Py.lit "auto"))
           (Raised (Py.lit "Error opening file"))
           (Fixture.fresh (Py.lit "auto"))).
  vm_compute. reflexivity.
Defined.

(** The transcript of a recording of one channel, in Russian. *)
Lemma transcribe_labels_witness :
  Forall (in_language (Py.lit "ru"))
    [{| start := 0; end_ := 6 # 5; text := Example.privet;
        language := Py.lit "ru"; source := None |}].
Proof.
  apply (transcribe_labels (Scenario.obliging Recordings.files)
           (Py.lit "mono.wav") (Py.lit "ru") (Py.lit "gigaam-v3-rnnt")
           (Py.lit "whisper-base") (Fixture.fresh (Py.lit "auto"))
           _ Example.privet
           (snd (transcribe (Scenario.obliging Recordings.files)
                   (Py.lit "mono.wav") (Py.lit "ru") (Py.lit "gigaam-v3-rnnt")
                   (Py.lit "whisper-base") (Fixture.fresh (Py.lit "auto"))))
           (Np.Arr1 Example.clip) 16000 (Np.Arr1 Example.clip) 16000).
  - vm_compute. reflexivity.
  - reflexivity.
  - reflexivity.
  - discriminate.
Defined.

(** A recording transcribed "in French": the detector is loaded, then the
    recognition is refused. *)
Lemma transcribe_unsupported_language_witness :
  exists st',
    transcribe (Scenario.obliging Recordings.files) (Py.lit "stereo.wav")
      (Py.lit "fr") (Py.lit "gigaam-v3-rnnt") (Py.lit "whisper-base")
      (Fixture.fresh (Py.lit "auto"))
    = (Err (NoModelLoaded (Py.lit "fr")), st')
    /\ history st' = [] ++ [LoadVad (Py.lit "silero")]
    /\ _models (engine st') = []
    /\ _vad (engine st') = Some 0%nat.
Proof.
  apply (transcribe_unsupported_language (Scenario.obliging Recordings.files)
           (Py.lit "stereo.wav") (Py.lit "fr") (Py.lit "gigaam-v3-rnnt")
           (Py.lit "whisper-base") (Fixture.fresh (Py.lit "auto"))
           (Np.Arr2 2 Example.stereo_rows) 16000
           (Np.Arr2 2 Example.stereo_rows) 16000 0%nat).
  - discriminate.
  - discriminate.
  - discriminate.
  - reflexivity.
  - discriminate.
  - reflexivity.
  - cbn. lia.
  - reflexivity.
Defined.

(** ** When the resampler returns *)

(** X13. When the resampler returns, it returns at 16000 Hz a buffer of the
    dimension and the channels of the one it was given, which it returns
    unchanged if resampled again; and it was given a buffer at 16000 Hz,
    which it returned as it was, or a buffer with a sample and a channel at
    a rate other than zero, whose truncated new length is not negative.
    For every other input it raises. *)
Theorem resample_returns (audio : Np.ndarray) (sample_rate : Z)
    (out : Np.ndarray) (rate : Z) :
  _resample_to_16k audio sample_rate = Ok (out, rate) ->
  rate = 16000%Z
  /\ same_channels audio out
  /\ _resample_to_16k out rate = Ok (out, rate)
  /\ ((sample_rate = 16000%Z /\ out = audio)
      \/ (sample_rate <> 16000%Z /\ sample_rate <> 0%Z
          /\ (0 < Np.len audio)%nat /\ has_channels audio
          /\ exists n,
               resample_length (Np.len audio) sample_rate = Some n
               /\ (0 <= n)%Z)).
Proof.
  intros H. destruct (resample_returns_facts _ _ _ _ H) as [Hr [Hs Hc]].
  split; [exact Hr|]. split; [exact Hs|]. split; [|exact Hc].
  subst rate. reflexivity.
Qed.

(** Five samples at 48 kHz come back as one sample at 16 kHz, which a
    second resampling returns as it is. *)
Lemma resample_returns_witness :
  _resample_to_16k (Np.Arr1 [Np.float32 0.25%float]) 16000
  = Ok (Np.Arr1 [Np.float32 0.25%float], 16000%Z).
Proof.
  apply (resample_returns (Np.Arr1 five_samples) 48000
           (Np.Arr1 [Np.float32 0.25%float]) 16000).
  vm_compute. reflexivity.
Defined.

Section EmptyRecording.

Variable lib : Library.

(** X14. The transcription of a file that decodes to a buffer without a
    sample, or without a channel, at a rate other than 16000 Hz raises in
    the resampler, the zero division or what numpy raised: no engine is
    created, no library is called and the state is as it was. *)
Theorem transcribe_empty_recording
    (path configured russian_model english_model : str) (st : State)
    (audio : Np.ndarray) (sample_rate : Z) :
  sf_read lib path = Returns (audio, sample_rate) ->
  sample_rate <> 16000%Z ->
  Np.len audio = 0%nat \/ ~ has_channels audio ->
  exists e,
    transcribe lib path configured russian_model english_model st
    = (Err e, st)
    /\ (e = ZeroDivisionError \/ from_library e).
Proof.
  intros Hread Hrate Hempty.
  rewrite transcribe_eq. unfold bind at 1, lift. rewrite Hread.
  cbn [outcome]. unfold bind at 1.
  destruct (sample_rate =? 0)%Z.
  { exists ZeroDivisionError. split; [reflexivity|now left]. }
  unfold ret at 1. unfold bind at 1, lift.
  destruct (_resample_to_16k audio sample_rate) as [[out rate]|e] eqn:Hres.
  - exfalso.
    destruct (resample_returns_facts _ _ _ _ Hres)
      as [_ [_ [[H16 _]|[_ [_ [Hlen [Hch _]]]]]]].
    + contradiction.
    + destruct Hempty as [H0|Hno]; [lia|contradiction].
  - exists e. split; [reflexivity|].
    apply (resample_errors _ _ _ Hres).
Qed.

End EmptyRecording.

(** An empty recording at 48 kHz. *)
Lemma transcribe_empty_recording_witness :
  exists e,
    transcribe (Scenario.obliging Recordings.files) (Py.lit "empty.wav")
      (Py.lit "ru") (Py.lit "gigaam-v3-rnnt") (Py.lit "whisper-base")
      (Fixture.fresh (Py.lit "auto"))
    = (Err e, Fixture.fresh (Py.lit "auto"))
    /\ (e = ZeroDivisionError \/ from_library e).
Proof.
  apply (transcribe_empty_recording (Scenario.obliging Recordings.files)
           (Py.lit "empty.wav") (Py.lit "ru") (Py.lit "gigaam-v3-rnnt")
           (Py.lit "whisper-base") (Fixture.fresh (Py.lit "auto"))
           (Np.Arr1 []) 48000).
  - reflexivity.
  - discriminate.
  - left. reflexivity.
Defined.

(** ** The signatures of the errors that are retried *)

Lemma startswith_spec prefix s :
  Py.startswith prefix s = true <-> exists after, s = prefix ++ after.
Proof.
  revert s. induction prefix as [|x p IH]; intros s; cbn.
  - split; [intros _; now exists s|reflexivity].
  - destruct s as [|y s].
    + split; [discriminate|]. intros [after H]. discriminate.
    + rewrite andb_true_iff, N.eqb_eq, IH. split.
      * intros [-> [after ->]]. now exists after.
      * intros [after [= -> ->]]. split; [reflexivity|now exists after].
Qed.

Lemma contains_spec needle hay :
  Py.contains needle hay = true <-> occurs_in needle hay.
Proof.
  unfold occurs_in. induction hay as [|c hay IH]; cbn [Py.contains].
  - rewrite orb_false_r, startswith_spec. split.
    + intros [after H]. now exists [], after.
    + intros [before [after H]]. destruct before; [now exists after|].
      discriminate.
  - rewrite orb_true_iff, startswith_spec, IH. split.
    + intros [[after H]|[before [after H]]].
      * now exists [], after.
      * exists (c :: before), after. cbn. now rewrite H.
    + intros [before [after H]]. destruct before as [|b before].
      * left. now exists after.
      * right. injection H as _ H. now exists before, after.
Qed.

(** X15. The test for the retry of a load holds exactly when the rendered
    message of the error holds both "model_path must not be empty" and
    "Initializer::Initializer" somewhere, in either order; the test for the
    retry of an inference, exactly when it holds both
    "CoreMLExecutionProvider" and "Unable to compute the prediction using a
    neural network model".  One of the two texts alone, or a text in another
    case, triggers no retry. *)
Theorem retry_signatures (error : Exception) :
  (_should_retry_with_cpu error = true <->
   occurs_in (Py.lit "model_path must not be empty") (str_of_exception error)
   /\ occurs_in (Py.lit "Initializer::Initializer") (str_of_exception error))
  /\ (_is_coreml_runtime_failure error = true <->
      occurs_in (Py.lit "CoreMLExecutionProvider") (str_of_exception error)
      /\ occurs_in
           (Py.lit "Unable to compute the prediction using a neural network model")
           (str_of_exception error)).
Proof.
  unfold _should_retry_with_cpu, _is_coreml_runtime_failure.
  rewrite !andb_true_iff, !contains_spec. split; reflexivity.
Qed.

(** The messages of the test suite, and two that fall short. *)
Example retry_signatures_examples :
  _should_retry_with_cpu (Raised Fixture.external_data_error) = true
  /\ _should_retry_with_cpu
       (Raised (Py.lit "model_path must not be empty")) = false
  /\ _should_retry_with_cpu
       (Raised (Py.lit "initializer::initializer: model_path must not be empty"))
     = false
  /\ _is_coreml_runtime_failure (Raised Fixture.coreml_error) = true
  /\ _is_coreml_runtime_failure (Raised Fixture.external_data_error) = false.
Proof. repeat split; reflexivity. Qed.

(** ** One engine for each transcription *)

Section FreshEngine.

Variable lib : Library.

(** The steps of [transcribe] before the engine is created. *)
Lemma transcribe_cases path configured russian_model english_model st :
  transcribe lib path configured russian_model english_model st
  = match sf_read lib path with
    | Raises msg => (Err (Raised msg), st)
    | Returns (audio, sample_rate) =>
        if (sample_rate =? 0)%Z then (Err ZeroDivisionError, st)
        else
          match _resample_to_16k audio sample_rate with
          | Err e => (Err e, st)
          | Ok (audio16, rate16) =>
              transcribe_loaded lib configured russian_model english_model
                audio16 rate16
                (with_fresh_engine configured russian_model english_model st)
          end
    end.
Proof.
  rewrite transcribe_eq. unfold bind at 1, lift.
  destruct (sf_read lib path) as [[audio sample_rate]|msg]; cbn [outcome];
    [|reflexivity].
  unfold bind at 1.
  destruct (sample_rate =? 0)%Z; [reflexivity|].
  unfold ret at 1. unfold bind at 1.
  destruct (_resample_to_16k audio sample_rate) as [[audio16 rate16]|e];
    reflexivity.
Qed.

(** X16. A transcription creates its own engine: run from two states with
    one history of library calls and one log, whatever engines they hold, it
    gives the same result and leaves the same history and log, and the same
    engine unless it stopped before creating one, on the file or in the
    resampler.  So nothing an earlier transcription loaded or marked
    CPU-only is reused by the next. *)
Theorem transcribe_creates_its_engine
    (path configured russian_model english_model : str) (st1 st2 : State) :
  history st1 = history st2 ->
  log st1 = log st2 ->
  let run1 := transcribe lib path configured russian_model english_model st1 in
  let run2 := transcribe lib path configured russian_model english_model st2 in
  fst run1 = fst run2
  /\ history (snd run1) = history (snd run2)
  /\ log (snd run1) = log (snd run2)
  /\ (snd run1 = snd run2
      \/ (snd run1 = st1 /\ snd run2 = st2
          /\ exists e, fst run1 = Err e
               /\ (e = ZeroDivisionError \/ from_library e))).
Proof.
  intros Hh Hl. cbv zeta. rewrite !transcribe_cases.
  assert (Hfresh : with_fresh_engine configured russian_model english_model st1
                   = with_fresh_engine configured russian_model english_model st2).
  { unfold with_fresh_engine. now rewrite Hh, Hl. }
  destruct (sf_read lib path) as [[audio sample_rate]|msg].
  2: { cbn [fst snd]. repeat (split; [assumption || reflexivity|]).
       right. repeat (split; [reflexivity|]).
       eexists. split; [reflexivity|]. right. now eexists. }
  destruct (sample_rate =? 0)%Z.
  { cbn [fst snd]. repeat (split; [assumption || reflexivity|]).
    right. repeat (split; [reflexivity|]).
    eexists. split; [reflexivity|]. now left. }
  destruct (_resample_to_16k audio sample_rate) as [[audio16 rate16]|e] eqn:Hres.
  2: { cbn [fst snd]. repeat (split; [assumption || reflexivity|]).
       right. repeat (split; [reflexivity|]).
       eexists. split; [reflexivity|]. apply (resample_errors _ _ _ Hres). }
  rewrite Hfresh. repeat (split; [reflexivity|]). now left.
Qed.

End FreshEngine.

(** ** The protocol *)

Section ProtocolFacts.

Variable rt : Protocol.Runtime.

Lemma is_transcribe_spec (v : Protocol.Value) :
  Protocol.is_transcribe v = true <-> v = Protocol.VStr (Py.lit "transcribe").
Proof.
  destruct v; cbn [Protocol.is_transcribe]; try (split; discriminate).
  rewrite py_eqb_eq. split; [now intros ->|now intros [= ->]].
Qed.

(** X17. [parse_command] returns a command exactly when the text decodes to
    an object whose "type" is the string "transcribe", and it validates
    nothing else: each field of the command is the value the object holds
    under its key, of whatever JSON type and [null] included, and the
    default only when the key is absent; the keys it does not read change
    nothing.  A text that does not decode raises the error of the decoder; a
    value that is no object, the [AttributeError] of its missing [get]; an
    object of another "type", or of none, the "unknown command type"
    error for that value, [None] when the key is absent. *)
Theorem parse_command_spec (raw : str) :
  (forall command,
      Protocol.parse_command rt raw = inl command <->
      exists data,
        Protocol.json_loads rt raw = Returns (Protocol.VDict data)
        /\ Py.get data (Py.lit "type")
           = Some (Protocol.VStr (Py.lit "transcribe"))
        /\ command
           = {| Protocol.type := Py.lit "transcribe";
                Protocol.audio_path :=
                  Protocol.dict_get data (Py.lit "audio_path")
                    (Protocol.VStr (Py.lit ""));
                Protocol.language :=
                  Protocol.dict_get data (Py.lit "language")
                    (Protocol.VStr (Py.lit "auto"));
                Protocol.russian_model :=
                  Protocol.dict_get data (Py.lit "russian_model")
                    (Protocol.VStr (Py.lit "gigaam-v3-rnnt"));
                Protocol.english_model :=
                  Protocol.dict_get data (Py.lit "english_model")
                    (Protocol.VStr (Py.lit "whisper-base")) |})
  /\ (forall message,
        Protocol.json_loads rt raw = Raises message ->
        Protocol.parse_command rt raw
        = inr (Protocol.JSONDecodeError message))
  /\ (forall value,
        Protocol.json_loads rt raw = Returns value ->
        (forall data, value <> Protocol.VDict data) ->
        Protocol.parse_command rt raw = inr (Protocol.AttributeError value))
  /\ (forall data,
        Protocol.json_loads rt raw = Returns (Protocol.VDict data) ->
        Py.get data (Py.lit "type")
        <> Some (Protocol.VStr (Py.lit "transcribe")) ->
        Protocol.parse_command rt raw
        = inr (Protocol.UnknownCommandType
                 (Protocol.dict_get data (Py.lit "type") Protocol.VNone)))
  /\ (forall raw' data data',
        Protocol.json_loads rt raw = Returns (Protocol.VDict data) ->
        Protocol.json_loads rt raw' = Returns (Protocol.VDict data') ->
        same_command_keys data data' ->
        Protocol.parse_command rt raw' = Protocol.parse_command rt raw).
Proof.
  assert (Htype : forall data,
    Protocol.is_transcribe
      (Protocol.dict_get data (Py.lit "type") Protocol.VNone) = true
    <-> Py.get data (Py.lit "type")
        = Some (Protocol.VStr (Py.lit "transcribe"))).
  { intros data. rewrite is_transcribe_spec. unfold Protocol.dict_get.
    destruct (Py.get data (Py.lit "type")); split; congruence. }
  split; [|split; [|split; [|split]]].
  - intros command. unfold Protocol.parse_command. split.
    + destruct (Protocol.json_loads rt raw) as [value|message];
        [|discriminate].
      destruct value; try discriminate.
      destruct (Protocol.is_transcribe _) eqn:E; [|discriminate].
      intros [= <-]. exists items. split; [reflexivity|].
      split; [now apply Htype|reflexivity].
    + intros [data [-> [Ht ->]]]. apply Htype in Ht. now rewrite Ht.
  - intros message H. unfold Protocol.parse_command. now rewrite H.
  - intros value H Hno. unfold Protocol.parse_command. rewrite H.
    destruct value; try reflexivity. now contradiction (Hno items).
  - intros data H Hno. unfold Protocol.parse_command. rewrite H.
    destruct (Protocol.is_transcribe _) eqn:E; [|reflexivity].
    apply Htype in E. contradiction.
  - intros raw' data data' H H' Hsame. unfold Protocol.parse_command.
    rewrite H, H'. unfold Protocol.dict_get.
    rewrite !Hsame by (cbn; tauto). reflexivity.
Qed.

End ProtocolFacts.

(** ** The main loop *)

Section MainFacts.

Variable lib : Library.
Variable rt : Protocol.Runtime.
Variable out : Protocol.Stdout.

Lemma send_spec event events st :
  send out event (events, st)
  = match Protocol.write_line out events event with
    | Returns _ => (Returns tt, (events ++ [event], st))
    | Raises message => (Raises message, (events, st))
    end.
Proof.
  unfold send, Protocol.send_event.
  now destruct (Protocol.write_line out events event).
Qed.

(** What the body of the loop does for a line. *)
Lemma handle_line_spec line events st :
  match handle_line lib rt out line (events, st) with
  | (Returns _, (events', st')) =>
      exists group,
        events' = events ++ group
        /\ reply lib rt out line events st group st'
  | (Raises message, (events', st')) =>
      exists partial,
        events' = events ++ partial
        /\ stopped lib rt out line events st partial st' message
  end.
Proof.
  unfold handle_line.
  destruct (Py.strip line) as [|c rest] eqn:Es.
  { exists []. split; [now rewrite app_nil_r|now constructor]. }
  assert (Hne : Py.strip line <> []) by (rewrite Es; discriminate).
  rewrite <- Es.
  destruct (Protocol.parse_command rt (Py.strip line)) as [command|e] eqn:Ep.
  2: { rewrite send_spec. fold (invalid_command_event rt e).
       destruct (Protocol.write_line out events (invalid_command_event rt e))
         as [[]|message] eqn:Ew.
       - eexists. split; [reflexivity|]. now apply reply_invalid.
       - exists []. split; [now rewrite app_nil_r|].
         eapply stopped_invalid; eauto. }
  rewrite send_spec. fold transcribing_event.
  destruct (Protocol.write_line out events transcribing_event)
    as [[]|message0] eqn:Ew.
  2: { unfold send_failure. rewrite send_spec.
       fold (transcription_failed_event (Raised message0)).
       destruct (Protocol.write_line out events
                   (transcription_failed_event (Raised message0)))
         as [[]|message] eqn:Ef.
       - eexists. split; [reflexivity|]. eapply reply_not_started; eauto.
       - exists []. split; [now rewrite app_nil_r|].
         eapply stopped_not_started; eauto. }
  destruct (transcribe_command lib rt command st)
    as [[[segments full_text]|e] st'] eqn:Et.
  - rewrite send_spec.
    destruct (Protocol.write_line out (events ++ [transcribing_event])
                (Protocol.TranscriptCompleteEvent segments full_text))
      as [[]|message0] eqn:Ec.
    + eexists. split; [now rewrite <- app_assoc|].
      eapply reply_complete; eauto.
    + unfold send_failure. rewrite send_spec.
      fold (transcription_failed_event (Raised message0)).
      destruct (Protocol.write_line out (events ++ [transcribing_event])
                  (transcription_failed_event (Raised message0)))
        as [[]|message] eqn:Ef.
      * eexists. split; [now rewrite <- app_assoc|].
        eapply reply_not_written; eauto.
      * eexists. split; [reflexivity|].
        eapply stopped_not_written; eauto.
  - unfold send_failure. rewrite send_spec.
    fold (transcription_failed_event e).
    destruct (Protocol.write_line out (events ++ [transcribing_event])
                (transcription_failed_event e)) as [[]|message] eqn:Ef.
    + eexists. split; [now rewrite <- app_assoc|].
      eapply reply_failed; eauto.
    + eexists. split; [reflexivity|]. eapply stopped_failed; eauto.
Qed.

(** What the loop does for the lines read. *)
Lemma serve_spec lines : forall events st,
  match serve lib rt out lines (events, st) with
  | (Returns _, (events', st')) =>
      exists groups,
        session lib rt out lines events st groups st'
        /\ events' = events ++ concat groups
  | (Raises message, (events', st')) =>
      exists served line rest groups st1 partial,
        lines = served ++ line :: rest
        /\ session lib rt out served events st groups st1
        /\ stopped lib rt out line (events ++ concat groups) st1 partial st'
             message
        /\ events' = events ++ concat groups ++ partial
  end.
Proof.
  induction lines as [|line lines IH]; intros events st; cbn [serve].
  - exists []. split; [constructor|now rewrite app_nil_r].
  - pose proof (handle_line_spec line events st) as Hl.
    destruct (handle_line lib rt out line (events, st))
      as [[[]|message] [events1 st1]].
    + destruct Hl as [group [-> Hreply]].
      specialize (IH (events ++ group) st1).
      destruct (serve lib rt out lines (events ++ group, st1))
        as [[[]|message] [events2 st2]].
      * destruct IH as [groups [Hs ->]].
        exists (group :: groups). split; [econstructor; eauto|].
        cbn [concat]. now rewrite app_assoc.
      * destruct IH as [served [l [rest [groups [s1 [partial
                         [-> [Hs [Hst ->]]]]]]]]].
        exists (line :: served), l, rest, (group :: groups), s1, partial.
        split; [reflexivity|]. split; [econstructor; eauto|].
        cbn [concat]. rewrite !app_assoc in *. split; [exact Hst|reflexivity].
    + destruct Hl as [partial [-> Hst]].
      exists [], line, lines, [], st, partial. split; [reflexivity|].
      split; [constructor|]. cbn [concat]. rewrite app_nil_r.
      split; [exact Hst|reflexivity].
Qed.

Lemma main_run_spec stdin ending st :
  main_run lib rt out stdin ending st
    (fst (main lib rt out stdin ending st))
    (fst (snd (main lib rt out stdin ending st)))
    (snd (snd (main lib rt out stdin ending st))).
Proof.
  unfold main. rewrite send_spec. fold ready_event exiting_event.
  destruct (Protocol.write_line out [] ready_event) as [[]|message] eqn:Er.
  2: { cbn [fst snd]. now apply run_not_ready. }
  cbn [app].
  pose proof (serve_spec stdin [ready_event] st) as Hs.
  destruct (serve lib rt out stdin ([ready_event], st))
    as [[[]|message] [events st']].
  - destruct Hs as [groups [Hs ->]].
    destruct ending as [[]|message] eqn:Ee.
    + rewrite send_spec.
      destruct (Protocol.write_line out ([ready_event] ++ concat groups)
                  exiting_event) as [[]|message] eqn:Ex; cbn [fst snd].
      * rewrite <- app_assoc. now apply run_complete.
      * now apply run_not_exiting.
    + cbn [fst snd]. now apply run_read_error.
  - destruct Hs as [served [line [rest [groups [st1 [partial
                     [-> [Hs [Hst ->]]]]]]]]].
    cbn [fst snd]. eapply run_stopped; eauto.
Qed.

Lemma reply_no_status line events st group st' :
  reply lib rt out line events st group st' ->
  Forall (fun event => is_status event = false) group.
Proof. intros H. destruct H; repeat constructor. Qed.

Lemma stopped_no_status line events st partial st' message :
  stopped lib rt out line events st partial st' message ->
  Forall (fun event => is_status event = false) partial.
Proof. intros H. destruct H; repeat constructor. Qed.

Lemma session_no_status lines events st groups st' :
  session lib rt out lines events st groups st' ->
  Forall (fun event => is_status event = false) (concat groups).
Proof.
  induction 1 as [|line lines events st group st1 rest st2 Hr Hs IH];
    cbn [concat]; [constructor|].
  apply Forall_app. split; [eapply reply_no_status; eauto|exact IH].
Qed.

Lemma session_succeeds lines : forall events st,
  writes_succeed out ->
  exists groups st',
    serve lib rt out lines (events, st)
    = (Returns tt, (events ++ concat groups, st')).
Proof.
  intros events st Hw. pose proof (serve_spec lines events st) as Hs.
  destruct (serve lib rt out lines (events, st))
    as [[[]|message] [events' st']].
  - destruct Hs as [groups [_ ->]]. now exists groups, st'.
  - destruct Hs as [served [line [rest [groups [st1 [partial
                     [_ [_ [Hst _]]]]]]]]].
    exfalso. destruct Hst;
      match goal with
      | H : Protocol.write_line out _ _ = Raises _ |- _ =>
          rewrite Hw in H; discriminate
      end.
Qed.

(** X18. [main] writes the "ready" status first; then it replies to the
    lines in the order it reads them: nothing for a line that is blank once
    trimmed; one "Invalid command" error, with the text of the exception,
    for a line [parse_command] refuses; for a command, the "transcribing"
    event followed by the transcript when the transcription returns, or by
    one "Transcription failed" error with the text of the exception when the
    transcription, or the write of one of these two events, raises; and at
    the end of the input it writes the "exiting" status.  An exception that
    [transcribe] raises never ends the loop.  [main] ends with an exception,
    and writes no "exiting" status, in these cases only: the write of the
    "ready" status, of an error event inside a handler, or of the "exiting"
    status raises, or the read of the input does.  When every write
    succeeds and the input ends, [main] returns and what it has written is
    the "ready" status, replies that hold no status, and the "exiting"
    status. *)
Theorem main_session (stdin : list str) (ending : answer unit) (st : State) :
  let run := main lib rt out stdin ending st in
  main_run lib rt out stdin ending st
    (fst run) (fst (snd run)) (snd (snd run))
  /\ (writes_succeed out -> ending = Returns tt -> fst run = Returns tt)
  /\ (forall message,
        fst run = Raises message -> ~ In exiting_event (fst (snd run)))
  /\ (fst run = Returns tt ->
      exists body,
        fst (snd run) = [ready_event] ++ body ++ [exiting_event]
        /\ Forall (fun event => is_status event = false) body).
Proof.
  cbv zeta. split; [apply main_run_spec|]. split; [|split].
  - intros Hw ->. unfold main. rewrite send_spec, Hw.
    destruct (session_succeeds stdin [ready_event] st Hw)
      as [groups [st' Hs]].
    fold ready_event. cbn [app] in *. rewrite Hs, send_spec, Hw. reflexivity.
  - intros message Hm. pose proof (main_run_spec stdin ending st) as Hrun.
    rewrite Hm in Hrun.
    assert (Hno : forall body,
      Forall (fun event => is_status event = false) body ->
      ~ In exiting_event (ready_event :: body)).
    { intros body Hb [H|H]; [discriminate|].
      rewrite Forall_forall in Hb. apply Hb in H. discriminate. }
    inversion Hrun; subst.
    + intros [].
    + apply Hno. apply Forall_app.
      split; [eapply session_no_status; eauto
             |eapply stopped_no_status; eauto].
    + apply Hno. eapply session_no_status; eauto.
    + apply Hno. eapply session_no_status; eauto.
  - intros Hr. pose proof (main_run_spec stdin ending st) as Hrun.
    rewrite Hr in Hrun. inversion Hrun; subst.
    exists (concat groups). split; [reflexivity|].
    eapply session_no_status; eauto.
Qed.

Lemma serve_app before after written :
  serve lib rt out (before ++ after) written
  = match serve lib rt out before written with
    | (Returns _, written1) => serve lib rt out after written1
    | (Raises message, written1) => (Raises message, written1)
    end.
Proof.
  revert written. induction before as [|line before IH]; intros written;
    cbn [app serve]; [reflexivity|].
  destruct (handle_line lib rt out line written) as [[[]|message] written1];
    [apply IH|reflexivity].
Qed.

(** X19. The lines are served one after the other, and nothing but the
    events written and the state passes from a line to the next: the loop
    over an input cut in two is the loop over the first part, followed,
    unless it raised, by the loop over the second part.  A blank line
    changes nothing: [main] runs on the input without it as on the input
    with it.  A line that [parse_command] refuses calls no library and
    leaves the state as it was: when the write of its error event returns,
    that one event is added and the loop goes on with the next line; when
    that write raises, nothing is added, the loop ends there with this
    exception and the lines after are not served. *)
Theorem main_serves_lines_in_turn (before after : list str) (line : str)
    (ending : answer unit) (st : State) :
  (forall written,
      serve lib rt out (before ++ after) written
      = match serve lib rt out before written with
        | (Returns _, written1) => serve lib rt out after written1
        | (Raises message, written1) => (Raises message, written1)
        end)
  /\ (Py.strip line = [] ->
      main lib rt out (before ++ line :: after) ending st
      = main lib rt out (before ++ after) ending st)
  /\ (forall e written events st1,
        Py.strip line <> [] ->
        Protocol.parse_command rt (Py.strip line) = inr e ->
        serve lib rt out before written = (Returns tt, (events, st1)) ->
        serve lib rt out (before ++ line :: after) written
        = match
            Protocol.write_line out events (invalid_command_event rt e)
          with
          | Returns _ =>
              serve lib rt out after
                (events ++ [invalid_command_event rt e], st1)
          | Raises message => (Raises message, (events, st1))
          end).
Proof.
  split; [|split].
  - intros written. apply serve_app.
  - intros Hblank. unfold main.
    destruct (send out _ ([], st)) as [[[]|message] written]; [|reflexivity].
    rewrite !serve_app.
    destruct (serve lib rt out before written) as [[[]|message] written1];
      [|reflexivity].
    cbn [serve]. unfold handle_line. rewrite Hblank. reflexivity.
  - intros e written events st1 Hne Hparse Hbefore.
    rewrite serve_app, Hbefore. cbn [serve]. unfold handle_line.
    destruct (Py.strip line) as [|c rest] eqn:Es; [now contradiction Hne|].
    rewrite Hparse, send_spec. fold (invalid_command_event rt e).
    now destruct (Protocol.write_line out events (invalid_command_event rt e))
      as [[]|message].
Qed.

End MainFacts.

(** A command of another type is refused with its type. *)
Lemma parse_command_spec_witness :
  Protocol.parse_command Wire.decoder Wire.stop
  = inr (Protocol.UnknownCommandType (Protocol.VStr (Py.lit "stop"))).
Proof.
  apply (proj1 (proj2 (proj2 (proj2
           (parse_command_spec Wire.decoder Wire.stop))))
           [(Py.lit "type", Protocol.VStr (Py.lit "stop"))]).
  - reflexivity.
  - discriminate.
Defined.

(** A session: a blank line, a text that is no JSON, a command of an
    unknown type and a transcription. *)
Example main_session_example :
  let run :=
    main (Scenario.obliging Recordings.files) Wire.decoder Wire.utf8_stdout
      [Wire.newline;
       Wire.garbage ++ Wire.newline;
       Wire.stop ++ Wire.newline;
       Wire.transcribe_mono ++ Wire.newline]
      (Returns tt) (Fixture.fresh (Py.lit "auto")) in
  fst run = Returns tt
  /\ fst (snd run)
     = [ready_event;
        Protocol.ErrorEvent (Py.lit "Invalid command: " ++ Wire.decode_error);
        Protocol.ErrorEvent
          (Py.lit "Invalid command: Unknown command type: stop");
        transcribing_event;
        Protocol.TranscriptCompleteEvent [Wire.privet_ru] Example.privet;
        exiting_event].
Proof. vm_compute. split; reflexivity. Qed.

(** A command whose type cannot be written in UTF-8: the error event of the
    handler cannot be written either, [main] ends there, the command after
    it is not served and no "exiting" status is written. *)
Example main_stops_on_unwritable_error :
  main (Scenario.obliging Recordings.files) Wire.surrogate_decoder
    Wire.utf8_stdout
    [Wire.surrogate_type ++ Wire.newline;
     Wire.transcribe_mono ++ Wire.newline]
    (Returns tt) (Fixture.fresh (Py.lit "auto"))
  = (Raises Wire.encode_error,
     ([ready_event], Fixture.fresh (Py.lit "auto"))).
Proof. vm_compute. reflexivity. Qed.

(** With a standard output that takes every line [main] returns; with the
    command that cannot be written it writes no "exiting" status. *)
Lemma main_session_witness :
  fst (main (Scenario.obliging Recordings.files) Wire.decoder Wire.pipe
         [Wire.stop ++ Wire.newline; Wire.transcribe_mono ++ Wire.newline]
         (Returns tt) (Fixture.fresh (Py.lit "auto")))
  = Returns tt
  /\ ~ In exiting_event
         (fst (snd (main (Scenario.obliging Recordings.files)
                      Wire.surrogate_decoder Wire.utf8_stdout
                      [Wire.surrogate_type ++ Wire.newline;
                       Wire.transcribe_mono ++ Wire.newline]
                      (Returns tt) (Fixture.fresh (Py.lit "auto"))))).
Proof.
  split.
  - apply (proj1 (proj2
             (main_session (Scenario.obliging Recordings.files) Wire.decoder
                Wire.pipe
                [Wire.stop ++ Wire.newline;
                 Wire.transcribe_mono ++ Wire.newline]
                (Returns tt) (Fixture.fresh (Py.lit "auto"))))).
    + intros written event. reflexivity.
    + reflexivity.
  - apply (proj1 (proj2 (proj2
             (main_session (Scenario.obliging Recordings.files)
                Wire.surrogate_decoder Wire.utf8_stdout
                [Wire.surrogate_type ++ Wire.newline;
                 Wire.transcribe_mono ++ Wire.newline]
                (Returns tt) (Fixture.fresh (Py.lit "auto")))))
             Wire.encode_error).
    vm_compute. reflexivity.
Defined.

(** A blank line before a command changes nothing. *)
Lemma main_serves_lines_in_turn_witness :
  main (Scenario.obliging Recordings.files) Wire.decoder Wire.utf8_stdout
    ([] ++ Wire.newline :: [Wire.transcribe_mono])
    (Returns tt) (Fixture.fresh (Py.lit "auto"))
  = main (Scenario.obliging Recordings.files) Wire.decoder Wire.utf8_stdout
      ([] ++ [Wire.transcribe_mono]) (Returns tt)
      (Fixture.fresh (Py.lit "auto")).
Proof.
  apply (proj1 (proj2
           (main_serves_lines_in_turn (Scenario.obliging Recordings.files)
              Wire.decoder Wire.utf8_stdout [] [Wire.transcribe_mono]
              Wire.newline (Returns tt) (Fixture.fresh (Py.lit "auto"))))).
  reflexivity.
Defined.

(** ** The language state *)

Section LanguageFacts.

Variable lib : Library.

(** X20. [effective_language] gives [None] for "auto" and the setting as it
    is otherwise.  Passed to [recognize], a setting other than "auto" and
    other than the empty string is the language of the recognition, with no
    detection, whatever the engine is set to; the setting "auto", like the
    empty string, asks for no detection by itself: the recognition is the
    one of a request that names no language, which follows the language of
    the engine and detects only when that language is "auto" too. *)
Theorem effective_language_request (self : LanguageState)
    (audio : list float) (sample_rate : Z) (st : State) :
  (current self = Py.lit "auto" -> effective_language self = None)
  /\ (current self <> Py.lit "auto" ->
      effective_language self = Some (current self))
  /\ (current self <> Py.lit "auto" -> current self <> [] ->
      resolve_language lib audio sample_rate (effective_language self) st
      = (current self, st))
  /\ (current self = Py.lit "auto" \/ current self = [] ->
      recognize lib audio sample_rate (effective_language self) st
      = recognize lib audio sample_rate None st
      /\ (_language (engine st) <> Py.lit "auto" ->
          resolve_language lib audio sample_rate (effective_language self) st
          = (_language (engine st), st))).
Proof.
  unfold effective_language. split; [|split; [|split]].
  - intros ->. reflexivity.
  - intros H. apply py_eqb_neq in H. now rewrite H.
  - intros H Hne. pose proof H as H'. apply py_eqb_neq in H'. rewrite H'.
    now apply resolve_language_pinned.
  - intros [H|H]; rewrite H.
    + change (Py.eqb (Py.lit "auto") (Py.lit "auto")) with true. cbv iota.
      split; [reflexivity|].
      intros Hauto. apply py_eqb_neq in Hauto.
      unfold resolve_language. cbn [Py.or_else]. now rewrite Hauto.
    + change (Py.eqb [] (Py.lit "auto")) with false. cbv iota.
      split; [reflexivity|].
      intros Hauto. apply py_eqb_neq in Hauto.
      unfold resolve_language. cbn [Py.or_else]. now rewrite Hauto.
Qed.

End LanguageFacts.

(** The default state on a Russian engine: Russian, with no detection. *)
Lemma effective_language_request_witness :
  resolve_language (Scenario.obliging []) Example.clip 16000
    (effective_language LanguageState_default)
    (Example.engine_with (Py.lit "ru") [(Py.lit "ru", Example.ru_model)] [])
  = (Py.lit "ru",
     Example.engine_with (Py.lit "ru") [(Py.lit "ru", Example.ru_model)] []).
Proof.
  apply (proj2 (proj2 (proj2
           (effective_language_request (Scenario.obliging [])
              LanguageState_default Example.clip 16000
              (Example.engine_with (Py.lit "ru")
                 [(Py.lit "ru", Example.ru_model)] []))))).
  - left. reflexivity.
  - discriminate.
Defined.

(** A transcription does not see the engine a state holds. *)
Lemma transcribe_creates_its_engine_witness :
  fst (transcribe (Scenario.obliging Recordings.files) (Py.lit "mono.wav")
         (Py.lit "ru") (Py.lit "gigaam-v3-rnnt") (Py.lit "whisper-base")
         (Fixture.fresh (Py.lit "auto")))
  = fst (transcribe (Scenario.obliging Recordings.files) (Py.lit "mono.wav")
           (Py.lit "ru") (Py.lit "gigaam-v3-rnnt") (Py.lit "whisper-base")
           (Example.engine_with (Py.lit "en")
              [(Py.lit "en", Example.en_model)] [Py.lit "en"])).
Proof.
  apply (transcribe_creates_its_engine (Scenario.obliging Recordings.files)
           (Py.lit "mono.wav") (Py.lit "ru") (Py.lit "gigaam-v3-rnnt")
           (Py.lit "whisper-base") (Fixture.fresh (Py.lit "auto"))
           (Example.engine_with (Py.lit "en")
              [(Py.lit "en", Example.en_model)] [Py.lit "en"])).
  - reflexivity.
  - reflexivity.
Defined.
